(* ===== verification/_CoqProject ===== *)
-Q . S2P
Prelude.v
Moves.v
Depth.v
Runtime.v
Contour.v
PushCutter.v
PluginManager.v
PluginInit.v
ListPlugin.v
Filter.v
Heap.v
Persist.v
Handlers.v
TreeModel.v
ListView.v
GL.v
