(* ===== verification/Prelude.v ===== *)
(** * PyCAM: the PushCutter toolpath generator and the plugin framework

    A verification development for the PyCAM sources under [src/]:
    [pycam/PathGenerators/PushCutter.py] (the layered sweep that computes
    free tool positions), [pycam/Plugins/__init__.py] (plugin loading,
    list plugins and persistence) and [pycam/Gui/OpenGLTools.py].  The
    program is modelled by a shallow embedding: Python functions become
    Rocq functions, exceptions become [Err] values of [result], mutable
    state is passed explicitly or threaded through a state monad.

    ** How the parts fit together

    [PushCutter.GenerateToolPath] walks the layers of a motion grid; per
    layer, [GenerateToolPathSlice] computes a recursion depth for every
    probe line, hands the lines to [run_in_parallel] with a collision
    back-end, expands the free intervals it gets back into moves and feeds
    them to the path processor, reporting progress through a
    [ProgressCounter] and a live-update callback that can cancel.  In
    waterline mode the contour processor's polylines are re-checked against
    the other models.  The plugin manager scans the plugin directory,
    imports the plugin classes in dependency order, builds each plugin
    object ([PluginBase.__init__], which also loads the class's icons)
    and enables or disables them; a plugin registers its event and widget
    handlers with the core.  List plugins keep their items in a Python
    list mirrored by a GTK list store: every change of the list
    resynchronises the store, and the list actions read and write the
    view's selection.  Persistence saves and restores plugin settings
    and entity objects through dicts.

    ** Files

    - [Prelude]: the [py_error] exceptions, the [result] type and its bind
      notation (scope [pycam_scope]), Python's stable [list.sort] as the
      insertion sort [sort_by] with its permutation and sortedness
      lemmas (used for row indices, [dep_order] and plugin names), list
      lemmas on [range] loops, the
      hint databases [pycam] and [pycam_rw] and the tactics [inv] and
      [split_bind].
    - [Moves] (Module [Moves]): the move tuples and the free-interval
      expansion loops of PushCutter.py (lines 104-123, 161-164).
    - [Depth] (Module [Depth]): the depth formula of lines 132-150 over the
      reals with its [ZeroDivisionError]/[ValueError] paths, and an
      executable version on rationals proved equal to it.
    - [Runtime] (Module [Runtime]): the collaborators outside [src/],
      modelled from the spec: the callback as an observable trace,
      [ProgressCounter], and [run_in_parallel] as the serial loop that
      consumes its results in order.
    - [Contour]: the [ContourCutter] interface as a class, with an instance
      used in the scenarios.
    - [PushCutter] (Module [PushCutter], Section [WithBackends] over the
      back-ends and the contour processor): [_process_one_line],
      [GenerateToolPathSlice], [GenerateToolPath] and the waterline
      post-processing; Module [Scenarios] runs them on concrete grids.
    - [PluginManager] (Module [PluginManager], stdpp [gmap] of modules):
      [import_plugins] with its directory scan, [_load_plugin],
      [get_plugin], [enable_plugin],
      [disable_plugin], [is_plugin_required],
      [get_plugin_missing_dependencies], [get_plugin_names] and
      [get_plugins_sorted].  A plugin class carries whether its
      constructor raises, which is where [PluginInit]'s
      [PluginBase.__init__] meets the manager; an exception ends an
      operation as an [Err] without the manager state reached so far.
    - [ListPlugin] (Module [ListPlugin]): [ListPluginBase._list_action] and
      [_update_list_action_button_state] over the list and the selected
      row indices, with the wrapped [pop]/[insert] that notify the model.
    - [PluginInit] (Module [PluginInit]): [PluginBase.__init__] with
      the [ICONS] dicts of the classes as objects of a store, so that
      a subclass shares its parent's dict; the file lookup, the builder
      and the pixbuf loader are section variables.
    - [Heap] (Module [Heap]): Python values and dict objects on a heap,
      the store (with the shared [uuid_map] and default [result] dict),
      the state and exception monad [M] (stdpp's [≫=]) and the dict
      operations; a total-correctness program logic [wp] and the
      invariant [keeps] (the store stays well formed and only grows),
      with the hint database [heap] and the tactic [solve_keeps].
    - [Persist] (Module [Persist]), over [Heap]:
      [PluginBase.get_persist_data]/[set_persist_data],
      [ObjectWithAttributes] ([__init__], [unpersist], [get_persist_data],
      [_register_uuid], [_get_by_uuid]) and [ListPluginBase]'s
      persistence; frame lemmas for the nested template loops.
    - [Handlers] (Module [Handlers]): [PluginBase]'s registration methods
      (lines 97-208 of [Plugins/__init__.py]) over a [world] record of
      the core's tables, the plugin's caches and the GTK objects; the
      core's event registry is the typeclass [EventCore], whose laws hold
      up to a setoid equivalence ([Proper] instances, setoid rewriting),
      with a [gmultiset] instance.
    - [TreeModel] (Module [TreeModel], Section [WithUuid] over the uuid
      type): [ListPluginBase._update_gtk_treemodel] and [get_by_path]
      over the rows of the GTK list store (one uuid per row), with
      [gtk.ListStore.reorder] as GTK documents it
      ([new_order[newpos] = oldpos]).
    - [ListView] (Module [ListView], over [TreeModel] and [ListPlugin]):
      the methods that tie a list plugin to its GTK view, over a
      [list_view] record (items, store rows, model view, update
      functions): [get_selected]/[_get_gtk_selected] for tree views,
      combo boxes and icon views, [select]/[_select_gtk],
      [_change_wrapper], [_update_model], [register_model_update],
      [unregister_model_update], [new] and [register_list_action_button];
      the GTK selection calls follow their documentation.
    - [Filter] (Module [Filter], Section [WithItems] over the attribute
      lookup): [filter_list] with Python's negative indices and the
      [TypeError]/[IndexError] handling, and [get_filter].
    - [GL] (Module [GL]): the OpenGL state (matrix mode, one symbolic
      matrix stack per mode, error flag, colour, drawn primitives) in
      ExtLib's [eitherT] over its [state] monad, so that the OpenGL state
      survives a Python exception; the outcome of the careful
      [import OpenGL.GL] / [import OpenGL.GLUT] ([gl_import]: both, [GL]
      only, neither) with the [NameError] of an unbound module name
      ([lookup_GL], [lookup_GLUT]); the GL calls, [keep_gl_mode],
      [keep_matrix], [draw_direction_cone] and [draw_complete_model_view]
      (Section [ModelView] over [cutter.to_OpenGL] and [draw_toolpath]),
      with [PointUtils] as vector arithmetic over the reals; the
      invariant [gl_wf] and the contract [frame_preserving] of drawing
      code, with the hint database [gl].

    ** What the theorems show (claim ids of the manifest)

    - PushCutter (C1, C4, C8-C11, C14-C16): the flat and waterline runs
      produce the layers' moves in order; the argument list of a slice is
      one entry per probe line with its depth; a zero-length line raises
      [ValueError]; a cancel answer stops the run with the finished
      layers; a back-end error ends the run with that error; every move
      is well formed and the progress count is bounded by the number of
      lines.
    - Moves and depth (C2, C3): the two index loops are equal to
      structural reference definitions, and emit three moves per pair of
      endpoints at the positions the indices give; the real-valued depth
      of a probe line is refined by the executable rational computation,
      with its exceptions, and lies in [4, 20] ([line_depth_clamps]
      shows both clamps are reached).
    - Plugin manager (C18-C24, C28): [import_plugins] terminates, loads
      only plugins whose dependencies are loaded and, when every setup
      succeeds and the dependencies are acyclic, loads every candidate
      (liveness, by well-founded induction on a rank of the candidates);
      [get_plugins_sorted] sorts by dependency order, enable/disable
      round-trip, and three defects.
    - List plugin (C25, C26): moving rows up and back down restores
      the list; DELETE keeps exactly the unselected rows (a scenario
      shows that DELETE with several rows selected computes a stale
      selection).
    - Tree model (C7, C33): synchronising the store leaves one row per
      item, each row resolving to its item through [get_by_path]; the
      reorder is passed the inverse permutation, so the rows end in the
      items' order only when that permutation is an involution, and the
      warning fires exactly when they do not.
    - List view (C12): selecting items in a multiple-selection tree view
      whose store is in item order and reading the selection back gives
      those items, in list order, and their positions.
    - Handler registration (C5, C13, C17, C27): the handler cache gives
      each (function, parameters) a handler of the right kind and keeps
      it; unregistering the event handlers a plugin registered restores
      the core's registry (up to its equivalence); unregistering the
      widget handlers disconnects exactly the connections made;
      unregistering an accelerator leaves its action group in the UI
      manager.
    - Persistence (C29-C32): saving and restoring settings round-trips;
      the mutable default argument makes all plugins share one dict; list
      persistence ignores [what]; string parameters are lost and a second
      restore from the same data raises [TypeError].
    - Filter (C34): a list of valid indices selects [items[i]] in
      order, then the keyword filter (a scenario shows that an
      out-of-range index escapes as [IndexError] only when it is inside
      a list).
    - Plugin construction (C35): a successful [PluginBase.__init__]
      leaves only pixbufs or [None] in the class's [ICONS] dict, which
      subclasses share, so the icon file names are lost for every later
      construction.
    - OpenGL (C6, C36-C40): [keep_matrix] restores the entry mode's stack and
      leaves the mode [func] chose; [draw_direction_cone] restores all
      stacks and draws exactly one cone for a non-zero line (the [asin]
      error branch is dead) when its stack has room, and on a full stack
      records [GL_STACK_OVERFLOW] and loses the caller's matrix;
      [draw_complete_model_view] restores the model-view stack when
      entered in model-view mode, clobbers the
      caller's model-view matrix when entered in another mode, and leaves
      the stack pushed when [draw_toolpath] raises; when the careful
      import failed, every function raises [NameError] before any GL call,
      and without [GLUT] alone [draw_direction_cone] raises after its
      push, leaving the stack one matrix deeper.

    ** Bounds and fuel

    The depth search of [Depth.line_depth_sq] tries the 16 candidates
    after 4 (the clamp bounds 4 and 20 make more unnecessary, which
    [line_depth_pts_spec] relies on).  [PluginManager.import_plugins] runs
    its dependency loop with fuel [S (length candidates)]: every pass
    that does not end the loop loads at least one plugin, so this is
    enough ([import_plugins_total]).  [Persist.pop_all] pops with fuel
    [length items], one pop per item ([pop_all_spec]).  The OpenGL
    stacks have the minimum depths the OpenGL specification guarantees
    (32 model-view matrices, 2 of the others); [draw_direction_cone_spec]
    covers both a stack with room for the push and a full one, the other
    decorator theorems assume room for one push.  Everything else is
    structural recursion.  Python integers are unbounded and are [nat] or
    [Z] here; Python floats are reals, without rounding (at the powers of
    two where the depth clamp changes value, CPython's float computation
    is exact; see [Depth]).

    ** Not modelled

    The file system behind [get_ui_file_location] and the pixbuf and
    builder loaders (section variables of [PluginInit]), the GTK widgets
    themselves (only the selection and signal calls the list plugins
    make are modelled), [os.listdir] and the import of plugin modules
    (their outcome is an input of the scan), logging, the OpenGL and
    GLUT libraries themselves (the GL calls are modelled from their
    documented behaviour; which of the two imports succeeded is an
    argument), the collision back-ends, which are section parameters of
    [PushCutter], and the contour-joining algorithm of
    [pycam.PathProcessors.ContourCutter]: neither is in the repository
    and the spec gives only their interfaces, which are what [PushCutter]
    is proved against (the class [Contour.ContourCutter]). *)

From Stdlib Require Import String.
From Stdlib Require Import List Arith Lia Bool Permutation Sorted.
Import ListNotations.

(** ** Python exceptions that the modelled code can raise *)

Inductive py_error : Type :=
  | ZeroDivisionError
  | ValueError
  | AttributeError
  | KeyError (key : string)
  | NotImplementedError
  | IndexError
  | TypeError
  | NameError
  | BackendError (msg : string).

(** A computation that returns a value or raises. *)
Inductive result (A : Type) : Type :=
  | Ok (a : A)
  | Err (e : py_error).
Arguments Ok {A} a.
Arguments Err {A} e.

Definition bind_result {A B} (r : result A) (k : A -> result B) : result B :=
  match r with
  | Ok a => k a
  | Err e => Err e
  end.

(** Whether a call returned normally: a boolean that [vm_compute]
    decides on a concrete run without building the result. *)
Definition is_ok {A} (r : result A) : bool :=
  match r with Ok _ => true | Err _ => false end.

Declare Scope pycam_scope.
Delimit Scope pycam_scope with pycam.
Notation "x <- c ;; k" := (bind_result c (fun x => k))
  (at level 100, c at next level, right associativity) : pycam_scope.
Notation "' pat <- c ;; k" := (bind_result c (fun x => match x with pat => k end))
  (at level 100, pat pattern, c at next level, right associativity) : pycam_scope.
Open Scope pycam_scope.

Lemma bind_result_Ok {A B} (r : result A) (k : A -> result B) b :
  bind_result r k = Ok b -> exists a, r = Ok a /\ k a = Ok b.
Proof. destruct r; simpl; [eauto | discriminate]. Qed.

Lemma bind_result_Err {A B} (e : py_error) (k : A -> result B) :
  bind_result (Err e) k = Err e.
Proof. reflexivity. Qed.

Lemma is_ok_Ok {A} (r : result A) : is_ok r = true -> exists a, r = Ok a.
Proof. destruct r; [eauto | discriminate]. Qed.

(** ** Python's stable [list.sort] as an insertion sort *)

Section Sort.
Context {A : Type} (le : A -> A -> bool).

(** Insert [x] before the first element it is not greater than, so that
    equal elements keep their order. *)
Fixpoint insert_by (x : A) (l : list A) : list A :=
  match l with
  | [] => [x]
  | y :: l' => if le x y then x :: l else y :: insert_by x l'
  end.

Definition sort_by (l : list A) : list A := fold_right insert_by [] l.

Lemma insert_by_perm x l : Permutation (insert_by x l) (x :: l).
Proof.
  induction l as [|y l IH]; cbn; [reflexivity|].
  destruct (le x y); [reflexivity|]. rewrite IH. apply perm_swap.
Qed.

Lemma sort_by_perm l : Permutation (sort_by l) l.
Proof.
  induction l as [|x l IH]; cbn; [reflexivity|].
  rewrite insert_by_perm. now apply perm_skip.
Qed.

(** With a total order [R] that [le] decides, the result is sorted. *)
Context (R : A -> A -> Prop)
        (le_true : forall a b, le a b = true -> R a b)
        (le_false : forall a b, le a b = false -> R b a).

Lemma insert_by_sorted x l : Sorted R l -> Sorted R (insert_by x l).
Proof.
  induction 1 as [|y l Hs IH Hhd]; cbn; [repeat constructor|].
  destruct (le x y) eqn:E.
  - constructor; [now constructor | constructor; now apply le_true].
  - constructor; [exact IH|].
    destruct l as [|z l]; cbn; [constructor; now apply le_false|].
    inversion Hhd; subst. destruct (le x z); constructor; [now apply le_false | assumption].
Qed.

Lemma sort_by_sorted l : Sorted R (sort_by l).
Proof. induction l as [|x l IH]; cbn; [constructor | now apply insert_by_sorted]. Qed.

End Sort.

(** ** Python's [range(n)] and index lookups *)

Lemma flat_map_seq_shift {A} (f : nat -> list A) s n :
  flat_map f (seq (S s) n) = flat_map (fun i => f (S i)) (seq s n).
Proof.
  revert s. induction n as [|n IH]; intros s; [reflexivity|].
  simpl. now rewrite IH.
Qed.

Lemma map_seq_shift {A} (f : nat -> A) s n :
  map f (seq (S s) n) = map (fun i => f (S i)) (seq s n).
Proof.
  revert s. induction n as [|n IH]; intros s; [reflexivity|].
  simpl. now rewrite IH.
Qed.

Lemma length_flat_map_const {A B} (f : A -> list B) k l :
  (forall x, In x l -> length (f x) = k) ->
  length (flat_map f l) = k * length l.
Proof.
  induction l as [|x l IH]; intros H; simpl; [lia|].
  rewrite length_app, H by (simpl; auto).
  rewrite IH by (intros; apply H; simpl; auto). lia.
Qed.

(** ** Automation shared by the components *)

Create HintDb pycam.
Create Rewrite HintDb pycam_rw.
#[export] Hint Rewrite @bind_result_Err : pycam_rw.
#[export] Hint Resolve in_eq in_cons : pycam.

Ltac inv H := inversion H; subst; clear H.

(** Split a [bind_result] hypothesis [_ = Ok _] into its two halves. *)
Ltac split_bind H :=
  let a := fresh "a" in
  let Ha := fresh "Ha" in
  apply bind_result_Ok in H; destruct H as [a [Ha H]].
