(* ===== verification/Moves.v ===== *)
(** * Moves: the toolpath move list and the free-interval expansion

    Models the move tuples of [pycam.Toolpath] as the PushCutter code uses
    them ([(MOVE_STRAIGHT, point)] and [(MOVE_SAFETY, None)]) and the two
    loops of [src/pycam/PathGenerators/PushCutter.py] that turn a flat list
    of free-interval endpoints into moves (lines 161-164, repeated at
    115-118) and a polyline into consecutive point pairs (lines 105-107). *)

From Stdlib Require Import List Arith Lia.
From S2P Require Import Prelude.
Import ListNotations.

Module Moves.

Inductive move_type : Type := MOVE_STRAIGHT | MOVE_SAFETY.

Section WithPoint.
Context {Point : Type}.

(** A move is the tuple [(kind, point or None)] of the source. *)
Definition move : Type := (move_type * option Point)%type.

(** [for index in range(len(points) / 2): append STRAIGHT p[2i],
    STRAIGHT p[2i+1], SAFETY] with Python 2 integer division. *)
Definition moves_of_free_points (points : list Point) : list move :=
  flat_map (fun index =>
    match nth_error points (2 * index), nth_error points (2 * index + 1) with
    | Some a, Some b =>
        [(MOVE_STRAIGHT, Some a); (MOVE_STRAIGHT, Some b); (MOVE_SAFETY, None)]
    | _, _ => []
    end) (seq 0 (length points / 2)).

(** The same expansion by structural recursion on the point list. *)
Fixpoint moves_of_intervals (points : list Point) : list move :=
  match points with
  | a :: b :: rest =>
      (MOVE_STRAIGHT, Some a) :: (MOVE_STRAIGHT, Some b) :: (MOVE_SAFETY, None)
        :: moves_of_intervals rest
  | _ => []
  end.

(** [pairs = [(path.points[i], path.points[i+1]) for i in
    range(len(path.points) - 1)]] (lines 105-107); [range] of a negative
    bound is empty, as [0 - 1 = 0] on [nat]. *)
Definition waterline_pairs (points : list Point) : list (Point * Point) :=
  flat_map (fun index =>
    match nth_error points index, nth_error points (index + 1) with
    | Some p1, Some p2 => [(p1, p2)]
    | _, _ => []
    end) (seq 0 (length points - 1)).

(** Consecutive pairs by structural recursion. *)
Fixpoint consecutive_pairs (points : list Point) : list (Point * Point) :=
  match points with
  | a :: ((b :: _) as rest) => (a, b) :: consecutive_pairs rest
  | _ => []
  end.

(** One unchecked waterline segment (lines 121-123). *)
Definition pair_moves (pq : Point * Point) : list move :=
  [(MOVE_STRAIGHT, Some (fst pq)); (MOVE_STRAIGHT, Some (snd pq)); (MOVE_SAFETY, None)].

(** A move carries a point exactly when it is a straight move. *)
Definition move_wf (m : move) : bool :=
  match m with
  | (MOVE_STRAIGHT, Some _) | (MOVE_SAFETY, None) => true
  | _ => false
  end.

(** ** Lemmas *)

Lemma moves_of_free_points_cons2 (a b : Point) rest :
  moves_of_free_points (a :: b :: rest) =
  (MOVE_STRAIGHT, Some a) :: (MOVE_STRAIGHT, Some b) :: (MOVE_SAFETY, None)
    :: moves_of_free_points rest.
Proof.
  unfold moves_of_free_points.
  replace (length (a :: b :: rest) / 2) with (S (length rest / 2))
    by (simpl length; replace (S (S (length rest))) with (length rest + 1 * 2) by lia;
        rewrite Nat.div_add by lia; lia).
  cbn [seq flat_map nth_error Nat.mul Nat.add app].
  rewrite flat_map_seq_shift. f_equal. f_equal. f_equal.
  apply flat_map_ext. intros i.
  now replace (S i + (S i + 0)) with (S (S (i + (i + 0)))) by lia.
Qed.

Lemma moves_of_intervals_wf (points : list Point) :
  forallb move_wf (moves_of_intervals points) = true.
Proof.
  induction points as [points IH] using (induction_ltof1 _ (@length Point)).
  destruct points as [|a [|b rest]]; [reflexivity | reflexivity |].
  simpl. apply IH. unfold ltof. simpl. lia.
Qed.

Lemma length_moves_of_intervals (points : list Point) :
  length (moves_of_intervals points) = 3 * (length points / 2).
Proof.
  induction points as [points IH] using (induction_ltof1 _ (@length Point)).
  destruct points as [|a [|b rest]]; [reflexivity | reflexivity |].
  simpl length. rewrite IH by (unfold ltof; simpl; lia).
  replace (S (S (length rest))) with (length rest + 1 * 2) by lia.
  rewrite Nat.div_add by lia. lia.
Qed.

Lemma waterline_pairs_cons2 (a b : Point) rest :
  waterline_pairs (a :: b :: rest) = (a, b) :: waterline_pairs (b :: rest).
Proof.
  unfold waterline_pairs. simpl length.
  replace (S (S (length rest)) - 1) with (S (S (length rest) - 1)) by lia.
  cbn [seq flat_map nth_error Nat.add app].
  rewrite flat_map_seq_shift. reflexivity.
Qed.

(** ** Properties *)

Lemma moves_of_free_points_eq (points : list Point) :
  moves_of_free_points points = moves_of_intervals points.
Proof.
  induction points as [points IH] using (induction_ltof1 _ (@length Point)).
  destruct points as [|a [|b rest]];
    [reflexivity | reflexivity |].
  rewrite moves_of_free_points_cons2, IH; [reflexivity | unfold ltof; simpl; lia].
Qed.

Lemma waterline_pairs_spec (points : list Point) :
  waterline_pairs points = consecutive_pairs points.
Proof.
  induction points as [|a [|b rest] IH]; [reflexivity | reflexivity |].
  rewrite waterline_pairs_cons2, IH. reflexivity.
Qed.

Lemma pair_moves_wf (pairs : list (Point * Point)) :
  forallb move_wf (flat_map pair_moves pairs) = true.
Proof. induction pairs as [|pq pairs IH]; [reflexivity | exact IH]. Qed.

(** ** Properties *)

(** C2: the two index loops of PushCutter.py are equivalent to their
    structural reference definitions: the expansion of lines 161-164
    (repeated at 115-118) equals [moves_of_intervals], which takes the
    endpoints two at a time, and the pairing of lines 105-107 equals
    [consecutive_pairs].  Hence the loop emits three moves per pair, the
    moves at [3 * index], [3 * index + 1] and [3 * index + 2] are
    [(MOVE_STRAIGHT, points[2 * index])],
    [(MOVE_STRAIGHT, points[2 * index + 1])] and [(MOVE_SAFETY, None)],
    and a trailing odd point is dropped. *)
Theorem moves_of_free_points_spec (points : list Point) :
  moves_of_free_points points = moves_of_intervals points /\
  waterline_pairs points = consecutive_pairs points /\
  length (moves_of_free_points points) = 3 * (length points / 2) /\
  forall index, index < length points / 2 ->
    (exists p, nth_error points (2 * index) = Some p /\
       nth_error (moves_of_free_points points) (3 * index) = Some (MOVE_STRAIGHT, Some p)) /\
    (exists p, nth_error points (2 * index + 1) = Some p /\
       nth_error (moves_of_free_points points) (3 * index + 1) = Some (MOVE_STRAIGHT, Some p)) /\
    nth_error (moves_of_free_points points) (3 * index + 2) = Some (MOVE_SAFETY, None).
Proof.
  split; [apply moves_of_free_points_eq|]. split; [apply waterline_pairs_spec|].
  rewrite moves_of_free_points_eq. split; [apply length_moves_of_intervals|].
  induction points as [points IH] using (induction_ltof1 _ (@length Point)).
  destruct points as [|a [|b rest]]; intros index Hi; [cbn in Hi; lia | cbn in Hi; lia |].
  assert (Hlen : length (a :: b :: rest) / 2 = S (length rest / 2)).
  { cbn [length]. replace (S (S (length rest))) with (length rest + 1 * 2) by lia.
    rewrite Nat.div_add by lia. lia. }
  rewrite Hlen in Hi. destruct index as [|j].
  - cbn. split; [eauto|]. split; [eauto | reflexivity].
  - replace (2 * S j) with (S (S (2 * j))) by lia.
    replace (2 * S j + 1) with (S (S (2 * j + 1))) by lia.
    replace (3 * S j) with (S (S (S (3 * j)))) by lia.
    replace (3 * S j + 1) with (S (S (S (3 * j + 1)))) by lia.
    replace (3 * S j + 2) with (S (S (S (3 * j + 2)))) by lia.
    cbn [moves_of_intervals nth_error].
    apply IH; [unfold ltof; cbn; lia | lia].
Qed.

End WithPoint.
Arguments move : clear implicits.

End Moves.
