(* ===== verification/Depth.v ===== *)
(** * Depth: the recursion depth of one probe line

    Models lines 132-150 of [src/pycam/PathGenerators/PushCutter.py]:
    [depth = math.log(accuracy * distance / cutter.radius) / math.log(2)]
    followed by [min(max(ceil(depth), 4), max_depth)], over the reals, with
    the two exceptions the expression can raise ([ZeroDivisionError] for a
    zero radius, [ValueError] from [math.log] of a non-positive number).
    [line_depth_sq] is an executable version on rationals that works on
    the squared distance; [line_depth_pts_spec] proves that it refines
    the real-valued definition.  Python's floats are modelled as reals:
    rounding is not modelled.  At the powers of two [2 ^ 0] to [2 ^ 24],
    where the clamps change value, CPython's
    [math.log(x) / math.log(2)] is exact, so the two can differ only
    for ratios within one rounding step of a power of two.  [pdist] is
    [pycam.Geometry.PointUtils.pdist], outside [src/]: the Euclidean
    distance. *)

From Stdlib Require Import ZArith QArith Qreals Reals Lra Lia Zfloor Psatz FunctionalExtensionality.
From S2P Require Import Prelude.

Module Depth.

(** Settings for the calculation of the depth (lines 133-135). *)
Definition accuracy : Z := 20.
Definition max_depth : Z := 20.
Definition min_depth : Z := 4.

(** Points are the coordinate triples of [pycam.Geometry.PointUtils]. *)
Definition point3 : Type := (Q * Q * Q)%type.

Definition pdist_sq (a b : point3) : Q :=
  let '(ax, ay, az) := a in
  let '(bx, by_, bz) := b in
  ((ax - bx) * (ax - bx) + (ay - by_) * (ay - by_) + (az - bz) * (az - bz))%Q.

Definition pdist (a b : point3) : R := sqrt (Q2R (pdist_sq a b)).

Local Open Scope R_scope.

(** Python's float division and [math.log]. *)
Definition py_div (x y : R) : result R :=
  if Req_EM_T y 0 then Err ZeroDivisionError else Ok (x / y).

Definition py_log (x : R) : result R :=
  if Rle_lt_dec x 0 then Err ValueError else Ok (ln x).

(** Lines 149-150; the lower clamp is the literal [4] of the source. *)
Definition line_depth (distance radius : R) : result Z :=
  q <- py_div (IZR accuracy * distance) radius ;;
  l <- py_log q ;;
  let depth := l / ln 2 in
  Ok (Z.min (Z.max (Zceil depth) 4) max_depth).

(** The depth of the probe line [p1 -> p2] for a cutter of radius
    [radius] (lines 147-150). *)
Definition line_depth_pts (p1 p2 : point3) (radius : Q) : result Z :=
  line_depth (pdist p2 p1) (Q2R radius).

(** ** Executable version *)

(** Find the least [n] in [[n0, n0 + k)] whose power [p = 2 ^ n] passes
    [fits], or [n0 + k]. *)
Fixpoint depth_search (fits : Q -> bool) (k : nat) (n : Z) (p : Q) : Z :=
  match k with
  | O => n
  | S k' => if fits p then n else depth_search fits k' (n + 1) (2 * p)%Q
  end.

(** [20 * sqrt dsq / r <= p] for [r > 0], squared. *)
Definition fits_sq (dsq r : Q) (p : Q) : bool :=
  Qle_bool (400 * dsq) (p * p * (r * r)).

Definition line_depth_sq (dsq r : Q) : result Z :=
  if Qeq_bool r 0 then Err ZeroDivisionError
  else if Qle_bool dsq 0 || negb (Qle_bool 0 r) then Err ValueError
  else Ok (depth_search (fits_sq dsq r) 16 4 16).

(** ** Lemmas on the ceiling of a binary logarithm *)

Lemma Zceil_le_iff (x : R) (z : Z) : (Zceil x <= z)%Z <-> x <= IZR z.
Proof.
  split; intros H.
  - pose proof (Zceil_bound x). apply IZR_le in H. lra.
  - apply Zceil_le in H. unfold Zceil in *. rewrite <- opp_IZR, ZfloorZ in H. lia.
Qed.

Lemma ln_le_iff (x y : R) : 0 < x -> 0 < y -> (ln x <= ln y <-> x <= y).
Proof.
  intros Hx Hy. split; intros H.
  - destruct (Rle_lt_dec x y) as [|Hlt]; [assumption|].
    pose proof (ln_increasing y x Hy Hlt). lra.
  - destruct (Req_dec x y) as [->|Hne]; [lra|].
    left. apply ln_increasing; lra.
Qed.

Lemma ln_powerRZ_2 (z : Z) : ln (powerRZ 2 z) = IZR z * ln 2.
Proof. rewrite powerRZ_Rpower by lra. unfold Rpower. apply ln_exp. Qed.

Lemma ln_2_pos : 0 < ln 2.
Proof. pose proof ln_lt_2. lra. Qed.

(** [ceil(log(x) / log(2)) <= z] exactly when [x <= 2 ^ z]. *)
Lemma ceil_log2_le_iff (x : R) (z : Z) :
  0 < x -> ((Zceil (ln x / ln 2) <= z)%Z <-> x <= powerRZ 2 z).
Proof.
  intros Hx. rewrite Zceil_le_iff.
  pose proof ln_2_pos as H2.
  rewrite <- (ln_le_iff x (powerRZ 2 z)) by (auto; apply powerRZ_lt; lra).
  rewrite ln_powerRZ_2. split; intros H.
  - apply (Rmult_le_compat_r (ln 2)) in H; [|lra].
    unfold Rdiv in H. rewrite Rmult_assoc, Rinv_l, Rmult_1_r in H; lra.
  - apply (Rmult_le_reg_r (ln 2)); [lra|].
    unfold Rdiv. rewrite Rmult_assoc, Rinv_l, Rmult_1_r; lra.
Qed.

(** ** Lemmas on the executable search *)

Lemma Q2R_2 : Q2R 2 = 2.
Proof. unfold Q2R. simpl. lra. Qed.

Lemma Q2R_0 : Q2R 0 = 0.
Proof. unfold Q2R. simpl. lra. Qed.

Lemma powerRZ_2_succ (n : Z) : powerRZ 2 (n + 1) = 2 * powerRZ 2 n.
Proof. rewrite powerRZ_add by lra. simpl. lra. Qed.

(** The search returns the clamp of the least passing exponent [c]. *)
Lemma depth_search_clamp (fits : Q -> bool) (c : Z) :
  (forall m q, Q2R q = powerRZ 2 m -> fits q = (c <=? m)%Z) ->
  forall k n p, Q2R p = powerRZ 2 n ->
  depth_search fits k n p = Z.min (Z.max c n) (n + Z.of_nat k).
Proof.
  intros Hfits k. induction k as [|k IH]; intros n p Hp; simpl; [lia|].
  rewrite (Hfits n p Hp). destruct (Z.leb_spec c n); [lia|].
  rewrite (IH (n + 1)%Z); [lia|].
  rewrite Q2R_mult, Q2R_2, Hp, powerRZ_2_succ. reflexivity.
Qed.

Lemma div_le_sq_iff (s r p : R) :
  0 < s -> 0 < r -> 0 < p ->
  (IZR accuracy * s / r <= p <-> 400 * (s * s) <= p * p * (r * r)).
Proof.
  intros Hs Hr Hp. unfold accuracy.
  assert (E : 20 * s / r <= p <-> 20 * s <= p * r).
  { split; intros H.
    - apply (Rmult_le_compat_r r) in H; [|lra].
      unfold Rdiv in H. rewrite Rmult_assoc, Rinv_l, Rmult_1_r in H; lra.
    - apply (Rmult_le_reg_r r); [lra|].
      unfold Rdiv. rewrite Rmult_assoc, Rinv_l, Rmult_1_r; lra. }
  rewrite E. split; intros H.
  - pose proof (Rmult_le_compat (20 * s) (20 * s) (p * r) (p * r)) as M. nra.
  - destruct (Rle_lt_dec (20 * s) (p * r)) as [|Hlt]; [assumption|].
    pose proof (Rmult_le_0_lt_compat (p * r) (20 * s) (p * r) (20 * s)) as M. nra.
Qed.

Lemma fits_sq_spec (dsq r : Q) :
  (0 < dsq)%Q -> (0 < r)%Q ->
  forall m q, Q2R q = powerRZ 2 m ->
  fits_sq dsq r q =
  (Zceil (ln (IZR accuracy * sqrt (Q2R dsq) / Q2R r) / ln 2) <=? m)%Z.
Proof.
  intros Hd Hr m q Hq. apply Qlt_Rlt in Hd, Hr. rewrite Q2R_0 in Hd, Hr.
  pose proof (sqrt_lt_R0 _ Hd) as Hs.
  pose proof (powerRZ_lt 2 m ltac:(lra)) as Hp.
  apply Bool.eq_iff_eq_true. unfold fits_sq.
  rewrite Qle_bool_iff, Z.leb_le, ceil_log2_le_iff.
  2: { unfold accuracy, Rdiv. apply Rmult_lt_0_compat; [lra|]. now apply Rinv_0_lt_compat. }
  rewrite div_le_sq_iff, sqrt_sqrt by lra. rewrite <- Hq.
  split; intros H.
  - apply Qle_Rle in H. rewrite !Q2R_mult in H.
    replace (Q2R 400) with 400 in H by (unfold Q2R; simpl; lra). exact H.
  - apply Rle_Qle. rewrite !Q2R_mult. replace (Q2R 400) with 400 by (unfold Q2R; simpl; lra).
    exact H.
Qed.

Lemma ratio_pos (s r : R) : 0 < s -> 0 < r -> 0 < IZR accuracy * s / r.
Proof.
  intros Hs Hr. unfold accuracy, Rdiv.
  apply Rmult_lt_0_compat; [lra | now apply Rinv_0_lt_compat].
Qed.

Lemma ratio_nonpos (s r : R) : 0 <= s -> r < 0 -> IZR accuracy * s / r <= 0.
Proof.
  intros Hs Hr. unfold accuracy, Rdiv.
  pose proof (Rinv_lt_0_compat r Hr). nra.
Qed.

Lemma line_depth_pos (d r : R) :
  0 < d -> 0 < r ->
  line_depth d r = Ok (Z.min (Z.max (Zceil (ln (IZR accuracy * d / r) / ln 2)) 4) max_depth).
Proof.
  intros Hd Hr. unfold line_depth, py_div, py_log.
  destruct (Req_EM_T r 0); [lra|]. cbn [bind_result].
  destruct (Rle_lt_dec _ 0) as [Hc|_]; [|reflexivity].
  pose proof (ratio_pos d r Hd Hr). lra.
Qed.

Lemma powerRZ_2_4 : powerRZ 2 4 = 16.
Proof. simpl. lra. Qed.

Lemma powerRZ_2_19 : powerRZ 2 19 = 524288.
Proof. simpl. lra. Qed.

Lemma line_depth_sq_agree (dsq r : Q) :
  (0 <= dsq)%Q -> line_depth (sqrt (Q2R dsq)) (Q2R r) = line_depth_sq dsq r.
Proof.
  intros Hd. unfold line_depth, line_depth_sq, py_div, py_log.
  destruct (Qeq_bool r 0) eqn:Er.
  { apply Qeq_bool_iff, Qeq_eqR in Er. rewrite Q2R_0 in Er.
    destruct (Req_EM_T (Q2R r) 0); [reflexivity | contradiction]. }
  destruct (Req_EM_T (Q2R r) 0) as [E|_].
  { rewrite <- Q2R_0 in E. apply eqR_Qeq, Qeq_bool_iff in E. congruence. }
  cbn [bind_result]. apply Qle_Rle in Hd. rewrite Q2R_0 in Hd.
  destruct (Qle_bool dsq 0 || negb (Qle_bool 0 r)) eqn:Ec.
  - apply Bool.orb_true_iff in Ec as [Ec|Ec].
    + apply Qle_bool_iff, Qle_Rle in Ec. rewrite Q2R_0 in Ec.
      replace (Q2R dsq) with 0 by lra. rewrite sqrt_0.
      destruct (Rle_lt_dec (IZR accuracy * 0 / Q2R r) 0) as [|Hc]; [reflexivity|].
      unfold Rdiv in Hc. rewrite Rmult_0_r, Rmult_0_l in Hc. lra.
    + apply Bool.negb_true_iff in Ec.
      assert (Hr : Q2R r < 0).
      { destruct (Rlt_le_dec (Q2R r) 0) as [|Hge]; [assumption|].
        rewrite <- Q2R_0 in Hge. apply Rle_Qle, Qle_bool_iff in Hge. congruence. }
      destruct (Rle_lt_dec _ 0) as [|Hc]; [reflexivity|].
      pose proof (ratio_nonpos (sqrt (Q2R dsq)) (Q2R r) (sqrt_pos _) Hr). lra.
  - apply Bool.orb_false_iff in Ec as [Ec1 Ec2].
    apply Bool.negb_false_iff, Qle_bool_iff in Ec2.
    assert (Hdq : (0 < dsq)%Q).
    { apply Qnot_le_lt. intros C. apply Qle_bool_iff in C. congruence. }
    assert (Hrq : (0 < r)%Q).
    { apply Qle_lteq in Ec2 as [|E]; [assumption|].
      apply Qeq_sym, Qeq_bool_iff in E. congruence. }
    pose proof (ratio_pos (sqrt (Q2R dsq)) (Q2R r)) as Hpos.
    destruct (Rle_lt_dec _ 0) as [Hc|_].
    { exfalso. apply Qlt_Rlt in Hdq, Hrq. rewrite Q2R_0 in Hdq, Hrq.
      pose proof (Hpos (sqrt_lt_R0 _ Hdq) Hrq). lra. }
    cbn [bind_result]. f_equal.
    rewrite (depth_search_clamp _ _ (fits_sq_spec dsq r Hdq Hrq)) by (simpl; unfold Q2R; simpl; lra).
    unfold max_depth. lia.
Qed.

Lemma pdist_sq_nonneg (a b : point3) : (0 <= pdist_sq a b)%Q.
Proof.
  destruct a as [[ax ay] az], b as [[bx by_] bz]. cbn. apply Rle_Qle.
  rewrite Q2R_0, !Q2R_plus, !Q2R_mult, !Q2R_minus.
  pose proof (Rle_0_sqr (Q2R ax - Q2R bx)). pose proof (Rle_0_sqr (Q2R ay - Q2R by_)).
  pose proof (Rle_0_sqr (Q2R az - Q2R bz)). unfold Rsqr in *. lra.
Qed.

(** The depth of a probe line is computed by [line_depth_sq] on the
    squared distance; stated as an equation between functions so that
    concrete runs of the slice can be evaluated. *)
Lemma line_depth_pts_exec :
  line_depth_pts = fun p1 p2 r => line_depth_sq (pdist_sq p2 p1) r.
Proof.
  apply functional_extensionality. intros p1.
  apply functional_extensionality. intros p2.
  apply functional_extensionality. intros r.
  apply line_depth_sq_agree, pdist_sq_nonneg.
Qed.

(** ** Properties *)



(** Whenever the depth expression evaluates, the depth lies in
    [[min_depth, max_depth]] = [[4, 20]]. *)
Lemma line_depth_bounds (d r : R) (n : Z) :
  line_depth d r = Ok n -> (min_depth <= n <= max_depth)%Z.
Proof.
  unfold line_depth. intros H. split_bind H. split_bind H.
  cbn in H. inv H. unfold min_depth, max_depth. lia.
Qed.

(** C3: the depth of a probe line as the source computes it
    ([math.log(accuracy * pdist(p2, p1) / cutter.radius) / math.log(2)],
    ceiling and clamp, over the reals) is refined by the executable
    computation on the squared distance, and its outcome is classified: a
    zero radius raises [ZeroDivisionError]; otherwise a zero-length line
    or a negative radius raises [ValueError] from [math.log]; a positive
    length and radius give a depth in [[4, 20]]. *)
Theorem line_depth_pts_spec (p1 p2 : point3) (r : Q) :
  line_depth_pts p1 p2 r = line_depth_sq (pdist_sq p2 p1) r /\
  ((r == 0)%Q -> line_depth_pts p1 p2 r = Err ZeroDivisionError) /\
  (~ (r == 0)%Q -> (pdist_sq p2 p1 == 0 \/ r < 0)%Q -> line_depth_pts p1 p2 r = Err ValueError) /\
  ((0 < r)%Q -> (0 < pdist_sq p2 p1)%Q ->
     exists n, line_depth_pts p1 p2 r = Ok n /\ (min_depth <= n <= max_depth)%Z).
Proof.
  assert (E : line_depth_pts p1 p2 r = line_depth_sq (pdist_sq p2 p1) r)
    by (apply line_depth_sq_agree, pdist_sq_nonneg).
  split; [exact E|]. rewrite E. unfold line_depth_sq.
  destruct (Qeq_bool r 0) eqn:Er.
  { apply Qeq_bool_iff in Er. split; [reflexivity|].
    split; [intros C; contradiction | intros Hr; rewrite Er in Hr; discriminate]. }
  split; [intros Hr; apply Qeq_bool_iff in Hr; congruence|].
  split.
  - intros _ [Hd|Hn].
    + replace (Qle_bool (pdist_sq p2 p1) 0) with true
        by (symmetry; apply Qle_bool_iff; rewrite Hd; apply Qle_refl).
      reflexivity.
    + replace (Qle_bool 0 r) with false; [now rewrite orb_true_r|].
      symmetry. apply not_true_iff_false. intros C. apply Qle_bool_iff in C. apply (Qlt_not_le _ _ Hn C).
  - intros Hr Hd.
    replace (Qle_bool (pdist_sq p2 p1) 0) with false
      by (symmetry; apply not_true_iff_false; intros C; apply Qle_bool_iff in C; apply (Qlt_not_le _ _ Hd C)).
    replace (Qle_bool 0 r) with true by (symmetry; apply Qle_bool_iff, Qlt_le_weak, Hr).
    eexists. split; [reflexivity|].
    apply (line_depth_bounds (pdist p2 p1) (Q2R r)).
    change (line_depth_pts p1 p2 r = Ok (depth_search (fits_sq (pdist_sq p2 p1) r) 16 4 16)).
    rewrite E. unfold line_depth_sq. rewrite Er.
    replace (Qle_bool (pdist_sq p2 p1) 0) with false
      by (symmetry; apply not_true_iff_false; intros C; apply Qle_bool_iff in C; apply (Qlt_not_le _ _ Hd C)).
    replace (Qle_bool 0 r) with true by (symmetry; apply Qle_bool_iff, Qlt_le_weak, Hr).
    reflexivity.
Qed.

(** The worked example of the spec: accuracy 20, radius 1 and a
    segment of length 1 give [clamp(ceil(log2 20), 4, 20) = 5]. *)
Example line_depth_unit : line_depth 1 1 = Ok 5%Z.
Proof.
  assert (E : line_depth (sqrt (Q2R 1)) (Q2R 1) = Ok 5%Z).
  { rewrite line_depth_sq_agree by discriminate. vm_compute. reflexivity. }
  replace (Q2R 1) with 1 in E by (unfold Q2R; simpl; lra).
  rewrite sqrt_1 in E. exact E.
Qed.

(** The depth is clamped at both ends: for a positive distance and
    radius, when [accuracy * distance / radius] is at most [2 ^ 4] the
    depth is [min_depth] (4), and when it exceeds [2 ^ 19] the depth is
    [max_depth] (20). *)
Theorem line_depth_clamps (d r : R) :
  0 < d -> 0 < r ->
  (IZR accuracy * d / r <= 16 -> line_depth d r = Ok min_depth) /\
  (524288 < IZR accuracy * d / r -> line_depth d r = Ok max_depth).
Proof.
  intros Hd Hr. rewrite line_depth_pos by assumption. split; intros Hx; f_equal.
  - assert (Zceil (ln (IZR accuracy * d / r) / ln 2) <= 4)%Z.
    { apply ceil_log2_le_iff; [now apply ratio_pos | now rewrite powerRZ_2_4]. }
    unfold min_depth, max_depth. lia.
  - assert (~ (Zceil (ln (IZR accuracy * d / r) / ln 2) <= 19)%Z) as C.
    { rewrite ceil_log2_le_iff by now apply ratio_pos. rewrite powerRZ_2_19. lra. }
    unfold max_depth. lia.
Qed.

(** A zero-length probe line makes [math.log] raise [ValueError]. *)
Lemma line_depth_zero_length (r : R) : r <> 0 -> line_depth 0 r = Err ValueError.
Proof.
  intros Hr. unfold line_depth, py_div, py_log.
  destruct (Req_EM_T r 0); [contradiction|]. cbn [bind_result].
  destruct (Rle_lt_dec _ 0) as [|Hc]; [reflexivity|].
  unfold Rdiv in Hc. rewrite Rmult_0_r, Rmult_0_l in Hc. lra.
Qed.

(** A zero cutter radius raises [ZeroDivisionError]. *)
Lemma line_depth_zero_radius (d : R) : line_depth d 0 = Err ZeroDivisionError.
Proof. unfold line_depth, py_div. destruct (Req_EM_T 0 0); [reflexivity | lra]. Qed.

(** The probe line from a point to itself raises [ValueError] for any
    non-zero radius. *)
Lemma line_depth_pts_same (p : point3) (r : Q) :
  ~ (r == 0)%Q -> line_depth_pts p p r = Err ValueError.
Proof.
  intros Hr. unfold line_depth_pts, pdist.
  replace (Q2R (pdist_sq p p)) with 0.
  - rewrite sqrt_0. apply line_depth_zero_length. intros E.
    apply Hr, eqR_Qeq. now rewrite Q2R_0.
  - destruct p as [[x y] z]. cbn. rewrite !Q2R_plus, !Q2R_mult, !Q2R_minus. ring.
Qed.

(** ** Witnesses *)

Lemma line_depth_pts_spec_witness :
  (0 < 1)%Q /\ (0 < pdist_sq (1, 0, 0)%Q (0, 0, 0)%Q)%Q /\
  exists n, line_depth_pts (0, 0, 0)%Q (1, 0, 0)%Q 1 = Ok n /\ (min_depth <= n <= max_depth)%Z.
Proof.
  assert (H1 : (0 < 1)%Q) by reflexivity.
  assert (H2 : (0 < pdist_sq (1, 0, 0)%Q (0, 0, 0)%Q)%Q) by reflexivity.
  split; [exact H1|]. split; [exact H2|].
  exact (proj2 (proj2 (proj2 (line_depth_pts_spec (0, 0, 0)%Q (1, 0, 0)%Q 1))) H1 H2).
Defined.

Lemma line_depth_clamps_witness :
  (0 < 1 / 2) /\ (0 < 1) /\ line_depth (1 / 2) 1 = Ok min_depth /\
  (0 < 100000) /\ line_depth 100000 1 = Ok max_depth.
Proof.
  assert (H1 : 0 < 1) by lra.
  split; [lra|]. split; [exact H1|]. split.
  - apply (line_depth_clamps (1 / 2) 1); [lra | exact H1 | unfold accuracy; lra].
  - split; [lra|]. apply (line_depth_clamps 100000 1); [lra | exact H1 | unfold accuracy; lra].
Defined.

End Depth.
