(* ===== verification/Runtime.v ===== *)
(** * Runtime: the collaborators PushCutter calls

    These are not under [src/]; they are modelled from the spec (section
    4.1, 4.2 and 6) at the interface the PushCutter code uses:
    - the live-update callback [draw_callback]: every invocation is an
      event of an observable trace, and its answer ("cancel?") may depend
      on everything reported before;
    - [pycam.Utils.ProgressCounter]: a total, a completed count and the
      callback; [increment] advances the count and returns the callback's
      answer, [update] reports without advancing;
    - [pycam.Utils.threading.run_in_parallel]: results are yielded in input
      order; after the consumer has handled a result (and not broken out of
      the loop) the generator resumes and calls [callback]. Workers only
      compute; all state changes happen in the consuming loop, so the
      serial loop below is the behaviour of every pool size;
    - [pycam.PathProcessors.ContourCutter]: an interface (a class of
      operations on an abstract accumulator) with a simple instance. *)

From Stdlib Require Import List Arith Lia.
From S2P Require Import Prelude Moves Depth.
Import ListNotations.

Module Runtime.
Import Moves Depth.

(** ** The live-update callback *)

Inductive cb_call : Type :=
  | CbText (layer num_layers : nat)                (* text="... layer %d/%d" *)
  | CbToolPosition (p : point3)                    (* tool_position=p *)
  | CbToolPath (p : point3) (path : list (move point3))  (* tool_position, toolpath *)
  | CbPercent (current total : nat).               (* ProgressCounter's report *)

(** A callback sees the calls made before this one and answers whether
    the user asked to cancel. *)
Definition callback : Type := list cb_call -> cb_call -> bool.

(** [if draw_callback: answer = draw_callback(...)]; no call, no event,
    and a falsy answer when there is no callback. *)
Definition call_draw (cb : option callback) (c : cb_call) (trace : list cb_call)
  : bool * list cb_call :=
  match cb with
  | None => (false, trace)
  | Some f => (f trace c, trace ++ [c])
  end.

(** A callback that never asks to cancel (or no callback at all). *)
Definition quiet (cb : option callback) : Prop :=
  forall tr c, match cb with None => True | Some f => f tr c = false end.

(** A callback that never cancels on a progress report. *)
Definition progress_quiet (cb : option callback) : Prop :=
  forall tr cur tot, match cb with None => True | Some f => f tr (CbPercent cur tot) = false end.

(** ** ProgressCounter *)

Record progress_counter : Type := {
  pc_max : nat;
  pc_current : nat;
  pc_callback : option callback
}.

Definition pc_new (max_value : nat) (cb : option callback) : progress_counter :=
  {| pc_max := max_value; pc_current := 0; pc_callback := cb |}.

Definition pc_update (pc : progress_counter) (trace : list cb_call) : bool * list cb_call :=
  call_draw (pc_callback pc) (CbPercent (pc_current pc) (pc_max pc)) trace.

Definition pc_increment (pc : progress_counter) (trace : list cb_call)
  : bool * progress_counter * list cb_call :=
  let pc' := {| pc_max := pc_max pc; pc_current := S (pc_current pc);
                pc_callback := pc_callback pc |} in
  let '(quit, trace') := pc_update pc' trace in
  (quit, pc', trace').

(** ** run_in_parallel, consumed by a loop that may break *)

Section Parallel.
Context {A R St : Type}.

(** [for r in run_in_parallel(func, items, callback=cb): stop = body(r);
    if stop: break]; [func] may raise, which ends the loop with the
    exception. *)
Fixpoint run_in_parallel (func : A -> result R) (items : list A)
    (body : R -> St -> bool * St) (cb : St -> St) (s : St) : result St :=
  match items with
  | [] => Ok s
  | a :: rest =>
      r <- func a ;;
      let '(stop, s1) := body r s in
      if stop then Ok s1 else run_in_parallel func rest body cb (cb s1)
  end.

(** The state after the loop handled every result [rs] without breaking. *)
Definition step_all (body : R -> St -> bool * St) (cb : St -> St) (rs : list R) (s : St) : St :=
  fold_left (fun s r => cb (snd (body r s))) rs s.

Lemma call_draw_quiet cb c tr : quiet cb -> fst (call_draw cb c tr) = false.
Proof. intros Hq. destruct cb as [f|]; simpl; [apply (Hq tr c) | reflexivity]. Qed.

Lemma quiet_progress_quiet cb : quiet cb -> progress_quiet cb.
Proof. intros Hq tr cur tot. exact (Hq tr (CbPercent cur tot)). Qed.

Lemma pc_increment_current pc tr :
  pc_current (snd (fst (pc_increment pc tr))) = S (pc_current pc).
Proof. unfold pc_increment. destruct (pc_update _ _). reflexivity. Qed.

Lemma pc_increment_same pc tr :
  pc_max (snd (fst (pc_increment pc tr))) = pc_max pc /\
  pc_callback (snd (fst (pc_increment pc tr))) = pc_callback pc.
Proof. unfold pc_increment. destruct (pc_update _ _). split; reflexivity. Qed.

Lemma pc_increment_quiet pc tr :
  progress_quiet (pc_callback pc) -> fst (fst (pc_increment pc tr)) = false.
Proof.
  intros Hq. unfold pc_increment, pc_update.
  specialize (Hq tr (S (pc_current pc)) (pc_max pc)).
  destruct (pc_callback pc) as [f|]; simpl; [exact Hq | reflexivity].
Qed.

Section Lemmas.
Context (func : A -> result R) (body : R -> St -> bool * St) (cb : St -> St).

(** An invariant kept by the loop body and the callback. *)
Context (Inv : St -> Prop).
Hypothesis body_inv : forall r s, Inv s -> Inv (snd (body r s)).
Hypothesis cb_inv : forall s, Inv s -> Inv (cb s).

Lemma run_in_parallel_inv items s s' :
  Inv s -> run_in_parallel func items body cb s = Ok s' -> Inv s'.
Proof.
  revert s. induction items as [|a rest IH]; intros s Hs H; simpl in H.
  - now inv H.
  - split_bind H. destruct (body a0 s) as [stop s1] eqn:Eb.
    pose proof (body_inv a0 s Hs) as H1. rewrite Eb in H1.
    destruct stop; [now inv H | exact (IH _ (cb_inv _ H1) H)].
Qed.

(** When no result makes the body break, the loop consumes every result
    in input order. *)
Lemma run_in_parallel_complete items rs s :
  (forall r s, Inv s -> fst (body r s) = false) -> Inv s ->
  Forall2 (fun a r => func a = Ok r) items rs ->
  run_in_parallel func items body cb s = Ok (step_all body cb rs s).
Proof.
  intros Hnostop Hs HF. revert s Hs.
  induction HF as [|a r items rs Ha HF IH]; intros s Hs; simpl; [reflexivity|].
  rewrite Ha. simpl. pose proof (Hnostop r s Hs) as Hr.
  pose proof (body_inv r s Hs) as H1.
  destruct (body r s) as [stop s1]; simpl in *. subst stop.
  apply IH, cb_inv, H1.
Qed.

(** A failing item that the loop reaches ends it with its exception. *)
Lemma run_in_parallel_err_at prefix a rest rs e s :
  (forall r s, Inv s -> fst (body r s) = false) -> Inv s ->
  Forall2 (fun a r => func a = Ok r) prefix rs -> func a = Err e ->
  run_in_parallel func (prefix ++ a :: rest) body cb s = Err e.
Proof.
  intros Hnostop Hs HF Ha. revert s Hs.
  induction HF as [|a' r prefix rs Ha' HF IH]; intros s Hs; simpl.
  - now rewrite Ha.
  - rewrite Ha'. simpl. pose proof (Hnostop r s Hs) as Hr.
    pose proof (body_inv r s Hs) as H1.
    destruct (body r s) as [stop s1]; simpl in *. subst stop.
    apply IH, cb_inv, H1.
Qed.

End Lemmas.

(** Every exception of the loop is the exception of one work item. *)
Lemma run_in_parallel_err (func : A -> result R) body cb items s e :
  run_in_parallel func items body cb s = Err e -> exists a, In a items /\ func a = Err e.
Proof.
  revert s. induction items as [|a rest IH]; intros s H; simpl in H; [discriminate|].
  destruct (func a) as [r|e'] eqn:Ea; simpl in H; [|inv H; eauto with pycam].
  destruct (body r s) as [[|] s1]; [discriminate|].
  destruct (IH _ H) as [a' [Hin He]]. eauto with pycam.
Qed.

(** A counter that the body advances by one and the callback leaves
    alone advances by at most the number of items. *)
Lemma run_in_parallel_count (measure : St -> nat) func body cb items s s' :
  (forall r s, measure (snd (body r s)) = S (measure s)) ->
  (forall s, measure (cb s) = measure s) ->
  run_in_parallel func items body cb s = Ok s' ->
  measure s' <= measure s + length items.
Proof.
  intros Hb Hc. revert s. induction items as [|a rest IH]; intros s H; simpl in H.
  - inv H. lia.
  - split_bind H. pose proof (Hb a0 s) as Hm. destruct (body a0 s) as [[|] s1]; simpl in Hm.
    + inv H. simpl. lia.
    + apply IH in H. rewrite Hc in H. simpl. lia.
Qed.

End Parallel.

End Runtime.
