(* ===== verification/Contour.v ===== *)
(** * Contour: the contour path processor PushCutter feeds in waterline mode

    [pycam.PathProcessors.ContourCutter] is not under [src/]; the spec
    (sections 2 and 6) fixes its interface: [new_direction],
    [new_scanline], [append], [end_scanline], [end_direction], [finish]
    and the readable [paths].  The class [ContourCutter] states that
    interface over an abstract accumulator; PushCutter's theorems are
    proved for every instance.  [scanline_cutter] is a simple instance
    (each non-empty scan-line becomes one polyline) used to run concrete
    scenarios. *)

From Stdlib Require Import List.
From S2P Require Import Prelude Depth.
Import ListNotations.

Module Contour.
Import Depth.

Class ContourCutter (PA : Type) : Type := {
  cc_new : PA;
  cc_new_direction : nat -> PA -> PA;
  cc_new_scanline : PA -> PA;
  cc_append : point3 -> PA -> PA;
  cc_end_scanline : PA -> PA;
  cc_end_direction : PA -> PA;
  cc_finish : PA -> PA;
  cc_paths : PA -> list (list point3)
}.

(** [pa.new_scanline(); for point in points: pa.append(point)] followed
    later by [pa.end_scanline()]. *)
Definition feed_points {PA} `{ContourCutter PA} (points : list point3) (pa : PA) : PA :=
  fold_left (fun acc p => cc_append p acc) points (cc_new_scanline pa).

(** ** A scan-line collecting instance *)

Record scanlines : Type := {
  sl_done : list (list point3);
  sl_current : list point3
}.

#[export] Instance scanline_cutter : ContourCutter scanlines := {
  cc_new := {| sl_done := []; sl_current := [] |};
  cc_new_direction _ pa := pa;
  cc_new_scanline pa := {| sl_done := sl_done pa; sl_current := [] |};
  cc_append p pa := {| sl_done := sl_done pa; sl_current := sl_current pa ++ [p] |};
  cc_end_scanline pa :=
    match sl_current pa with
    | [] => pa
    | cur => {| sl_done := sl_done pa ++ [cur]; sl_current := [] |}
    end;
  cc_end_direction pa := pa;
  cc_finish pa := pa;
  cc_paths := sl_done
}.

End Contour.
