(* ===== verification/PushCutter.v ===== *)
(** * PushCutter: layered sweep of the motion grid

    Models [src/pycam/PathGenerators/PushCutter.py]: [_process_one_line]
    (lines 40-45), [PushCutter.__init__] (50-56), [GenerateToolPath]
    (58-126) with its waterline post-processing (99-124) and
    [GenerateToolPathSlice] (128-178).  The collision back-ends, the
    cutter's radius and the contour processor are section parameters; the
    callback, progress counter and [run_in_parallel] come from [Runtime].
    Exceptions are [Err] values; the callback trace, the progress counter
    and the contour accumulator are threaded as explicit state. *)

From Stdlib Require Import String List Arith Lia QArith ZArith.
From S2P Require Import Prelude Moves Depth Runtime Contour.
Import ListNotations.

Module PushCutter.
Import Moves Depth Runtime Contour.
Local Open Scope nat_scope.

(** [PushCutter(waterlines=False, physics=None)] *)
Record push_cutter (Physics : Type) : Type := {
  waterlines : bool;
  physics : option Physics
}.
Arguments waterlines {Physics} _.
Arguments physics {Physics} _.

(** ** Fixtures for concrete runs

    A model is a number, a cutter is given by its radius, the physics
    handle is [unit]; the back-ends below answer without geometry. *)

Definition pt (x y : Q) : point3 := (x, y, 0%Q).

Definition radius_of (c : Q) : Q := c.

(** Every probe line is free over its whole length. *)
Definition free_whole_line (models : list nat) (cutter : Q) (p1 p2 : point3)
  : result (list point3) := Ok [p1; p2].

Definition ode_whole_line (ph : unit) (p1 p2 : point3) (depth : Z) : result (list point3) :=
  Ok [p1; p2].

(** The probe line starting at [x = 2] makes the back-end raise. *)
Definition fail_at_two (models : list nat) (cutter : Q) (p1 p2 : point3)
  : result (list point3) :=
  if Qeq_bool (fst (fst p1)) 2 then Err (BackendError "degenerate triangle"%string)
  else Ok [p1; p2].

(** The contour of the spec's waterline scenario, [A, B, C, A]. *)
Definition contour_abca (models : list nat) (cutter : Q) (p1 p2 : point3)
  : result (list point3) := Ok [pt 0 0; pt 1 0; pt 1 1; pt 0 0].

(** The spec's 3 layers of 2 probe lines. *)
Definition grid_3x2 : list (list (list point3)) :=
  [[[pt 0 0; pt 1 0]; [pt 2 0; pt 3 0]];
   [[pt 4 0; pt 5 0]; [pt 6 0; pt 7 0]];
   [[pt 8 0; pt 9 0]; [pt 10 0; pt 11 0]]].

Definition flat_cutter : push_cutter unit := {| waterlines := false; physics := None |}.
Definition waterline_cutter : push_cutter unit := {| waterlines := true; physics := None |}.

(** A callback that answers "cancel" to the first progress report only. *)
Definition cancel_on_first_progress : callback :=
  fun _ c => match c with CbPercent 1 _ => true | _ => false end.

Section WithBackends.
Context {Model Cutter Physics PA : Type} `{CC : ContourCutter PA}.
(** [cutter.radius] *)
Context (cutter_radius : Cutter -> Q).
(** The two collision back-ends: free-interval endpoints, or an exception. *)
Context (get_free_paths_triangles :
           list Model -> Cutter -> point3 -> point3 -> result (list point3)).
Context (get_free_paths_ode : Physics -> point3 -> point3 -> Z -> result (list point3)).

(** The argument tuple [(p1, p2, depth, models, cutter, physics)]. *)
Record line_args : Type := {
  la_p1 : point3;
  la_p2 : point3;
  la_depth : Z;
  la_models : list Model;
  la_cutter : Cutter;
  la_physics : option Physics
}.

(** [_process_one_line] (lines 40-45). *)
Definition process_one_line (a : line_args) : result (list point3) :=
  match la_physics a with
  | Some ph => get_free_paths_ode ph (la_p1 a) (la_p2 a) (la_depth a)
  | None => get_free_paths_triangles (la_models a) (la_cutter a) (la_p1 a) (la_p2 a)
  end.

(** [p1, p2 = line]: unpacking raises unless the line has two points. *)
Definition unpack2 (line : list point3) : result (point3 * point3) :=
  match line with
  | [p1; p2] => Ok (p1, p2)
  | _ => Err ValueError
  end.

(** [models = models[:1]] in waterline mode (lines 138-141). *)
Definition slice_models (pc : push_cutter Physics) (models : list Model) : list Model :=
  if waterlines pc then firstn 1 models else models.

(** The loop of lines 143-151 building the argument list. *)
Fixpoint build_args (pc : push_cutter Physics) (cutter : Cutter) (models : list Model)
    (layer_grid : list (list point3)) : result (list line_args) :=
  match layer_grid with
  | [] => Ok []
  | line :: rest =>
      '(p1, p2) <- unpack2 line ;;
      depth <- line_depth_pts p1 p2 (cutter_radius cutter) ;;
      args <- build_args pc cutter models rest ;;
      Ok ({| la_p1 := p1; la_p2 := p2; la_depth := depth; la_models := models;
             la_cutter := cutter; la_physics := physics pc |} :: args)
  end.

(** The state a slice changes: its local [path], the shared progress
    counter, the callback trace and [self.pa]. *)
Record slice_state : Type := {
  ss_path : list (move point3);
  ss_pc : progress_counter;
  ss_trace : list cb_call;
  ss_pa : PA
}.

Definition with_trace (s : slice_state) (tr : list cb_call) : slice_state :=
  {| ss_path := ss_path s; ss_pc := ss_pc s; ss_trace := tr; ss_pa := ss_pa s |}.

(** Lines 155-171: fold one non-empty result into the contour
    accumulator or the move list, then report the last point. *)
Definition fold_points (wl : bool) (draw : option callback) (points : list point3)
    (s : slice_state) : slice_state :=
  match points with
  | [] => s
  | p0 :: _ =>
      let last_point := last points p0 in
      if wl then
        let pa1 := feed_points points (ss_pa s) in
        let tr := snd (call_draw draw (CbToolPosition last_point) (ss_trace s)) in
        {| ss_path := ss_path s; ss_pc := ss_pc s; ss_trace := tr;
           ss_pa := cc_end_scanline pa1 |}
      else
        let path := ss_path s ++ moves_of_free_points points in
        let tr := snd (call_draw draw (CbToolPath last_point path) (ss_trace s)) in
        {| ss_path := path; ss_pc := ss_pc s; ss_trace := tr; ss_pa := ss_pa s |}
  end.

(** Lines 155-175: the loop body; [true] means [break]. *)
Definition slice_body (wl : bool) (draw : option callback) (points : list point3)
    (s : slice_state) : bool * slice_state :=
  let s1 := fold_points wl draw points s in
  let '(quit, pc', tr) := pc_increment (ss_pc s1) (ss_trace s1) in
  (quit, {| ss_path := ss_path s1; ss_pc := pc'; ss_trace := tr; ss_pa := ss_pa s1 |}).

(** [callback=progress_counter.update], called when the generator resumes. *)
Definition slice_update (s : slice_state) : slice_state :=
  with_trace s (snd (pc_update (ss_pc s) (ss_trace s))).

(** [GenerateToolPathSlice] (lines 128-178).  It returns [Some path] in
    flat mode and [None] (Python's implicit [None]) in waterline mode. *)
Definition GenerateToolPathSlice (pc : push_cutter Physics) (cutter : Cutter)
    (models : list Model) (layer_grid : list (list point3)) (draw : option callback)
    (progress : option progress_counter) (trace : list cb_call) (pa : PA)
    : result (option (list (move point3)) * slice_state) :=
  args <- build_args pc cutter (slice_models pc models) layer_grid ;;
  match progress with
  | None => Err AttributeError          (* [None.update] on line 154 *)
  | Some counter =>
      s <- run_in_parallel process_one_line args (slice_body (waterlines pc) draw)
             slice_update
             {| ss_path := []; ss_pc := counter; ss_trace := trace; ss_pa := pa |} ;;
      Ok (if waterlines pc then None else Some (ss_path s), s)
  end.

(** Lines 112-118: re-check one waterline path's segments against the
    obstacle models and expand the free intervals. *)
Fixpoint check_pairs (other_models : list Model) (cutter : Cutter)
    (pairs : list (point3 * point3)) : result (list (move point3)) :=
  match pairs with
  | [] => Ok []
  | (p1, p2) :: rest =>
      free_points <- get_free_paths_triangles other_models cutter p1 p2 ;;
      tl <- check_pairs other_models cutter rest ;;
      Ok (moves_of_free_points free_points ++ tl)
  end.

(** Lines 102-124: turn the waterline paths into cutting segments. *)
Fixpoint waterline_moves (cutter : Cutter) (models : list Model)
    (paths : list (list point3)) : result (list (move point3)) :=
  match paths with
  | [] => Ok []
  | points :: rest =>
      let pairs := waterline_pairs points in
      here <- (if 1 <? length models
               then check_pairs (skipn 1 models) cutter pairs
               else Ok (flat_map pair_moves pairs)) ;;
      tl <- waterline_moves cutter models rest ;;
      Ok (here ++ tl)
  end.

(** Lines 80-97: the loop over the layers, with its cancellation check
    before each layer. *)
Fixpoint layers_loop (pc : push_cutter Physics) (cutter : Cutter) (models : list Model)
    (draw : option callback) (num_of_layers : nat) (grid : list (list (list point3)))
    (current_layer : nat) (path : list (move point3)) (s : slice_state)
    : result (list (move point3) * slice_state) :=
  match grid with
  | [] => Ok (path, s)
  | layer_grid :: rest =>
      let '(cancel, tr) :=
        call_draw draw (CbText (S current_layer) num_of_layers) (ss_trace s) in
      if cancel then Ok (path, with_trace s tr)
      else
        let pa0 := if waterlines pc then cc_new_direction 0 (ss_pa s) else ss_pa s in
        '(res, s1) <- GenerateToolPathSlice pc cutter models layer_grid draw
                        (Some (ss_pc s)) tr pa0 ;;
        let pa1 := if waterlines pc then cc_finish (cc_end_direction (ss_pa s1))
                   else ss_pa s1 in
        let path1 := if waterlines pc then path
                     else match res with Some r => path ++ r | None => path end in
        layers_loop pc cutter models draw num_of_layers rest (S current_layer) path1
          {| ss_path := ss_path s1; ss_pc := ss_pc s1; ss_trace := ss_trace s1;
             ss_pa := pa1 |}
  end.

(** Total number of grid positions (lines 61-69). *)
Definition num_of_grid_positions (grid : list (list (list point3))) : nat :=
  fold_left (fun n layer => (n + length layer)%nat) grid 0%nat.

(** [GenerateToolPath] (lines 58-126).  The motion grid is given already
    materialised as lists (lines 61-69); [trace] is what the callback
    has seen before the call.  The result is the returned move list
    together with the final state of the run. *)
Definition GenerateToolPath (pc : push_cutter Physics) (cutter : Cutter)
    (models : list Model) (grid : list (list (list point3))) (draw : option callback)
    (trace : list cb_call) : result (list (move point3) * slice_state) :=
  let counter := pc_new (num_of_grid_positions grid) draw in
  '(path, s) <- layers_loop pc cutter models draw (length grid) grid 0 []
                  {| ss_path := []; ss_pc := counter; ss_trace := trace; ss_pa := cc_new |} ;;
  if waterlines pc then
    result <- waterline_moves cutter models (cc_paths (ss_pa s)) ;;
    Ok (result, s)
  else Ok (path, s).

(** ** Auxiliary definitions for the statements *)

(** What a slice keeps fixed in the progress counter. *)
Definition slice_inv (cb : option callback) (mx : nat) (s : slice_state) : Prop :=
  pc_callback (ss_pc s) = cb /\ pc_max (ss_pc s) = mx.

(** The contour accumulator after one result of a waterline slice
    (lines 156-159 and 168). *)
Definition contour_scan (pa : PA) (points : list point3) : PA :=
  match points with
  | [] => pa
  | _ :: _ => cc_end_scanline (feed_points points pa)
  end.

Definition contour_fold (rs : list (list point3)) (pa : PA) : PA :=
  fold_left contour_scan rs pa.

(** One waterline layer: [new_direction(0)], the slice, [end_direction()]
    and [finish()] (lines 87-93). *)
Definition contour_layer (pa : PA) (rs : list (list point3)) : PA :=
  cc_finish (cc_end_direction (contour_fold rs (cc_new_direction 0 pa))).

(** Every line of the layer succeeded with these free-interval results. *)
Definition layer_ok (pc : push_cutter Physics) (cutter : Cutter) (models : list Model)
    (layer : list (list point3)) (rs : list (list point3)) : Prop :=
  exists args, build_args pc cutter (slice_models pc models) layer = Ok args /\
               Forall2 (fun a r => process_one_line a = Ok r) args rs.

Definition layer_moves (rs : list (list point3)) : list (move point3) :=
  concat (map moves_of_intervals rs).

(** The callback of the spec's cancellation scenario: it answers "cancel"
    when asked before layer [k + 1] and never otherwise. *)
Definition cancel_before_layer (k : nat) : callback :=
  fun _ c => match c with CbText n _ => Nat.eqb n (S k) | _ => false end.

(** Moves that carry a point exactly when they are straight. *)
Definition path_wf (s : slice_state) : Prop := forallb move_wf (ss_path s) = true.

(** ** Lemmas on one slice *)

Lemma fold_points_pc wl draw points s : ss_pc (fold_points wl draw points s) = ss_pc s.
Proof. destruct points; simpl; [|destruct wl]; reflexivity. Qed.

Lemma fold_points_flat draw points s :
  ss_path (fold_points false draw points s) = ss_path s ++ moves_of_intervals points.
Proof.
  destruct points as [|p0 points]; simpl.
  - now rewrite app_nil_r.
  - now rewrite moves_of_free_points_eq.
Qed.

(** The loop body advances the counter by one and keeps the rest of it. *)
Lemma slice_body_pc wl draw points s :
  pc_current (ss_pc (snd (slice_body wl draw points s))) = S (pc_current (ss_pc s)) /\
  pc_max (ss_pc (snd (slice_body wl draw points s))) = pc_max (ss_pc s) /\
  pc_callback (ss_pc (snd (slice_body wl draw points s))) = pc_callback (ss_pc s).
Proof.
  unfold slice_body. rewrite <- (fold_points_pc wl draw points s).
  pose proof (pc_increment_current (ss_pc (fold_points wl draw points s))
                (ss_trace (fold_points wl draw points s))) as H1.
  pose proof (pc_increment_same (ss_pc (fold_points wl draw points s))
                (ss_trace (fold_points wl draw points s))) as H2.
  destruct (pc_increment _ _) as [[quit pc'] tr]. simpl in *. tauto.
Qed.

Lemma slice_body_inv cb mx wl draw points s :
  slice_inv cb mx s -> slice_inv cb mx (snd (slice_body wl draw points s)).
Proof.
  unfold slice_inv. pose proof (slice_body_pc wl draw points s). intuition congruence.
Qed.

Lemma slice_body_quiet cb mx wl draw points s :
  progress_quiet cb -> slice_inv cb mx s -> fst (slice_body wl draw points s) = false.
Proof.
  intros Hq [Hcb _]. unfold slice_body.
  assert (Hq' : progress_quiet (pc_callback (ss_pc (fold_points wl draw points s))))
    by now rewrite fold_points_pc, Hcb.
  pose proof (pc_increment_quiet _ (ss_trace (fold_points wl draw points s)) Hq') as H.
  destruct (pc_increment _ _) as [[quit pc'] tr]. exact H.
Qed.

Lemma slice_body_path_flat draw points s :
  ss_path (snd (slice_body false draw points s)) = ss_path s ++ moves_of_intervals points.
Proof.
  unfold slice_body. rewrite <- (fold_points_flat draw points s).
  destruct (pc_increment _ _) as [[quit pc'] tr]. reflexivity.
Qed.

Lemma slice_body_pa wl draw points s :
  ss_pa (snd (slice_body wl draw points s)) =
  if wl then contour_scan (ss_pa s) points else ss_pa s.
Proof.
  unfold slice_body. destruct (pc_increment _ _) as [[quit pc'] tr]. simpl.
  destruct points; [destruct wl|destruct wl]; reflexivity.
Qed.

(** A completed slice advances the counter once per result, appends the
    expansion of every result in flat mode and feeds every non-empty
    result to the accumulator in waterline mode, in input order. *)
Lemma step_all_count wl draw rs s :
  pc_current (ss_pc (step_all (slice_body wl draw) slice_update rs s)) =
    pc_current (ss_pc s) + length rs.
Proof.
  revert s. induction rs as [|r rs IH]; intros s; simpl; [lia|].
  rewrite IH. unfold slice_update. simpl.
  destruct (slice_body_pc wl draw r s) as [Hc _]. rewrite Hc. lia.
Qed.

Lemma step_all_flat draw rs s :
  ss_path (step_all (slice_body false draw) slice_update rs s) =
    ss_path s ++ concat (map moves_of_intervals rs).
Proof.
  revert s. induction rs as [|r rs IH]; intros s; simpl; [now rewrite app_nil_r|].
  rewrite IH. unfold slice_update, with_trace. simpl.
  now rewrite slice_body_path_flat, <- app_assoc.
Qed.

Lemma step_all_pa wl draw rs s :
  ss_pa (step_all (slice_body wl draw) slice_update rs s) =
    if wl then contour_fold rs (ss_pa s) else ss_pa s.
Proof.
  revert s. induction rs as [|r rs IH]; intros s; simpl; [now destruct wl|].
  rewrite IH. unfold slice_update, with_trace. simpl. rewrite slice_body_pa.
  destruct wl; reflexivity.
Qed.

Lemma build_args_length pc cutter models layer args :
  build_args pc cutter models layer = Ok args -> length args = length layer.
Proof.
  revert args. induction layer as [|line rest IH]; intros args H; simpl in H.
  - now inv H.
  - split_bind H. destruct a as [p1 p2]. split_bind H. split_bind H. inv H.
    simpl. f_equal. now apply IH.
Qed.

Lemma slice_update_pc s : ss_pc (slice_update s) = ss_pc s.
Proof. reflexivity. Qed.

Lemma slice_update_inv cb mx s : slice_inv cb mx s -> slice_inv cb mx (slice_update s).
Proof. exact (fun H => H). Qed.

Lemma layer_ok_length pc cutter models layer rs :
  layer_ok pc cutter models layer rs -> length rs = length layer.
Proof.
  intros [args [Ha HF]]. rewrite <- (build_args_length _ _ _ _ _ Ha).
  symmetry. exact (Forall2_length HF).
Qed.

(** A slice whose lines all succeed, with a callback that never cancels,
    consumes every result; in any mode it returns the final state of
    [step_all]. *)
Lemma slice_complete pc cutter models layer draw counter trace pa rs :
  progress_quiet (pc_callback counter) -> layer_ok pc cutter models layer rs ->
  let s := step_all (slice_body (waterlines pc) draw) slice_update rs
             {| ss_path := []; ss_pc := counter; ss_trace := trace; ss_pa := pa |} in
  GenerateToolPathSlice pc cutter models layer draw (Some counter) trace pa =
    Ok (if waterlines pc then None else Some (ss_path s), s) /\
  slice_inv (pc_callback counter) (pc_max counter) s.
Proof.
  intros Hq [args [Hargs HF]] s. unfold GenerateToolPathSlice. rewrite Hargs.
  cbn [bind_result].
  assert (Hinv0 : slice_inv (pc_callback counter) (pc_max counter)
            {| ss_path := []; ss_pc := counter; ss_trace := trace; ss_pa := pa |})
    by (split; reflexivity).
  assert (Hrun := run_in_parallel_complete process_one_line (slice_body (waterlines pc) draw)
            slice_update (slice_inv (pc_callback counter) (pc_max counter))
            (slice_body_inv _ _ _ _) (slice_update_inv _ _) args rs _
            (fun r s H => slice_body_quiet _ _ _ _ _ _ Hq H) Hinv0 HF).
  rewrite Hrun. split; [reflexivity|].
  exact (run_in_parallel_inv process_one_line _ _ _ (slice_body_inv _ _ _ _)
           (slice_update_inv _ _) _ _ _ Hinv0 Hrun).
Qed.

Lemma list_sum_fold_left (grid : list (list (list point3))) k :
  fold_left (fun n layer => n + length layer) grid k = k + list_sum (map (@length _) grid).
Proof.
  revert k. induction grid as [|l grid IH]; intros k; simpl; [lia|].
  rewrite IH. lia.
Qed.

(** One layer of the loop whose cancellation check answered no and
    whose lines all succeed. *)
Lemma layers_loop_step pc cutter models draw n mx layer rest rs cur path s :
  progress_quiet draw -> slice_inv draw mx s ->
  fst (call_draw draw (CbText (S cur) n) (ss_trace s)) = false ->
  layer_ok pc cutter models layer rs ->
  exists s1,
    layers_loop pc cutter models draw n (layer :: rest) cur path s =
      layers_loop pc cutter models draw n rest (S cur)
        (if waterlines pc then path else path ++ layer_moves rs) s1 /\
    pc_current (ss_pc s1) = pc_current (ss_pc s) + length layer /\
    slice_inv draw mx s1 /\
    ss_pa s1 = (if waterlines pc then contour_layer (ss_pa s) rs else ss_pa s).
Proof.
  intros Hq [Hcb Hmx] Hc Hl. simpl.
  destruct (call_draw _ _ _) as [cancel tr]. simpl in Hc. subst cancel.
  assert (Hq' : progress_quiet (pc_callback (ss_pc s))) by now rewrite Hcb.
  destruct (slice_complete pc cutter models layer draw (ss_pc s) tr
              (if waterlines pc then cc_new_direction 0 (ss_pa s) else ss_pa s) rs Hq' Hl)
    as [Hsl [Hi1 Hi2]].
  rewrite Hsl. cbn [bind_result].
  pose proof (step_all_count (waterlines pc) draw rs
                {| ss_path := []; ss_pc := ss_pc s; ss_trace := tr;
                   ss_pa := if waterlines pc then cc_new_direction 0 (ss_pa s) else ss_pa s |})
    as Hcnt.
  pose proof (step_all_pa (waterlines pc) draw rs
                {| ss_path := []; ss_pc := ss_pc s; ss_trace := tr;
                   ss_pa := if waterlines pc then cc_new_direction 0 (ss_pa s) else ss_pa s |})
    as Hpa.
  destruct (waterlines pc) eqn:Hwl.
  - eexists. split; [reflexivity|]. cbn. rewrite Hpa.
    split; [|split; [unfold slice_inv; cbn; split; congruence | reflexivity]].
    rewrite Hcnt, (layer_ok_length _ _ _ _ _ Hl). simpl. lia.
  - pose proof (step_all_flat draw rs {| ss_path := []; ss_pc := ss_pc s; ss_trace := tr;
                                        ss_pa := ss_pa s |}) as Hp.
    cbn [ss_path app] in Hp. rewrite Hp.
    eexists. split; [reflexivity|]. cbn. rewrite Hpa.
    split; [|split; [unfold slice_inv; cbn; split; congruence | reflexivity]].
    rewrite Hcnt, (layer_ok_length _ _ _ _ _ Hl). simpl. lia.
Qed.

Lemma layers_loop_flat pc cutter models draw n mx grid rss :
  waterlines pc = false -> quiet draw ->
  Forall2 (layer_ok pc cutter models) grid rss ->
  forall cur path s, slice_inv draw mx s ->
  exists s', layers_loop pc cutter models draw n grid cur path s =
               Ok (path ++ concat (map layer_moves rss), s') /\
             pc_current (ss_pc s') = pc_current (ss_pc s) + list_sum (map (@length _) grid) /\
             slice_inv draw mx s'.
Proof.
  intros Hwl Hq HF. induction HF as [|layer rs grid rss Hl HF IH]; intros cur path s Hs.
  - exists s. simpl. rewrite app_nil_r. repeat split; try lia; apply Hs.
  - destruct (layers_loop_step pc cutter models draw n mx layer grid rs cur path s
                (quiet_progress_quiet _ Hq) Hs (call_draw_quiet _ _ _ Hq) Hl)
      as [s1 [-> [Hc1 [Hs1 _]]]]. rewrite Hwl.
    destruct (IH (S cur) (path ++ layer_moves rs) s1 Hs1) as [s' [-> [Hc' Hs']]].
    exists s'. split; [simpl; now rewrite <- app_assoc | split; [simpl; lia | exact Hs']].
Qed.

Lemma layers_loop_cancel pc cutter models n mx k grid :
  waterlines pc = false ->
  forall cur rss path s, cur <= k -> k - cur < length grid ->
  Forall2 (layer_ok pc cutter models) (firstn (k - cur) grid) rss ->
  slice_inv (Some (cancel_before_layer k)) mx s ->
  exists s', layers_loop pc cutter models (Some (cancel_before_layer k)) n grid cur path s =
               Ok (path ++ concat (map layer_moves rss), s').
Proof.
  intros Hwl. induction grid as [|layer rest IH]; intros cur rss path s Hle Hlt HF Hs;
    simpl in Hlt; [lia|].
  destruct (Nat.eq_dec cur k) as [->|Hne].
  - rewrite Nat.sub_diag in HF. inv HF. simpl. rewrite Nat.eqb_refl, app_nil_r. eauto.
  - replace (k - cur) with (S (k - S cur)) in HF by lia. simpl in HF.
    inversion HF as [|? rs ? rss' Hl HF']; subst.
    assert (Hc : fst (call_draw (Some (cancel_before_layer k)) (CbText (S cur) n)
                        (ss_trace s)) = false) by (simpl; apply Nat.eqb_neq; lia).
    destruct (layers_loop_step pc cutter models (Some (cancel_before_layer k)) n mx
                layer rest rs cur path s (fun _ _ _ => eq_refl) Hs Hc Hl)
      as [s1 [-> [_ [Hs1 _]]]]. rewrite Hwl.
    destruct (IH (S cur) rss' (path ++ layer_moves rs) s1 ltac:(lia) ltac:(lia) HF' Hs1)
      as [s' ->].
    exists s'. now rewrite <- app_assoc.
Qed.

Lemma layers_loop_waterline pc cutter models draw n mx grid rss :
  waterlines pc = true -> quiet draw ->
  Forall2 (layer_ok pc cutter models) grid rss ->
  forall cur path s, slice_inv draw mx s ->
  exists s', layers_loop pc cutter models draw n grid cur path s = Ok (path, s') /\
             ss_pa s' = fold_left contour_layer rss (ss_pa s).
Proof.
  intros Hwl Hq HF. induction HF as [|layer rs grid rss Hl HF IH]; intros cur path s Hs.
  - exists s. split; reflexivity.
  - destruct (layers_loop_step pc cutter models draw n mx layer grid rs cur path s
                (quiet_progress_quiet _ Hq) Hs (call_draw_quiet _ _ _ Hq) Hl)
      as [s1 [-> [_ [Hs1 Hpa]]]]. rewrite Hwl in *.
    destruct (IH (S cur) path s1 Hs1) as [s' [-> Hpa']].
    exists s'. split; [reflexivity|]. rewrite Hpa', Hpa. reflexivity.
Qed.

Lemma check_pairs_spec other cutter (free : point3 -> point3 -> list point3) pairs :
  (forall p1 p2, get_free_paths_triangles other cutter p1 p2 = Ok (free p1 p2)) ->
  check_pairs other cutter pairs =
    Ok (flat_map (fun pq => moves_of_intervals (free (fst pq) (snd pq))) pairs).
Proof.
  intros Hfree. induction pairs as [|[p1 p2] pairs IH]; [reflexivity|].
  simpl. rewrite Hfree, IH. simpl. now rewrite moves_of_free_points_eq.
Qed.

Lemma waterline_moves_single cutter models paths :
  length models <= 1 ->
  waterline_moves cutter models paths =
    Ok (flat_map (fun pts => flat_map pair_moves (consecutive_pairs pts)) paths).
Proof.
  intros Hm. induction paths as [|pts paths IH]; [reflexivity|]. simpl.
  replace (1 <? length models) with false by (symmetry; apply Nat.ltb_ge; lia).
  rewrite IH. simpl. now rewrite waterline_pairs_spec.
Qed.

Lemma moves_of_free_points_wf (points : list point3) : forallb move_wf (moves_of_free_points points) = true.
Proof. rewrite moves_of_free_points_eq. apply moves_of_intervals_wf. Qed.

Lemma slice_body_wf wl draw points s : path_wf s -> path_wf (snd (slice_body wl draw points s)).
Proof.
  unfold path_wf, slice_body. intros H.
  destruct (pc_increment _ _) as [[quit pc'] tr]. simpl.
  destruct points as [|p0 points]; simpl; [exact H|]. destruct wl; simpl; [exact H|].
  rewrite forallb_app, H. apply moves_of_free_points_wf.
Qed.

Lemma slice_wf pc cutter models layer draw counter trace pa res s :
  GenerateToolPathSlice pc cutter models layer draw (Some counter) trace pa = Ok (res, s) ->
  forall r, res = Some r -> forallb move_wf r = true.
Proof.
  unfold GenerateToolPathSlice. intros H. split_bind H. split_bind H. inv H.
  assert (Hw := run_in_parallel_inv process_one_line (slice_body (waterlines pc) draw)
                  slice_update path_wf (slice_body_wf _ _) (fun s H => H) _ _ _ (eq_refl : path_wf {| ss_path := []; ss_pc := counter;
                     ss_trace := trace; ss_pa := pa |}) Ha0).
  intros r Hr. destruct (waterlines pc); inv Hr. exact Hw.
Qed.

Lemma layers_loop_wf pc cutter models draw n grid :
  forall cur path s path' s',
  forallb move_wf path = true ->
  layers_loop pc cutter models draw n grid cur path s = Ok (path', s') ->
  forallb move_wf path' = true.
Proof.
  induction grid as [|layer rest IH]; intros cur path s path' s' Hp H; simpl in H.
  - now inv H.
  - destruct (call_draw _ _ _) as [[|] tr]; [now inv H|].
    split_bind H. destruct a as [res s1]. eapply IH; [|exact H].
    destruct (waterlines pc); [exact Hp|].
    destruct res as [r|]; [|exact Hp].
    rewrite forallb_app, Hp. eapply slice_wf; [exact Ha | reflexivity].
Qed.

Lemma check_pairs_wf other cutter pairs moves :
  check_pairs other cutter pairs = Ok moves -> forallb move_wf moves = true.
Proof.
  revert moves. induction pairs as [|[p1 p2] pairs IH]; intros moves H; simpl in H.
  - now inv H.
  - split_bind H. split_bind H. inv H.
    rewrite forallb_app, moves_of_free_points_wf. now apply IH.
Qed.

Lemma waterline_moves_wf cutter models paths moves :
  waterline_moves cutter models paths = Ok moves -> forallb move_wf moves = true.
Proof.
  revert moves. induction paths as [|pts paths IH]; intros moves H; simpl in H.
  - now inv H.
  - split_bind H. split_bind H. inv H. rewrite forallb_app, (IH _ Ha0), andb_true_r.
    destruct (1 <? length models); [now apply (check_pairs_wf _ _ _ _ Ha)|].
    inv Ha. apply pair_moves_wf.
Qed.

(** The counter never moves past the number of lines a slice was given. *)
Lemma slice_count pc cutter models layer draw counter trace pa res s :
  GenerateToolPathSlice pc cutter models layer draw (Some counter) trace pa = Ok (res, s) ->
  pc_current (ss_pc s) <= pc_current counter + length layer /\
  slice_inv (pc_callback counter) (pc_max counter) s.
Proof.
  unfold GenerateToolPathSlice. intros H. split_bind H. split_bind H. inv H.
  rewrite <- (build_args_length _ _ _ _ _ Ha). split.
  - refine (run_in_parallel_count (fun s => pc_current (ss_pc s)) process_one_line _ _ _ _ _
              _ _ Ha0).
    + intros r s0. apply slice_body_pc.
    + intros s0. reflexivity.
  - exact (run_in_parallel_inv process_one_line _ _ _ (slice_body_inv _ _ _ _)
             (slice_update_inv _ _) _ _ _ (conj eq_refl eq_refl) Ha0).
Qed.

Lemma layers_loop_count pc cutter models draw n mx grid :
  forall cur path s path' s', slice_inv draw mx s ->
  layers_loop pc cutter models draw n grid cur path s = Ok (path', s') ->
  pc_current (ss_pc s') <= pc_current (ss_pc s) + list_sum (map (@length _) grid) /\
  slice_inv draw mx s'.
Proof.
  induction grid as [|layer rest IH]; intros cur path s path' s' Hs H; simpl in H.
  - inv H. simpl. split; [lia | exact Hs].
  - destruct (call_draw _ _ _) as [[|] tr]; [inv H; simpl; split; [lia | exact Hs]|].
    split_bind H. destruct a as [res s1].
    destruct (slice_count _ _ _ _ _ _ _ _ _ _ Ha) as [Hc [Hcb Hmx]].
    destruct Hs as [Hcb0 Hmx0].
    edestruct IH as [Hc' Hs']; [| exact H |].
    + split; simpl; congruence.
    + simpl in *. split; [lia | exact Hs'].
Qed.

Lemma num_of_grid_positions_sum grid :
  num_of_grid_positions grid = list_sum (map (@length _) grid).
Proof. unfold num_of_grid_positions. rewrite list_sum_fold_left. reflexivity. Qed.

(** ** Properties of the driver *)

(** C1: flat mode, every probe line answered and a callback that never
    cancels: [GenerateToolPath] returns, layer after layer and line after
    line in input order, every free interval as STRAIGHT, STRAIGHT,
    SAFETY; the progress counter ends at its total, the number of grid
    positions. *)
Theorem GenerateToolPath_flat pc cutter models grid draw trace rss :
  waterlines pc = false -> quiet draw ->
  Forall2 (layer_ok pc cutter models) grid rss ->
  exists s, GenerateToolPath pc cutter models grid draw trace =
              Ok (concat (map layer_moves rss), s) /\
            pc_current (ss_pc s) = num_of_grid_positions grid /\
            pc_max (ss_pc s) = num_of_grid_positions grid.
Proof.
  intros Hwl Hq HF. unfold GenerateToolPath.
  destruct (layers_loop_flat pc cutter models draw (length grid)
              (num_of_grid_positions grid) grid rss Hwl Hq HF 0 []
              {| ss_path := []; ss_pc := pc_new (num_of_grid_positions grid) draw;
                 ss_trace := trace; ss_pa := cc_new |} (conj eq_refl eq_refl))
    as [s [Hrun [Hc [_ Hmx]]]].
  rewrite Hrun. cbn [bind_result]. rewrite Hwl. exists s.
  split; [reflexivity|]. split; [|exact Hmx].
  rewrite Hc, num_of_grid_positions_sum. reflexivity.
Qed.

(** C9: the cancellation scenario: a callback that asks to cancel before
    layer [k + 1] yields exactly the moves of the first [k] layers. *)
Theorem GenerateToolPath_cancel pc cutter models grid trace k rss :
  waterlines pc = false -> k < length grid ->
  Forall2 (layer_ok pc cutter models) (firstn k grid) rss ->
  exists s, GenerateToolPath pc cutter models grid (Some (cancel_before_layer k)) trace =
              Ok (concat (map layer_moves rss), s).
Proof.
  intros Hwl Hk HF. unfold GenerateToolPath.
  destruct (layers_loop_cancel pc cutter models (length grid)
              (num_of_grid_positions grid) k grid Hwl 0 rss []
              {| ss_path := []; ss_pc := pc_new (num_of_grid_positions grid)
                                           (Some (cancel_before_layer k));
                 ss_trace := trace; ss_pa := cc_new |} ltac:(lia)
              ltac:(rewrite Nat.sub_0_r; exact Hk) ltac:(rewrite Nat.sub_0_r; exact HF)
              (conj eq_refl eq_refl)) as [s Hrun].
  rewrite Hrun. cbn [bind_result]. rewrite Hwl. eauto.
Qed.

(** C10: waterline mode with the primary model alone: the contour
    accumulator is fed layer by layer, and every consecutive pair of
    every finished polyline is emitted as STRAIGHT, STRAIGHT, SAFETY
    with no further collision query. *)
Theorem GenerateToolPath_waterline pc cutter models grid draw trace rss :
  waterlines pc = true -> quiet draw -> length models <= 1 ->
  Forall2 (layer_ok pc cutter models) grid rss ->
  exists s, GenerateToolPath pc cutter models grid draw trace =
              Ok (flat_map (fun pts => flat_map pair_moves (consecutive_pairs pts))
                    (cc_paths (fold_left contour_layer rss cc_new)), s).
Proof.
  intros Hwl Hq Hm HF. unfold GenerateToolPath.
  destruct (layers_loop_waterline pc cutter models draw (length grid)
              (num_of_grid_positions grid) grid rss Hwl Hq HF 0 []
              {| ss_path := []; ss_pc := pc_new (num_of_grid_positions grid) draw;
                 ss_trace := trace; ss_pa := cc_new |} (conj eq_refl eq_refl))
    as [s [Hrun Hpa]].
  rewrite Hrun. cbn [bind_result]. rewrite Hwl, Hpa, (waterline_moves_single _ _ _ Hm).
  cbn [bind_result]. eauto.
Qed.

(** C11: waterline mode with obstacle models: every consecutive pair of
    every polyline is re-checked with the triangle query against
    [models[1:]] only, and each free interval found becomes STRAIGHT,
    STRAIGHT, SAFETY. *)
Theorem waterline_moves_obstacles cutter models paths (free : point3 -> point3 -> list point3) :
  1 < length models ->
  (forall p1 p2, get_free_paths_triangles (skipn 1 models) cutter p1 p2 = Ok (free p1 p2)) ->
  waterline_moves cutter models paths =
    Ok (flat_map (fun pts => flat_map (fun pq => moves_of_intervals (free (fst pq) (snd pq)))
                               (consecutive_pairs pts)) paths).
Proof.
  intros Hm Hfree. induction paths as [|pts paths IH]; [reflexivity|]. simpl.
  replace (1 <? length models) with true by (symmetry; apply Nat.ltb_lt; lia).
  rewrite check_pairs_spec with (free := free) by exact Hfree. simpl.
  rewrite IH. simpl. now rewrite waterline_pairs_spec.
Qed.

(** A waterline slice returns [None] and feeds the accumulator one
    scan-line per non-empty result, in input order: [new_scanline],
    [append] of every point, [end_scanline]. *)
Theorem GenerateToolPathSlice_waterline pc cutter models layer draw counter trace pa rs :
  waterlines pc = true -> progress_quiet (pc_callback counter) ->
  layer_ok pc cutter models layer rs ->
  exists s, GenerateToolPathSlice pc cutter models layer draw (Some counter) trace pa =
              Ok (None, s) /\ ss_pa s = contour_fold rs pa.
Proof.
  intros Hwl Hq Hl. destruct (slice_complete pc cutter models layer draw counter trace pa rs Hq Hl)
    as [Hsl _].
  rewrite Hsl, Hwl. eexists. split; [reflexivity|]. rewrite step_all_pa. reflexivity.
Qed.

(** C8: a zero-length probe line in the first layer aborts the whole
    run with [ValueError] from [math.log], in every mode, although the
    triangle back-end never uses the depth. *)
Theorem GenerateToolPath_zero_length pc cutter models p lines rest draw trace :
  ~ (cutter_radius cutter == 0)%Q -> quiet draw ->
  GenerateToolPath pc cutter models (([p; p] :: lines) :: rest) draw trace = Err ValueError.
Proof.
  intros Hr Hq. unfold GenerateToolPath. simpl.
  pose proof (call_draw_quiet draw (CbText 1 (S (length rest))) trace Hq) as Hc.
  destruct (call_draw _ _ _) as [cancel tr]. simpl in Hc. subst cancel.
  unfold GenerateToolPathSlice. simpl. rewrite (line_depth_pts_same p _ Hr). reflexivity.
Qed.

(** Without a progress counter the slice raises [AttributeError]
    ([progress_counter.update] on line 154) as soon as its arguments are
    built, so the [if progress_counter] guard of line 173 never helps. *)
Theorem GenerateToolPathSlice_no_counter pc cutter models layer draw trace pa args :
  build_args pc cutter (slice_models pc models) layer = Ok args ->
  GenerateToolPathSlice pc cutter models layer draw None trace pa = Err AttributeError.
Proof. intros H. unfold GenerateToolPathSlice. now rewrite H. Qed.

(** C14: a failing collision query aborts the slice with its exception;
    the results of the lines before it are not returned. *)
Theorem GenerateToolPathSlice_query_error pc cutter models layer draw counter trace pa
    prefix a rest rs e :
  progress_quiet (pc_callback counter) ->
  build_args pc cutter (slice_models pc models) layer = Ok (prefix ++ a :: rest) ->
  Forall2 (fun a r => process_one_line a = Ok r) prefix rs ->
  process_one_line a = Err e ->
  GenerateToolPathSlice pc cutter models layer draw (Some counter) trace pa = Err e.
Proof.
  intros Hq Hargs HF Ha. unfold GenerateToolPathSlice. rewrite Hargs. cbn [bind_result].
  rewrite (run_in_parallel_err_at process_one_line (slice_body (waterlines pc) draw)
             slice_update (slice_inv (pc_callback counter) (pc_max counter))
             (slice_body_inv _ _ _ _) (slice_update_inv _ _) prefix a rest rs e
             {| ss_path := []; ss_pc := counter; ss_trace := trace; ss_pa := pa |}
             (fun r s H => slice_body_quiet _ _ _ _ _ _ Hq H) (conj eq_refl eq_refl) HF Ha).
  reflexivity.
Qed.


(** C15: whatever the callback answers, every move [GenerateToolPath]
    returns is well formed: a STRAIGHT move carries a point and a SAFETY
    move carries [None]. *)
Theorem GenerateToolPath_wf pc cutter models grid draw trace moves s :
  GenerateToolPath pc cutter models grid draw trace = Ok (moves, s) ->
  forallb move_wf moves = true.
Proof.
  unfold GenerateToolPath. intros H. split_bind H. destruct a as [path s1].
  destruct (waterlines pc).
  - split_bind H. inv H. eapply waterline_moves_wf; exact Ha0.
  - inv H. eapply layers_loop_wf; [| exact Ha]; reflexivity.
Qed.

(** C16: whatever the callback answers, the progress counter is sized by
    the number of grid positions and never passes it. *)
Theorem GenerateToolPath_progress_bound pc cutter models grid draw trace moves s :
  GenerateToolPath pc cutter models grid draw trace = Ok (moves, s) ->
  pc_current (ss_pc s) <= pc_max (ss_pc s) /\ pc_max (ss_pc s) = num_of_grid_positions grid.
Proof.
  unfold GenerateToolPath. intros H. split_bind H. destruct a as [path s1].
  destruct (layers_loop_count pc cutter models draw (length grid) (num_of_grid_positions grid)
              grid 0 [] {| ss_path := []; ss_pc := pc_new (num_of_grid_positions grid) draw;
                           ss_trace := trace; ss_pa := cc_new |}
              path s1 (conj eq_refl eq_refl) Ha) as [Hc [_ Hmx]].
  simpl in Hc. rewrite <- num_of_grid_positions_sum in Hc.
  destruct (waterlines pc); [split_bind H|]; inv H; rewrite Hmx; split; [lia | reflexivity | lia | reflexivity].
Qed.

End WithBackends.

(** Evaluate a run of the model: the depth is computed by its executable
    equivalent, everything else by [vm_compute]. *)
Ltac run_model :=
  unfold GenerateToolPath, layers_loop, GenerateToolPathSlice, build_args, layer_ok;
  rewrite ?line_depth_pts_exec; vm_compute; reflexivity.

Ltac layer_ok_tac :=
  eexists; split; [unfold build_args; rewrite line_depth_pts_exec; vm_compute; reflexivity
                  | repeat constructor].

End PushCutter.

Module Scenarios.
Import Moves Depth Runtime Contour PushCutter.
Local Open Scope nat_scope.

(** A cancel request answered to a progress report in the middle of
    a layer stops only that slice.  The moves of the lines already
    processed in the layer are kept (the spec says the caller discards
    them) and the run goes on with the next layers; the second line of
    the first layer is never probed. *)
Theorem GenerateToolPath_progress_cancel_continues :
  exists s, GenerateToolPath (PA := scanlines) radius_of free_whole_line ode_whole_line
              flat_cutter 1%Q [0%nat] grid_3x2 (Some cancel_on_first_progress) [] =
            Ok (moves_of_intervals [pt 0 0; pt 1 0; pt 4 0; pt 5 0; pt 6 0; pt 7 0;
                                    pt 8 0; pt 9 0; pt 10 0; pt 11 0], s).
Proof. eexists. run_model. Qed.

(** The spec's waterline scenario: one closed polyline [A, B, C, A] and
    no obstacle gives STRAIGHT A, STRAIGHT B, SAFETY, STRAIGHT B,
    STRAIGHT C, SAFETY, STRAIGHT C, STRAIGHT A, SAFETY. *)
Example waterline_abca_moves :
  exists s, GenerateToolPath (PA := scanlines) radius_of contour_abca ode_whole_line
              waterline_cutter 1%Q [0%nat] [[[pt 0 0; pt 1 0]]] None [] =
            Ok ([(MOVE_STRAIGHT, Some (pt 0 0)); (MOVE_STRAIGHT, Some (pt 1 0)); (MOVE_SAFETY, None);
                 (MOVE_STRAIGHT, Some (pt 1 0)); (MOVE_STRAIGHT, Some (pt 1 1)); (MOVE_SAFETY, None);
                 (MOVE_STRAIGHT, Some (pt 1 1)); (MOVE_STRAIGHT, Some (pt 0 0)); (MOVE_SAFETY, None)],
                s).
Proof. eexists. run_model. Qed.

(** ** Witnesses *)

Lemma GenerateToolPath_flat_witness :
  waterlines flat_cutter = false /\ quiet None /\
  Forall2 (layer_ok radius_of free_whole_line ode_whole_line flat_cutter 1%Q [0%nat])
    grid_3x2 grid_3x2 /\
  exists s, GenerateToolPath (PA := scanlines) radius_of free_whole_line ode_whole_line
              flat_cutter 1%Q [0%nat] grid_3x2 None [] =
            Ok (concat (map layer_moves grid_3x2), s) /\
            pc_current (ss_pc s) = num_of_grid_positions grid_3x2 /\
            pc_max (ss_pc s) = num_of_grid_positions grid_3x2.
Proof.
  assert (HF : Forall2 (layer_ok radius_of free_whole_line ode_whole_line flat_cutter 1%Q
                          [0%nat]) grid_3x2 grid_3x2)
    by (repeat constructor; layer_ok_tac).
  split; [reflexivity | split; [exact (fun _ _ => I) | split; [exact HF |]]].
  exact (GenerateToolPath_flat _ _ _ flat_cutter 1%Q [0%nat] grid_3x2 None [] grid_3x2
           eq_refl (fun _ _ => I) HF).
Defined.

Lemma GenerateToolPath_cancel_witness :
  waterlines flat_cutter = false /\ 1 < length grid_3x2 /\
  Forall2 (layer_ok radius_of free_whole_line ode_whole_line flat_cutter 1%Q [0%nat])
    (firstn 1 grid_3x2) [[[pt 0 0; pt 1 0]; [pt 2 0; pt 3 0]]] /\
  exists s, GenerateToolPath (PA := scanlines) radius_of free_whole_line ode_whole_line
              flat_cutter 1%Q [0%nat] grid_3x2 (Some (cancel_before_layer 1)) [] =
            Ok (concat (map layer_moves [[[pt 0 0; pt 1 0]; [pt 2 0; pt 3 0]]]), s).
Proof.
  assert (HF : Forall2 (layer_ok radius_of free_whole_line ode_whole_line flat_cutter 1%Q
                          [0%nat]) (firstn 1 grid_3x2) [[[pt 0 0; pt 1 0]; [pt 2 0; pt 3 0]]])
    by (repeat constructor; layer_ok_tac).
  split; [reflexivity | split; [simpl; lia | split; [exact HF |]]].
  exact (GenerateToolPath_cancel _ _ _ flat_cutter 1%Q [0%nat] grid_3x2 [] 1 _
           eq_refl ltac:(simpl; lia) HF).
Defined.

Lemma GenerateToolPath_waterline_witness :
  waterlines waterline_cutter = true /\ quiet None /\ length [0%nat] <= 1 /\
  Forall2 (layer_ok radius_of contour_abca ode_whole_line waterline_cutter 1%Q [0%nat])
    [[[pt 0 0; pt 1 0]]] [[[pt 0 0; pt 1 0; pt 1 1; pt 0 0]]] /\
  exists s, GenerateToolPath (PA := scanlines) radius_of contour_abca ode_whole_line
              waterline_cutter 1%Q [0%nat] [[[pt 0 0; pt 1 0]]] None [] =
            Ok (flat_map (fun pts => flat_map pair_moves (consecutive_pairs pts))
                  (cc_paths (fold_left contour_layer [[[pt 0 0; pt 1 0; pt 1 1; pt 0 0]]]
                               cc_new)), s).
Proof.
  assert (HF : Forall2 (layer_ok radius_of contour_abca ode_whole_line waterline_cutter 1%Q
                          [0%nat]) [[[pt 0 0; pt 1 0]]] [[[pt 0 0; pt 1 0; pt 1 1; pt 0 0]]])
    by (repeat constructor; layer_ok_tac).
  split; [reflexivity | split; [exact (fun _ _ => I) | split; [simpl; lia | split; [exact HF|]]]].
  exact (GenerateToolPath_waterline _ _ _ waterline_cutter 1%Q [0%nat] _ None [] _
           eq_refl (fun _ _ => I) ltac:(simpl; lia) HF).
Defined.

Lemma waterline_moves_obstacles_witness :
  1 < length [0%nat; 1%nat] /\
  (forall p1 p2, free_whole_line (skipn 1 [0%nat; 1%nat]) 1%Q p1 p2 = Ok [p1; p2]) /\
  waterline_moves free_whole_line 1%Q [0%nat; 1%nat] [[pt 0 0; pt 1 0; pt 1 1; pt 0 0]] =
    Ok (flat_map (fun pts => flat_map (fun pq => moves_of_intervals [fst pq; snd pq])
                               (consecutive_pairs pts)) [[pt 0 0; pt 1 0; pt 1 1; pt 0 0]]).
Proof.
  split; [simpl; lia | split; [reflexivity |]].
  exact (waterline_moves_obstacles free_whole_line 1%Q [0%nat; 1%nat] _
           (fun p1 p2 => [p1; p2]) ltac:(simpl; lia) (fun p1 p2 => eq_refl)).
Defined.

Lemma GenerateToolPathSlice_waterline_witness :
  waterlines waterline_cutter = true /\ progress_quiet (pc_callback (pc_new 1 None)) /\
  layer_ok radius_of contour_abca ode_whole_line waterline_cutter 1%Q [0%nat]
    [[pt 0 0; pt 1 0]] [[pt 0 0; pt 1 0; pt 1 1; pt 0 0]] /\
  exists s, GenerateToolPathSlice (PA := scanlines) radius_of contour_abca ode_whole_line
              waterline_cutter 1%Q [0%nat] [[pt 0 0; pt 1 0]] None (Some (pc_new 1 None)) []
              cc_new =
            Ok (None, s) /\ ss_pa s = contour_fold [[pt 0 0; pt 1 0; pt 1 1; pt 0 0]] cc_new.
Proof.
  assert (Hl : layer_ok radius_of contour_abca ode_whole_line waterline_cutter 1%Q [0%nat]
                 [[pt 0 0; pt 1 0]] [[pt 0 0; pt 1 0; pt 1 1; pt 0 0]]) by layer_ok_tac.
  split; [reflexivity | split; [exact (fun _ _ _ => I) | split; [exact Hl |]]].
  exact (GenerateToolPathSlice_waterline _ _ _ waterline_cutter 1%Q [0%nat] _ None
           (pc_new 1 None) [] cc_new _ eq_refl (fun _ _ _ => I) Hl).
Defined.


Lemma GenerateToolPath_zero_length_witness :
  ~ (radius_of 1%Q == 0)%Q /\ quiet None /\
  GenerateToolPath (PA := scanlines) radius_of free_whole_line ode_whole_line flat_cutter 1%Q
    [0%nat] [[[pt 3 4; pt 3 4]; [pt 0 0; pt 1 0]]] None [] = Err ValueError.
Proof.
  assert (Hr : ~ (radius_of 1%Q == 0)%Q) by (unfold radius_of; discriminate).
  split; [exact Hr | split; [exact (fun _ _ => I) |]].
  exact (GenerateToolPath_zero_length radius_of free_whole_line ode_whole_line flat_cutter 1%Q
           [0%nat] (pt 3 4) _ [] None [] Hr (fun _ _ => I)).
Defined.

Lemma GenerateToolPathSlice_no_counter_witness :
  build_args radius_of flat_cutter 1%Q (slice_models flat_cutter [0%nat]) [] = Ok [] /\
  GenerateToolPathSlice (PA := scanlines) radius_of free_whole_line ode_whole_line
    flat_cutter 1%Q [0%nat] [] None None [] cc_new = Err AttributeError.
Proof.
  split; [reflexivity |].
  exact (GenerateToolPathSlice_no_counter radius_of free_whole_line ode_whole_line flat_cutter
           1%Q [0%nat] [] None [] cc_new [] eq_refl).
Defined.

Lemma GenerateToolPathSlice_query_error_witness :
  let a0 := {| la_p1 := pt 0 0; la_p2 := pt 1 0; la_depth := 5%Z; la_models := [0%nat];
               la_cutter := 1%Q; la_physics := None |} in
  let a1 := {| la_p1 := pt 2 0; la_p2 := pt 3 0; la_depth := 5%Z; la_models := [0%nat];
               la_cutter := 1%Q; la_physics := None |} in
  progress_quiet (pc_callback (pc_new 2 None)) /\
  build_args radius_of flat_cutter 1%Q (slice_models flat_cutter [0%nat])
    [[pt 0 0; pt 1 0]; [pt 2 0; pt 3 0]] = Ok ([a0] ++ a1 :: []) /\
  Forall2 (fun a r => process_one_line fail_at_two ode_whole_line a = Ok r) [a0]
    [[pt 0 0; pt 1 0]] /\
  process_one_line fail_at_two ode_whole_line a1 = Err (BackendError "degenerate triangle") /\
  GenerateToolPathSlice (PA := scanlines) radius_of fail_at_two ode_whole_line flat_cutter 1%Q
    [0%nat] [[pt 0 0; pt 1 0]; [pt 2 0; pt 3 0]] None (Some (pc_new 2 None)) [] cc_new =
    Err (BackendError "degenerate triangle").
Proof.
  intros a0 a1.
  assert (Hb : build_args radius_of flat_cutter 1%Q (slice_models flat_cutter [0%nat])
                 [[pt 0 0; pt 1 0]; [pt 2 0; pt 3 0]] = Ok ([a0] ++ a1 :: []))
    by (unfold build_args; rewrite line_depth_pts_exec; vm_compute; reflexivity).
  assert (HF : Forall2 (fun a r => process_one_line fail_at_two ode_whole_line a = Ok r) [a0]
                 [[pt 0 0; pt 1 0]]) by (repeat constructor).
  assert (Ha : process_one_line fail_at_two ode_whole_line a1 =
               Err (BackendError "degenerate triangle")) by reflexivity.
  split; [exact (fun _ _ _ => I) | split; [exact Hb | split; [exact HF | split; [exact Ha |]]]].
  exact (GenerateToolPathSlice_query_error radius_of fail_at_two ode_whole_line flat_cutter 1%Q
           [0%nat] _ None (pc_new 2 None) [] cc_new [a0] a1 [] _ _ (fun _ _ _ => I) Hb HF Ha).
Defined.

Lemma GenerateToolPath_wf_witness :
  exists moves s,
    GenerateToolPath (PA := scanlines) radius_of free_whole_line ode_whole_line flat_cutter 1%Q
      [0%nat] grid_3x2 (Some cancel_on_first_progress) [] = Ok (moves, s) /\
    forallb move_wf moves = true.
Proof.
  assert (H : exists moves s,
             GenerateToolPath (PA := scanlines) radius_of free_whole_line ode_whole_line
               flat_cutter 1%Q [0%nat] grid_3x2 (Some cancel_on_first_progress) [] =
             Ok (moves, s)) by (do 2 eexists; run_model).
  destruct H as [moves [s H]]. exists moves, s.
  split; [exact H | eapply GenerateToolPath_wf; exact H].
Defined.

Lemma GenerateToolPath_progress_bound_witness :
  exists moves s,
    GenerateToolPath (PA := scanlines) radius_of free_whole_line ode_whole_line flat_cutter 1%Q
      [0%nat] grid_3x2 (Some cancel_on_first_progress) [] = Ok (moves, s) /\
    pc_current (ss_pc s) <= pc_max (ss_pc s) /\
    pc_max (ss_pc s) = num_of_grid_positions grid_3x2.
Proof.
  assert (H : exists moves s,
             GenerateToolPath (PA := scanlines) radius_of free_whole_line ode_whole_line
               flat_cutter 1%Q [0%nat] grid_3x2 (Some cancel_on_first_progress) [] =
             Ok (moves, s)) by (do 2 eexists; run_model).
  destruct H as [moves [s H]]. exists moves, s.
  split; [exact H | eapply GenerateToolPath_progress_bound; exact H].
Defined.

End Scenarios.
