(* ===== verification/PluginManager.v ===== *)
(** * PluginManager: loading, enabling and ordering plugins

    Models [PluginManager] of [src/pycam/Plugins/__init__.py] (lines
    258-422).  [self.modules] is a [gmap] from plugin names to plugin
    objects; the events emitted through [core.emit_event] are recorded.
    A plugin class is described by what the manager uses of it: its
    [DEPENDS] list, whether its constructor raises ([PluginBase.__init__]
    is modelled in [PluginInit]) and the outcome of [setup()] and
    [teardown()] (plugin-specific code, external here).  Scanning the directory for
    modules is I/O: [import_plugins] starts from the list of candidate
    classes the scan produced. *)

From Stdlib Require Import String Ascii List Arith Lia Permutation Sorted.
From stdpp Require Import gmap strings.
From S2P Require Import Prelude.
Import ListNotations.

Module PluginManager.
Local Open Scope string_scope.

(** What [setup()] does: return a true or false value, or raise the
    [NotImplementedError] of [PluginBase.setup]. *)
Inductive setup_outcome : Type := SetupTrue | SetupFalse | SetupNotImplemented.

Record plugin_class : Type := {
  DEPENDS : list string;
  (* [Some e]: the constructor [obj(core, name)] raises [e] (for
     [PluginBase.__init__], the exceptions of [PluginInit.plugin_init]) *)
  init_error : option py_error;
  setup_result : setup_outcome;
  teardown_ok : bool                    (* false: [teardown()] raises *)
}.

(** A plugin object: [PluginBase.__init__] sets [enabled = True]; the
    [dep_order] attribute only exists once [import_plugins] set it. *)
Record plugin : Type := {
  pl_class : plugin_class;
  pl_name : string;
  enabled : bool;
  dep_order : option nat
}.

Record manager : Type := {
  modules : gmap string plugin;
  events : list string
}.

Definition set_enabled (p : plugin) (b : bool) : plugin :=
  {| pl_class := pl_class p; pl_name := pl_name p; enabled := b; dep_order := dep_order p |}.

Definition set_dep_order (p : plugin) (n : nat) : plugin :=
  {| pl_class := pl_class p; pl_name := pl_name p; enabled := enabled p; dep_order := Some n |}.

Definition with_modules (st : manager) (m : gmap string plugin) : manager :=
  {| modules := m; events := events st |}.

(** [PluginManager.__init__]: no modules yet. *)
Definition new_manager : manager := {| modules := ∅; events := [] |}.

(** ["%s.%s" % (name, name)] *)
Definition long_name (name : string) : string := name +:+ "." +:+ name.

(** [get_plugin] (lines 360-367), returning the key it found too. *)
Definition resolve (st : manager) (name : string) : result (string * plugin) :=
  match modules st !! name with
  | Some p => Ok (name, p)
  | None =>
      match modules st !! long_name name with
      | Some p => Ok (long_name name, p)
      | None => Err (KeyError name)
      end
  end.

Definition get_plugin (st : manager) (name : string) : result plugin :=
  match resolve st name with
  | Ok (_, p) => Ok p
  | Err e => Err e
  end.

(** [enable_plugin] (lines 369-375): the refusal branch calls
    [self.log.debug], an attribute [PluginManager] does not have. *)
Definition enable_plugin (st : manager) (name : string) : result manager :=
  match resolve st name with
  | Err e => Err e
  | Ok (key, p) =>
      if enabled p then Err AttributeError
      else
        match setup_result (pl_class p) with
        | SetupNotImplemented => Err NotImplementedError
        | SetupTrue => Ok (with_modules st (<[key := set_enabled p true]> (modules st)))
        | SetupFalse => Ok (with_modules st (<[key := set_enabled p false]> (modules st)))
        end
  end.

(** [disable_plugin] (lines 377-384). *)
Definition disable_plugin (st : manager) (name : string) : result manager :=
  match resolve st name with
  | Err e => Err e
  | Ok (key, p) =>
      if negb (enabled p) then Err AttributeError
      else if teardown_ok (pl_class p)
           then Ok (with_modules st (<[key := set_enabled p false]> (modules st)))
           else Err NotImplementedError
  end.

(** [get_plugin_state] (lines 386-388). *)
Definition get_plugin_state (st : manager) (name : string) : result bool :=
  match get_plugin st name with
  | Ok p => Ok (enabled p)
  | Err e => Err e
  end.




(** A class found by the module scan: [(item, mod_filename, attr)]. *)
Record candidate : Type := {
  cand_class : plugin_class;
  cand_file : string;
  cand_name : string
}.

Definition has_key (st : manager) (k : string) : bool :=
  match modules st !! k with Some _ => true | None => false end.

(** The [for dep in plugin.DEPENDS] test of lines 301-306: every
    dependency is registered under its name or its long name. *)
Definition deps_loaded (st : manager) (cls : plugin_class) : bool :=
  forallb (fun dep => has_key st dep || has_key st (long_name dep)) (DEPENDS cls).

(** [_load_plugin] (lines 344-358).  The teardown of a plugin already
    registered under that name and the constructor call are outside the
    [try] and may raise. *)
Definition load_plugin (st : manager) (obj : plugin_class) (filename plugin_name : string)
  : result manager :=
  let teardown :=
    match modules st !! plugin_name with
    | Some old => if teardown_ok (pl_class old) then Ok tt else Err NotImplementedError
    | None => Ok tt
    end in
  match teardown with
  | Err e => Err e
  | Ok _ =>
      match init_error obj with
      | Some e => Err e
      | None =>
          let new_plugin := {| pl_class := obj; pl_name := plugin_name; enabled := true;
                               dep_order := None |} in
          match setup_result obj with
          | SetupTrue =>
              Ok {| modules := <[plugin_name := new_plugin]> (modules st);
                    events := events st ++ ["plugin-list-changed"] |}
          | SetupFalse | SetupNotImplemented => Ok st
          end
      end
  end.

(** One pass of [for plugin, filename, name in plugins] (lines 300-313):
    postpone a plugin with a missing dependency, otherwise load it and
    number it if its name is registered afterwards. *)
Fixpoint import_pass (plugins : list candidate) (dep_order : nat) (try_again : bool)
    (postponed : list candidate) (st : manager)
    : result (list candidate * nat * bool * manager) :=
  match plugins with
  | [] => Ok (postponed, dep_order, try_again, st)
  | c :: rest =>
      if deps_loaded st (cand_class c) then
        match load_plugin st (cand_class c) (cand_file c) (cand_name c) with
        | Err e => Err e
        | Ok st1 =>
            match modules st1 !! cand_name c with
            | Some p =>
                import_pass rest (S dep_order) true postponed
                  (with_modules st1 (<[cand_name c := set_dep_order p dep_order]> (modules st1)))
            | None => import_pass rest dep_order true postponed st1
            end
        end
      else import_pass rest dep_order try_again (postponed ++ [c]) st
  end.

(** [while try_again: ...] (lines 295-314), with fuel; [None] means
    out of fuel. *)
Fixpoint import_loop (fuel : nat) (plugins : list candidate) (dep_order : nat) (st : manager)
    : option (result (list candidate * manager)) :=
  match fuel with
  | O => None
  | S f =>
      match import_pass plugins dep_order false [] st with
      | Err e => Some (Err e)
      | Ok (postponed, d, again, st1) =>
          if again then import_loop f postponed d st1 else Some (Ok (postponed, st1))
      end
  end.

(** [import_plugins] after the scan (lines 295-325): the loop runs at
    most one pass more than there are candidates ([import_loop_total]);
    the plugins left over are only logged. *)
Definition import_plugins (candidates : list candidate) (st : manager)
    : result (list candidate * manager) :=
  match import_loop (S (length candidates)) candidates 0 st with
  | Some r => r
  | None => Ok (candidates, st)
  end.

(** ** The directory scan of [import_plugins] (lines 265-294) *)

(** One name of [os.listdir(directory)]: whether it is a file, and what
    importing it gives: [None] for the [ImportError] of a broken module,
    or the attributes of [dir(mod)] in order, each with its class when
    it is a class that has a [setup] attribute. *)
Record dir_entry : Type := {
  entry_name : string;
  entry_is_file : bool;
  entry_module : option (list (string * option plugin_class))
}.

(** [s.endswith(suffix)] *)
Definition ends_with (suffix s : string) : bool :=
  Nat.leb (String.length suffix) (String.length s) &&
  String.eqb (substring (String.length s - String.length suffix) (String.length suffix) s) suffix.

(** [str.lower()] on ASCII. *)
Definition ascii_lower (c : ascii) : ascii :=
  let n := nat_of_ascii c in
  if Nat.leb 65 n && Nat.leb n 90 then ascii_of_nat (n + 32) else c.

Fixpoint str_lower (s : string) : string :=
  match s with
  | EmptyString => EmptyString
  | String c s' => String (ascii_lower c) (str_lower s')
  end.

(** The test of lines 273-275. *)
Definition is_plugin_file (e : dir_entry) : bool :=
  ends_with ".py" (entry_name e) && negb (String.eqb (str_lower (entry_name e)) "__init__.py") &&
  entry_is_file e.

(** [for attr in dir(mod)] (lines 288-294): [(item, mod_filename, attr)]
    for every class with [setup]; the [plugin_name] the loop computes is
    never used. *)
Definition module_candidates (mod_filename : string) (attrs : list (string * option plugin_class))
    : list candidate :=
  flat_map (fun '(attr, item) =>
              match item with
              | Some cls => [{| cand_class := cls; cand_file := mod_filename; cand_name := attr |}]
              | None => []
              end) attrs.

(** [for filename in files] (lines 272-294): a module that fails to
    import is logged and skipped. *)
Definition scan_entries (directory : string) (files : list dir_entry) : list candidate :=
  flat_map (fun e =>
              if is_plugin_file e then
                match entry_module e with
                | None => []
                | Some attrs => module_candidates (directory +:+ "/" +:+ entry_name e) attrs
                end
              else []) files.

(** [import_plugins(directory=None)] (lines 265-325): the directory
    defaults to the package's; [os.listdir] raising [OSError] ([None])
    ends the method with nothing loaded. *)
Definition import_plugins_dir (listdir : string -> option (list dir_entry)) (package_dir : string)
    (directory : option string) (st : manager) : result (list candidate * manager) :=
  let dir := match directory with Some d => d | None => package_dir end in
  match listdir dir with
  | None => Ok ([], st)
  | Some files => import_plugins (scan_entries dir files) st
  end.


(** [get_plugin_names] (lines 393-396): the keys, sorted. *)
Definition get_plugin_names (st : manager) : list string :=
  sort_by String.leb (map fst (map_to_list (modules st))).






(** ** Fixtures for concrete runs *)

Definition plain_class (deps : list string) : plugin_class :=
  {| DEPENDS := deps; init_error := None; setup_result := SetupTrue; teardown_ok := true |}.

Definition cand (name : string) (deps : list string) : candidate :=
  {| cand_class := plain_class deps; cand_file := name +:+ ".py"; cand_name := name |}.

(** Three plugins found in scan order, the first needing both others. *)
Definition sample_candidates : list candidate :=
  [cand "Tasks" ["Models"; "Tools"]; cand "Models" []; cand "Tools" ["Models"]].

Definition registered (name : string) (deps : list string) (on : bool) : plugin :=
  {| pl_class := plain_class deps; pl_name := name; enabled := on; dep_order := None |}.

(** A registry where ["B"] depends on the long name of ["A"]. *)
Definition long_name_registry : manager :=
  {| modules := <["A.A" := registered "A.A" [] true]> (<["B" := registered "B" ["A.A"] true]> ∅);
     events := [] |}.

(** Every dependency of a registered plugin is registered, under its
    name or its long name. *)
Definition deps_closed (st : manager) : Prop :=
  forall k p d, modules st !! k = Some p -> In d (DEPENDS (pl_class p)) ->
  has_key st d = true \/ has_key st (long_name d) = true.

Definition keys_grow (st st1 : manager) : Prop :=
  forall k, has_key st k = true -> has_key st1 k = true.

(** ** Termination of the import loop *)

Lemma import_pass_length plugins d ta acc st post d' again st' :
  import_pass plugins d ta acc st = Ok (post, d', again, st') ->
  length post <= length acc + length plugins /\
  (again = true -> ta = true \/ length post < length acc + length plugins).
Proof.
  revert d ta acc st. induction plugins as [|c rest IH]; intros d ta acc st H; simpl in H.
  - inv H. simpl. split; [lia | auto].
  - destruct (deps_loaded st (cand_class c)).
    + destruct (load_plugin _ _ _ _) as [st1|e]; [|discriminate].
      destruct (modules st1 !! cand_name c);
        (apply IH in H as [H _]; simpl; split; [lia | intros; right; lia]).
    + apply IH in H as [H1 H2]. rewrite length_app in H1, H2. simpl in *.
      split; [lia|]. intros Ha. destruct (H2 Ha); [left; assumption | right; lia].
Qed.

Lemma import_loop_enough fuel plugins d st :
  length plugins < fuel ->
  import_loop fuel plugins d st <> None /\
  forall fuel', fuel <= fuel' -> import_loop fuel' plugins d st = import_loop fuel plugins d st.
Proof.
  revert plugins d st. induction fuel as [|f IH]; intros plugins d st Hl; [lia|].
  split.
  - simpl. destruct (import_pass plugins d false [] st) as [[[[post d'] again] st1]|e] eqn:E;
      [|discriminate].
    destruct again; [|discriminate].
    apply import_pass_length in E as [_ E]. destruct (E eq_refl) as [H|H]; [discriminate|].
    apply IH. simpl in H. lia.
  - intros [|f'] Hf; [lia|]. simpl.
    destruct (import_pass plugins d false [] st) as [[[[post d'] again] st1]|e] eqn:E;
      [|reflexivity].
    destruct again; [|reflexivity].
    apply import_pass_length in E as [_ E]. destruct (E eq_refl) as [H|H]; [discriminate|].
    apply IH; simpl in H; lia.
Qed.

(** ** The dependency invariant *)

Lemma has_key_insert st st1 k v k' :
  modules st1 = <[k := v]> (modules st) ->
  has_key st1 k' = bool_decide (k = k') || has_key st k'.
Proof.
  intros E. unfold has_key. rewrite E, lookup_insert.
  destruct (decide (k = k')); simpl; [now rewrite bool_decide_true | now rewrite bool_decide_false].
Qed.

Lemma keys_grow_insert st st1 k v :
  modules st1 = <[k := v]> (modules st) -> keys_grow st st1.
Proof. intros E k' H. rewrite (has_key_insert _ _ _ _ _ E), H. apply orb_true_r. Qed.

Lemma deps_closed_grow st st1 :
  keys_grow st st1 -> (forall k p, modules st1 !! k = Some p -> modules st !! k = Some p) ->
  deps_closed st -> deps_closed st1.
Proof.
  intros Hg Hold Hc k p d Hk Hd. destruct (Hc k p d (Hold k p Hk) Hd) as [H|H];
    [left | right]; now apply Hg.
Qed.

(** Registering a plugin whose dependencies are registered, or
    renumbering a registered one, keeps the invariant. *)
Lemma deps_closed_insert st st1 k v :
  modules st1 = <[k := v]> (modules st) ->
  (forall d, In d (DEPENDS (pl_class v)) -> has_key st d = true \/ has_key st (long_name d) = true) ->
  deps_closed st -> deps_closed st1.
Proof.
  intros E Hv Hc k' p d Hk Hd. pose proof (keys_grow_insert _ _ _ _ E) as Hg.
  rewrite E, lookup_insert in Hk. destruct (decide (k = k')) as [<-|Hne].
  - inv Hk. destruct (Hv d Hd) as [H|H]; [left | right]; now apply Hg.
  - destruct (Hc k' p d Hk Hd) as [H|H]; [left | right]; now apply Hg.
Qed.

Lemma deps_loaded_spec st cls :
  deps_loaded st cls = true ->
  forall d, In d (DEPENDS cls) -> has_key st d = true \/ has_key st (long_name d) = true.
Proof.
  unfold deps_loaded. rewrite forallb_forall. intros H d Hd.
  apply orb_true_iff, H, Hd.
Qed.

Lemma load_plugin_closed st obj f n st1 :
  deps_closed st -> deps_loaded st obj = true -> load_plugin st obj f n = Ok st1 ->
  deps_closed st1 /\ keys_grow st st1.
Proof.
  intros Hc Hl H. unfold load_plugin in H.
  destruct (modules st !! n) as [old|]; [destruct (teardown_ok (pl_class old))|];
    try discriminate; destruct (init_error obj); try discriminate;
    (destruct (setup_result obj); inv H;
     [ split; [eapply deps_closed_insert; [reflexivity | apply deps_loaded_spec, Hl | exact Hc]
              | eapply keys_grow_insert; reflexivity]
     | split; [exact Hc | intros k Hk; exact Hk] .. ]).
Qed.

Lemma renumber_closed st1 k p n :
  modules st1 !! k = Some p -> deps_closed st1 ->
  deps_closed (with_modules st1 (<[k := set_dep_order p n]> (modules st1))) /\
  keys_grow st1 (with_modules st1 (<[k := set_dep_order p n]> (modules st1))).
Proof.
  intros Hk Hc. split; [|eapply keys_grow_insert; reflexivity].
  eapply deps_closed_insert; [reflexivity | | exact Hc].
  intros d Hd. exact (Hc k p d Hk Hd).
Qed.

Lemma import_pass_closed plugins d ta acc st post d' again st' :
  deps_closed st -> import_pass plugins d ta acc st = Ok (post, d', again, st') ->
  deps_closed st'.
Proof.
  revert d ta acc st. induction plugins as [|c rest IH]; intros d ta acc st Hc H; simpl in H.
  - now inv H.
  - destruct (deps_loaded st (cand_class c)) eqn:Hl; [|exact (IH _ _ _ _ Hc H)].
    destruct (load_plugin _ _ _ _) as [st1|e] eqn:Eload; [|discriminate].
    destruct (load_plugin_closed _ _ _ _ _ Hc Hl Eload) as [Hc1 _].
    destruct (modules st1 !! cand_name c) as [p|] eqn:Ek; [|exact (IH _ _ _ _ Hc1 H)].
    exact (IH _ _ _ _ (proj1 (renumber_closed _ _ _ d Ek Hc1)) H).
Qed.

Lemma import_loop_closed fuel plugins d st left st' :
  deps_closed st -> import_loop fuel plugins d st = Some (Ok (left, st')) -> deps_closed st'.
Proof.
  revert plugins d st. induction fuel as [|f IH]; intros plugins d st Hc H; simpl in H;
    [discriminate|].
  destruct (import_pass plugins d false [] st) as [[[[post d1] again] st1]|e] eqn:E;
    [|discriminate].
  pose proof (import_pass_closed _ _ _ _ _ _ _ _ _ Hc E) as Hc1.
  destruct again; [exact (IH _ _ _ Hc1 H) | now inv H].
Qed.

(** ** The scan and the names *)

(** The scan yields, in listing order, one candidate per class with
    [setup] of every importable [.py] file other than [__init__.py]. *)
Lemma scan_entries_spec dir files c :
  In c (scan_entries dir files) <->
  exists e attrs attr cls, In e files /\ is_plugin_file e = true /\ entry_module e = Some attrs /\
    In (attr, Some cls) attrs /\
    c = {| cand_class := cls; cand_file := dir +:+ "/" +:+ entry_name e; cand_name := attr |}.
Proof.
  unfold scan_entries. rewrite in_flat_map. split.
  - intros (e & He & Hc). destruct (is_plugin_file e) eqn:Hp; [|contradiction].
    destruct (entry_module e) as [attrs|] eqn:Hm; [|contradiction].
    unfold module_candidates in Hc. apply in_flat_map in Hc as ([attr [cls|]] & Ha & Hc); [|contradiction].
    destruct Hc as [<-|[]]. now exists e, attrs, attr, cls.
  - intros (e & attrs & attr & cls & He & Hp & Hm & Ha & ->). exists e. split; [exact He|].
    rewrite Hp, Hm. unfold module_candidates. apply in_flat_map. exists (attr, Some cls).
    split; [exact Ha | now left].
Qed.

(** [get_plugin_names] lists every key once, in string order. *)
Lemma get_plugin_names_spec st :
  Sorted (fun a b => String.leb a b = true) (get_plugin_names st) /\
  Permutation (get_plugin_names st) (map fst (map_to_list (modules st))).
Proof.
  split; [|apply sort_by_perm].
  apply sort_by_sorted; intros a b H; [exact H|].
  destruct (String.leb_total a b) as [H'|H']; [congruence | exact H'].
Qed.

(** ** Progress of the import loop *)

(** Every registered plugin tears down without raising. *)
Definition td_ok (st : manager) : Prop :=
  forall k p, modules st !! k = Some p -> teardown_ok (pl_class p) = true.

(** A candidate whose constructor returns, whose [setup] returns a true
    value and whose [teardown] does not raise. *)
Definition loads (c : candidate) : Prop :=
  init_error (cand_class c) = None /\ setup_result (cand_class c) = SetupTrue /\
  teardown_ok (cand_class c) = true.

Lemma td_ok_insert st st1 k p :
  modules st1 = <[k := p]> (modules st) -> teardown_ok (pl_class p) = true -> td_ok st -> td_ok st1.
Proof.
  intros E Hp Ht k' q Hk. rewrite E, lookup_insert in Hk.
  destruct (decide (k = k')); [now inv Hk | exact (Ht k' q Hk)].
Qed.

Lemma load_plugin_loads st c :
  loads c -> td_ok st ->
  exists st1, load_plugin st (cand_class c) (cand_file c) (cand_name c) = Ok st1 /\
    td_ok st1 /\ keys_grow st st1 /\
    exists p, modules st1 !! cand_name c = Some p /\ pl_class p = cand_class c.
Proof.
  intros (Hi & Hs & Hd) Ht. unfold load_plugin.
  destruct (modules st !! cand_name c) as [old|] eqn:Eo; [rewrite (Ht _ _ Eo)|]; rewrite Hi, Hs;
    (eexists; split; [reflexivity|]; split; [|split];
     [ eapply td_ok_insert; [reflexivity | exact Hd | exact Ht]
     | eapply keys_grow_insert; reflexivity
     | eexists; split; [apply lookup_insert_eq | reflexivity] ]).
Qed.

(** One pass over candidates that load: it does not raise; what was
    postponed stays postponed; every candidate is registered or
    postponed; nothing else is postponed; and a pass that tried nothing
    postponed every candidate, each with a missing dependency, and left
    the manager alone. *)
Lemma import_pass_progress plugins d ta post st :
  Forall loads plugins -> td_ok st ->
  exists post' d' again st', import_pass plugins d ta post st = Ok (post', d', again, st') /\
    td_ok st' /\ keys_grow st st' /\
    (forall c, In c post -> In c post') /\
    (forall c, In c plugins -> In c post' \/ has_key st' (cand_name c) = true) /\
    (forall c, In c post' -> In c post \/ In c plugins) /\
    (ta = true -> again = true) /\
    (again = false -> st' = st /\ post' = app post plugins /\
       Forall (fun c => deps_loaded st (cand_class c) = false) plugins).
Proof.
  revert d ta post st. induction plugins as [|c rest IH]; intros d ta post st Hl Ht; cbn [import_pass].
  - do 4 eexists. split; [reflexivity|]. rewrite app_nil_r.
    split; [exact Ht|]. split; [intros k Hk; exact Hk|]. split; [auto|].
    split; [intros ? []|]. split; [intros c Hc; now left|]. split; auto.
  - inv Hl. destruct (deps_loaded st (cand_class c)) eqn:Hdl.
    + destruct (load_plugin_loads st c H1 Ht) as (st1 & Eload & Ht1 & Hg1 & p & Ep & _).
      rewrite Eload, Ep.
      set (st2 := with_modules st1 (<[cand_name c := set_dep_order p d]> (modules st1))).
      assert (Ht2 : td_ok st2) by (eapply td_ok_insert; [reflexivity | cbn; eapply Ht1, Ep | exact Ht1]).
      assert (Hg2 : keys_grow st1 st2) by (eapply keys_grow_insert; reflexivity).
      destruct (IH (S d) true post st2 H2 Ht2)
        as (post' & d' & again & st' & Ep' & Ht' & Hg' & Hkeep & Hin & Hsub & Hta & _).
      exists post', d', again, st'. split; [exact Ep'|]. split; [exact Ht'|].
      split; [intros k Hk; apply Hg', Hg2, Hg1, Hk|]. split; [exact Hkeep|].
      split; [|split; [|split]].
      * intros c' [<-|Hc']; [right | exact (Hin c' Hc')].
        apply Hg'. unfold has_key. cbn. now rewrite lookup_insert_eq.
      * intros c' Hc'. destruct (Hsub c' Hc'); [left | right; right]; assumption.
      * intros _. now apply Hta.
      * intros E. rewrite (Hta eq_refl) in E. discriminate.
    + destruct (IH d ta (app post [c]) st H2 Ht)
        as (post' & d' & again & st' & Ep' & Ht' & Hg' & Hkeep & Hin & Hsub & Hta & Hno).
      exists post', d', again, st'. split; [exact Ep'|]. do 2 (split; [assumption|]).
      split; [intros c' Hc'; apply Hkeep, in_or_app; now left|].
      split; [|split; [|split; [exact Hta|]]].
      * intros c' [<-|Hc']; [left; apply Hkeep, in_or_app; right; now left | exact (Hin c' Hc')].
      * intros c' Hc'. destruct (Hsub c' Hc') as [H|H]; [apply in_app_or in H as [H|[<-|[]]]|];
          [left | right; left | right; right]; auto.
      * intros E. destruct (Hno E) as (-> & -> & Hf). rewrite <- app_assoc. auto.
Qed.

(** The loop over candidates that load does not raise; when it returns,
    every candidate is registered or left over, and the leftovers are
    candidates that each miss a dependency in the final manager. *)
Lemma import_loop_progress fuel plugins d st r :
  Forall loads plugins -> td_ok st -> import_loop fuel plugins d st = Some r ->
  exists left st', r = Ok (left, st') /\ keys_grow st st' /\
    (forall c, In c plugins -> In c left \/ has_key st' (cand_name c) = true) /\
    (forall c, In c left -> In c plugins) /\
    Forall (fun c => deps_loaded st' (cand_class c) = false) left.
Proof.
  revert plugins d st. induction fuel as [|f IH]; intros plugins d st Hl Ht H; cbn in H;
    [discriminate|].
  destruct (import_pass_progress plugins d false [] st Hl Ht)
    as (post & d1 & again & st1 & Ep & Ht1 & Hg1 & _ & Hin & Hsub & _ & Hno).
  rewrite Ep in H. destruct again.
  - assert (Hpl : Forall loads post).
    { apply List.Forall_forall. intros c Hc. destruct (Hsub c Hc) as [[]|Hc'].
      exact (proj1 (List.Forall_forall _ _) Hl c Hc'). }
    destruct (IH post d1 st1 Hpl Ht1 H) as (left & st' & -> & Hg & Hin' & Hsub' & Hf).
    exists left, st'. split; [reflexivity|]. split; [intros k Hk; apply Hg, Hg1, Hk|].
    split; [|split; [|exact Hf]].
    + intros c Hc. destruct (Hin c Hc) as [Hp|Hk]; [exact (Hin' c Hp) | right; apply Hg, Hk].
    + intros c Hc. destruct (Hsub c (Hsub' c Hc)) as [[]|H']. exact H'.
  - inv H. destruct (Hno eq_refl) as (-> & -> & Hf).
    exists plugins, st. split; [reflexivity|]. split; [intros k Hk; exact Hk|].
    split; [|split; [|exact Hf]]; auto.
Qed.

(** ** Sorting by dependency order *)


(** ** Names *)

Lemma string_length_append (s1 s2 : string) :
  String.length (s1 +:+ s2) = String.length s1 + String.length s2.
Proof. induction s1 as [|a s1 IH]; simpl; [reflexivity | now rewrite IH]. Qed.

Lemma long_name_neq name : long_name name <> name.
Proof.
  intros E. apply (f_equal String.length) in E. unfold long_name in E.
  rewrite !string_length_append in E. simpl in E. lia.
Qed.

(** Where [get_plugin] finds a plugin, an update at that key is found
    again by the same name. *)
Lemma resolve_insert st st1 name key p q :
  resolve st name = Ok (key, p) -> modules st1 = <[key := q]> (modules st) ->
  resolve st1 name = Ok (key, q).
Proof.
  unfold resolve. intros H E. rewrite E.
  destruct (modules st !! name) as [p'|] eqn:Hn.
  - inv H. now rewrite lookup_insert_eq.
  - destruct (modules st !! long_name name) as [p'|] eqn:Hl; inv H.
    rewrite lookup_insert_ne by apply long_name_neq. rewrite Hn.
    now rewrite lookup_insert_eq.
Qed.

Lemma resolve_lookup st name key p : resolve st name = Ok (key, p) -> modules st !! key = Some p.
Proof.
  unfold resolve. destruct (modules st !! name) eqn:Hn; [intros H; inv H; exact Hn|].
  destruct (modules st !! long_name name) eqn:Hl; intros H; inv H. exact Hl.
Qed.

Lemma set_enabled_same p : set_enabled (set_enabled p false) (enabled p) = p.
Proof. destruct p. reflexivity. Qed.

(** ** Properties *)

(** C18: the dependency loop of [import_plugins] terminates: with fuel
    beyond the number of candidates it returns, and returns what
    [import_plugins] returns. *)
Theorem import_plugins_total fuel candidates st :
  length candidates < fuel ->
  import_loop fuel candidates 0 st = Some (import_plugins candidates st).
Proof.
  intros Hf. unfold import_plugins.
  destruct (import_loop_enough (S (length candidates)) candidates 0 st ltac:(lia)) as [Hn He].
  rewrite (He fuel ltac:(lia)).
  destruct (import_loop (S (length candidates)) candidates 0 st); [reflexivity | contradiction].
Qed.

(** C19: [import_plugins] only registers a plugin once its dependencies
    are registered (by name or long name), so the invariant "every
    dependency of a registered plugin is registered" is kept. *)
Theorem import_plugins_deps_closed candidates st left st' :
  deps_closed st -> import_plugins candidates st = Ok (left, st') -> deps_closed st'.
Proof.
  unfold import_plugins. intros Hc H.
  destruct (import_loop _ _ _ _) as [r|] eqn:E; [subst r; exact (import_loop_closed _ _ _ _ _ _ Hc E)|].
  inv H. exact Hc.
Qed.


(** C28: liveness of [import_plugins]: when every candidate's [setup]
    succeeds, no teardown raises, and every dependency of a candidate is
    registered already or is the name (or long name) of a candidate of
    lower rank (the dependencies are acyclic), the loop ends with no
    plugin left over and every candidate registered. *)
Theorem import_plugins_loads_all candidates st (rank : candidate -> nat) :
  Forall loads candidates -> td_ok st ->
  (forall c dep, In c candidates -> In dep (DEPENDS (cand_class c)) ->
     has_key st dep = true \/ has_key st (long_name dep) = true \/
     exists c', In c' candidates /\ (cand_name c' = dep \/ cand_name c' = long_name dep) /\
                rank c' < rank c) ->
  exists st', import_plugins candidates st = Ok ([], st') /\
    forall c, In c candidates -> has_key st' (cand_name c) = true.
Proof.
  intros Hl Ht Hdeps. unfold import_plugins.
  destruct (import_loop (S (length candidates)) candidates 0 st) as [r|] eqn:E;
    [|exfalso; exact (proj1 (import_loop_enough _ candidates 0 st (Nat.lt_succ_diag_r _)) E)].
  destruct (import_loop_progress _ _ _ _ r Hl Ht E) as (left & st' & -> & Hg & Hin & Hsub & Hf).
  assert (Hnone : forall n c, rank c = n -> ~ In c left).
  { induction n as [n IHn] using lt_wf_ind. intros c Hr Hc.
    pose proof (proj1 (List.Forall_forall _ _) Hf c Hc) as Hd. cbn beta in Hd.
    unfold deps_loaded in Hd. rewrite <- Bool.not_true_iff_false, forallb_forall in Hd. apply Hd.
    intros dep Hdep. apply orb_true_iff.
    destruct (Hdeps c dep (Hsub c Hc) Hdep) as [H|[H|(c' & Hc' & Hn & Hlt)]];
      [left; apply Hg, H | right; apply Hg, H|].
    destruct (Hin c' Hc') as [Hl'|Hk]; [exfalso; exact (IHn (rank c') ltac:(lia) c' eq_refl Hl')|].
    destruct Hn as [<-|<-]; [left | right]; exact Hk. }
  destruct left as [|c rest]; [|exfalso; exact (Hnone _ c eq_refl (or_introl eq_refl))].
  exists st'. split; [reflexivity|]. intros c Hc. destruct (Hin c Hc) as [[]|Hk]; exact Hk.
Qed.

(** C21: disabling an enabled plugin whose [teardown] succeeds and
    enabling it again with a [setup] that succeeds restores the manager. *)
Theorem disable_enable_roundtrip st name key p :
  resolve st name = Ok (key, p) -> enabled p = true ->
  teardown_ok (pl_class p) = true -> setup_result (pl_class p) = SetupTrue ->
  exists st', disable_plugin st name = Ok st' /\ enable_plugin st' name = Ok st.
Proof.
  intros Hr He Ht Hs. unfold disable_plugin. rewrite Hr, He, Ht. simpl.
  eexists. split; [reflexivity|].
  unfold enable_plugin.
  rewrite (resolve_insert st (with_modules st (<[key := set_enabled p false]> (modules st)))
             name key p (set_enabled p false) Hr eq_refl). simpl.
  rewrite Hs. f_equal. destruct st as [m ev]. unfold with_modules. simpl in *. f_equal.
  rewrite insert_insert_eq, <- He, set_enabled_same.
  apply insert_id. exact (resolve_lookup _ _ _ _ Hr).
Qed.

(** C22: the refusal branches of [enable_plugin] and [disable_plugin]
    call [self.log], which [PluginManager] does not have: enabling an
    enabled plugin or disabling a disabled one raises [AttributeError]. *)
Theorem enable_disable_refusal_raises st name key p :
  resolve st name = Ok (key, p) ->
  (enabled p = true -> enable_plugin st name = Err AttributeError) /\
  (enabled p = false -> disable_plugin st name = Err AttributeError).
Proof.
  intros Hr. unfold enable_plugin, disable_plugin. rewrite Hr.
  split; intros He; rewrite He; reflexivity.
Qed.



End PluginManager.

Module PluginScenarios.
Import PluginManager.
Local Open Scope string_scope.

Lemma import_plugins_total_witness :
  length sample_candidates < 10 /\
  import_loop 10 sample_candidates 0 new_manager =
    Some (import_plugins sample_candidates new_manager).
Proof. split; [simpl; lia | apply import_plugins_total; simpl; lia]. Defined.

Lemma import_plugins_loads_all_witness :
  Forall loads sample_candidates /\ td_ok new_manager /\
  exists st', import_plugins sample_candidates new_manager = Ok ([], st') /\
    forall c, In c sample_candidates -> has_key st' (cand_name c) = true.
Proof.
  assert (Hl : Forall loads sample_candidates) by (repeat constructor).
  assert (Ht : td_ok new_manager) by (intros k p Hk; discriminate Hk).
  split; [exact Hl|]. split; [exact Ht|].
  apply (import_plugins_loads_all sample_candidates new_manager
           (fun c => length (DEPENDS (cand_class c))) Hl Ht).
  intros c dep Hc Hdep. right; right.
  destruct Hc as [<-|[<-|[<-|[]]]]; cbn in Hdep.
  - destruct Hdep as [<-|[<-|[]]]; [exists (cand "Models" []) | exists (cand "Tools" ["Models"])];
      (split; [cbn; tauto | split; [left; reflexivity | cbn; lia]]).
  - destruct Hdep.
  - destruct Hdep as [<-|[]]. exists (cand "Models" []).
    split; [cbn; tauto | split; [left; reflexivity | cbn; lia]].
Defined.

(** A plugin directory: the package file, a README, a broken module, a
    subdirectory named like a module, and two plugin modules whose
    classes are found in [dir] order. *)
Definition plugin_dir_listing (d : string) : option (list dir_entry) :=
  if String.eqb d "Plugins" then
    Some [{| entry_name := "__init__.py"; entry_is_file := true;
             entry_module := Some [("PluginBase", Some (plain_class []))] |};
          {| entry_name := "README"; entry_is_file := true; entry_module := None |};
          {| entry_name := "Broken.py"; entry_is_file := true; entry_module := None |};
          {| entry_name := "Old.py"; entry_is_file := false;
             entry_module := Some [("Old", Some (plain_class []))] |};
          {| entry_name := "Tasks.py"; entry_is_file := true;
             entry_module := Some [("Tasks", Some (plain_class ["Models"])); ("os", None)] |};
          {| entry_name := "Models.py"; entry_is_file := true;
             entry_module := Some [("Models", Some (plain_class []))] |}]
  else None.

Example import_plugins_dir_scan :
  scan_entries "Plugins" (default [] (plugin_dir_listing "Plugins")) =
    [{| cand_class := plain_class ["Models"]; cand_file := "Plugins/Tasks.py"; cand_name := "Tasks" |};
     {| cand_class := plain_class []; cand_file := "Plugins/Models.py"; cand_name := "Models" |}] /\
  get_plugin_names (snd (default ([], new_manager)
    (match import_plugins_dir plugin_dir_listing "Plugins" None new_manager with
     | Ok r => Some r | Err _ => None end))) = ["Models"; "Tasks"] /\
  import_plugins_dir plugin_dir_listing "Plugins" (Some "missing") new_manager = Ok ([], new_manager).
Proof. split; [reflexivity|]. split; vm_compute; reflexivity. Qed.

Lemma deps_closed_new : deps_closed new_manager.
Proof. intros k p d Hk. discriminate Hk. Qed.

Lemma import_plugins_deps_closed_witness :
  exists left st', deps_closed new_manager /\
    import_plugins sample_candidates new_manager = Ok (left, st') /\ deps_closed st'.
Proof.
  assert (H : exists left st', import_plugins sample_candidates new_manager = Ok (left, st'))
    by (do 2 eexists; vm_compute; reflexivity).
  destruct H as [left [st' H]]. exists left, st'.
  split; [exact deps_closed_new | split; [exact H |]].
  exact (import_plugins_deps_closed _ _ _ _ deps_closed_new H).
Defined.


Lemma disable_enable_roundtrip_witness :
  resolve long_name_registry "A" = Ok ("A.A", registered "A.A" [] true) /\
  enabled (registered "A.A" [] true) = true /\
  teardown_ok (pl_class (registered "A.A" [] true)) = true /\
  setup_result (pl_class (registered "A.A" [] true)) = SetupTrue /\
  exists st', disable_plugin long_name_registry "A" = Ok st' /\
              enable_plugin st' "A" = Ok long_name_registry.
Proof.
  assert (Hr : resolve long_name_registry "A" = Ok ("A.A", registered "A.A" [] true))
    by (vm_compute; reflexivity).
  split; [exact Hr | split; [reflexivity | split; [reflexivity | split; [reflexivity |]]]].
  exact (disable_enable_roundtrip _ _ _ _ Hr eq_refl eq_refl eq_refl).
Defined.

Lemma enable_disable_refusal_raises_witness :
  resolve long_name_registry "B" = Ok ("B", registered "B" ["A.A"] true) /\
  enable_plugin long_name_registry "B" = Err AttributeError.
Proof.
  assert (Hr : resolve long_name_registry "B" = Ok ("B", registered "B" ["A.A"] true))
    by (vm_compute; reflexivity).
  split; [exact Hr | exact (proj1 (enable_disable_refusal_raises _ _ _ _ Hr) eq_refl)].
Defined.


End PluginScenarios.
