(* ===== verification/PluginInit.v ===== *)
(** * PluginInit: constructing a plugin object

    Models [PluginBase.__init__] (lines 53-95 of
    [src/pycam/Plugins/__init__.py]): the attributes every plugin gets,
    the optional GTK builder file (whose windows share the core's
    accelerator group) and the loop over [ICONS], which replaces each
    icon file name by the pixbuf loaded for it, or by [None].  [ICONS]
    is a class attribute: the dict is an object of the store, named by
    the class (a subclass that does not redefine [ICONS] names its
    parent's dict), and [__init__] writes into it.  The file lookup
    [get_ui_file_location], [gtk.Builder.add_from_file] and
    [pixbuf_new_from_file_at_size] are outside [src/] and are section
    variables; the caches [_func_cache] and [_gtk_handler_id_cache],
    which start empty, are modelled in [Handlers]. *)

From Stdlib Require Import String List.
From stdpp Require Import gmap strings.
From S2P Require Import Prelude.
Import ListNotations.

Module PluginInit.

(** A value of an [ICONS] dict: a file name as the class declares it, a
    loaded pixbuf, or [None]. *)
Inductive icon : Type :=
  | IconFile (name : string)
  | Pixbuf (id : nat)
  | NoIcon.

(** An object of a builder file and the accelerator groups added to it. *)
Record ui_object : Type := {
  is_window : bool;
  accel_groups : list nat
}.

(** The class attributes [__init__] reads: [UI_FILE] and the dict
    object [ICONS] refers to. *)
Record plugin_class : Type := {
  UI_FILE : option string;
  cls_icons : nat
}.

(** The dict objects of the [ICONS] attributes, and the core's
    ["gtk-accel-group"]. *)
Record store : Type := {
  dicts : gmap nat (gmap string icon);
  core_accel : option nat
}.

(** The attributes [__init__] sets ([core] and [log] apart). *)
Record plugin_obj : Type := {
  enabled : bool;
  name : string;
  gui : option (list ui_object)
}.

Definition ICON_SIZE : nat := 23.

Section Init.
(** [pycam.Utils.locations.get_ui_file_location], applied to whatever
    value the attribute holds. *)
Variable get_ui_file_location : icon -> result (option string).
(** [gtk.Builder.add_from_file]: the objects, or [None] for the
    [RuntimeError] of a broken file. *)
Variable add_from_file : string -> option (list ui_object).
(** [gtk.gdk.pixbuf_new_from_file_at_size]: [None] for [gobject.GError]. *)
Variable pixbuf_new_from_file_at_size : string -> nat -> nat -> option nat.

(** [obj.add_accel_group(common_accel_group)] for every window. *)
Definition share_accel (g : nat) (objs : list ui_object) : list ui_object :=
  map (fun o => if is_window o then {| is_window := true; accel_groups := app (accel_groups o) [g] |}
                else o) objs.

(** Lines 57-77: [self.gui]; [if self.UI_FILE] and [if gtk_build_file]
    treat the empty string as false. *)
Definition load_gui (cls : plugin_class) (st : store) : result (option (list ui_object)) :=
  match UI_FILE cls with
  | None => Ok None
  | Some f =>
      if String.eqb f "" then Ok None
      else
        loc <- get_ui_file_location (IconFile f) ;;
        match loc with
        | None => Ok None
        | Some gtk_build_file =>
            if String.eqb gtk_build_file "" then Ok None else
            match add_from_file gtk_build_file with
            | None => Ok None
            | Some objs =>
                Ok (Some (match core_accel st with
                          | Some g => share_accel g objs
                          | None => objs
                          end))
            end
        end
  end.

(** The body of [for key in self.ICONS] (lines 79-92): the new value. *)
Definition update_icon (v : icon) : result icon :=
  icon_location <- get_ui_file_location v ;;
  match icon_location with
  | Some loc =>
      if String.eqb loc "" then Ok NoIcon
      else Ok (match pixbuf_new_from_file_at_size loc ICON_SIZE ICON_SIZE with
               | Some pixbuf => Pixbuf pixbuf
               | None => NoIcon
               end)
  | None => Ok NoIcon
  end.

(** The loop, writing into the dict as it goes: an exception leaves the
    values written before it. *)
Fixpoint icons_loop (keys : list string) (d : gmap string icon)
    : gmap string icon * option py_error :=
  match keys with
  | [] => (d, None)
  | key :: rest =>
      match d !! key with
      | None => icons_loop rest d
      | Some v =>
          match update_icon v with
          | Ok v' => icons_loop rest (<[key := v']> d)
          | Err e => (d, Some e)
          end
      end
  end.

(** [PluginBase(core, name)] (lines 53-95): the store afterwards (the
    class's [ICONS] dict rewritten) and the object or the exception. *)
Definition plugin_init (cls : plugin_class) (nm : string) (st : store)
    : store * result plugin_obj :=
  match load_gui cls st with
  | Err e => (st, Err e)
  | Ok g =>
      match dicts st !! cls_icons cls with
      | None => (st, Ok {| enabled := true; name := nm; gui := g |})
      | Some d =>
          let '(d', err) := icons_loop (map_to_list d).*1 d in
          let st' := {| dicts := <[cls_icons cls := d']> (dicts st); core_accel := core_accel st |} in
          match err with
          | Some e => (st', Err e)
          | None => (st', Ok {| enabled := true; name := nm; gui := g |})
          end
      end
  end.

End Init.

(** ** Lemmas *)

Section Lemmas.
Context (get_ui_file_location : icon -> result (option string))
        (pixbuf_new_from_file_at_size : string -> nat -> nat -> option nat).

(** What the loop leaves in a dict entry: a pixbuf or [None]. *)
Definition loaded (v : icon) : Prop := v = NoIcon \/ exists p, v = Pixbuf p.

Lemma update_icon_loaded v v' :
  update_icon get_ui_file_location pixbuf_new_from_file_at_size v = Ok v' -> loaded v'.
Proof.
  unfold update_icon. destruct (get_ui_file_location v) as [[l|]|e]; cbn; intros H; [|inv H; now left|discriminate].
  destruct (String.eqb l ""); [inv H; now left|].
  destruct (pixbuf_new_from_file_at_size l ICON_SIZE ICON_SIZE); inv H; [right; eexists; reflexivity | now left].
Qed.

(** A loop that does not raise keeps the keys, rewrites every key it
    visits to a loaded value and leaves the others alone. *)
Lemma icons_loop_spec keys d d' :
  icons_loop get_ui_file_location pixbuf_new_from_file_at_size keys d = (d', None) ->
  (forall k, is_Some (d !! k) <-> is_Some (d' !! k)) /\
  (forall k v, d' !! k = Some v -> In k keys -> loaded v) /\
  (forall k, ~ In k keys -> d' !! k = d !! k).
Proof.
  revert d. induction keys as [|key rest IH]; intros d H; cbn in H.
  - inv H. split; [tauto|]. split; [intros ? ? ? []|]. reflexivity.
  - destruct (d !! key) as [v|] eqn:Ek.
    + destruct (update_icon _ _ v) as [v'|e] eqn:Eu; [|discriminate].
      destruct (IH _ H) as (Hdom & Hl & Hout). split; [|split].
      * intros k. rewrite <- Hdom. destruct (decide (key = k)) as [<-|Hne].
        -- rewrite lookup_insert_eq, Ek. split; intros _; eexists; reflexivity.
        -- now rewrite lookup_insert_ne.
      * intros k w Hk [<-|Hin]; [|exact (Hl k w Hk Hin)].
        destruct (in_dec string_dec key rest) as [Hin|Hnin]; [exact (Hl key w Hk Hin)|].
        rewrite (Hout key Hnin), lookup_insert_eq in Hk. inv Hk. exact (update_icon_loaded _ _ Eu).
      * intros k Hk. rewrite Hout by (intros Hin; apply Hk; now right).
        rewrite lookup_insert_ne; [reflexivity|]. intros <-. apply Hk. now left.
    + destruct (IH _ H) as (Hdom & Hl & Hout). split; [exact Hdom|]. split.
      * intros k w Hk [<-|Hin]; [|exact (Hl k w Hk Hin)].
        exfalso. destruct (proj2 (Hdom key) (mk_is_Some _ _ Hk)) as [x Hx]. congruence.
      * intros k Hk. apply Hout. intros Hin. apply Hk. now right.
Qed.

End Lemmas.

(** ** Properties *)

Section Claims.
Context (get_ui_file_location : icon -> result (option string))
        (add_from_file : string -> option (list ui_object))
        (pixbuf_new_from_file_at_size : string -> nat -> nat -> option nat).

(** C35: [__init__] writes the loaded icons into the class attribute
    [ICONS] instead of into the object: after one successful
    construction the dict of the class (shared with every subclass that
    does not redefine [ICONS]) keeps its keys but holds only pixbufs or
    [None], so the icon file names are gone for every later
    construction; no other dict changes. *)
Theorem plugin_init_consumes_icons cls nm st st' obj d :
  dicts st !! cls_icons cls = Some d ->
  plugin_init get_ui_file_location add_from_file pixbuf_new_from_file_at_size cls nm st =
    (st', Ok obj) ->
  exists d', dicts st' !! cls_icons cls = Some d' /\
    (forall k, is_Some (d !! k) <-> is_Some (d' !! k)) /\
    (forall k v, d' !! k = Some v -> loaded v) /\
    (forall i, i <> cls_icons cls -> dicts st' !! i = dicts st !! i) /\
    enabled obj = true /\ name obj = nm.
Proof.
  intros Hd H. unfold plugin_init in H.
  destruct (load_gui _ _ _ _) as [g|e]; [|discriminate]. rewrite Hd in H.
  destruct (icons_loop _ _ _ _) as [d' [e|]] eqn:E; [discriminate|]. inv H.
  destruct (icons_loop_spec get_ui_file_location pixbuf_new_from_file_at_size _ _ _ E) as (Hdom & Hl & _).
  exists d'. cbn. rewrite lookup_insert_eq. split; [reflexivity|].
  split; [exact Hdom|]. split; [|split; [|split; reflexivity]].
  - intros k v Hk. apply (Hl k v Hk). destruct (proj2 (Hdom k) (mk_is_Some _ _ Hk)) as [x Hx].
    apply list_elem_of_In, list_elem_of_fmap. exists (k, x). split; [reflexivity|].
    now apply elem_of_map_to_list.
  - intros i Hi. now rewrite lookup_insert_ne by congruence.
Qed.

End Claims.

Module PluginInitScenarios.
Local Open Scope string_scope.

(** The icon lookup finds every file name; a value that is not a file
    name is not found (the debug branch of line 91). *)
Definition locate_files (v : icon) : result (option string) :=
  match v with IconFile f => Ok (Some ("ui/" +:+ f)) | _ => Ok None end.

Definition no_builder (_ : string) : option (list ui_object) := None.

Definition pixbuf_ok (_ : string) (_ _ : nat) : option nat := Some 1.

(** One [ICONS] dict (object 0) with one icon; [clsA] declares it and
    [clsB] is a subclass that inherits it. *)
Definition icons0 : gmap string icon := {["tool" := IconFile "tool.svg"]}.
Definition st0 : store := {| dicts := {[0 := icons0]}; core_accel := None |}.
Definition clsA : plugin_class := {| UI_FILE := None; cls_icons := 0 |}.
Definition clsB : plugin_class := {| UI_FILE := None; cls_icons := 0 |}.

Lemma plugin_init_consumes_icons_witness :
  dicts st0 !! cls_icons clsA = Some icons0 /\
  exists st1 obj,
    plugin_init locate_files no_builder pixbuf_ok clsA "A" st0 = (st1, Ok obj) /\
    exists d', dicts st1 !! cls_icons clsA = Some d' /\
      (forall k, is_Some (icons0 !! k) <-> is_Some (d' !! k)) /\
      (forall k v, d' !! k = Some v -> loaded v).
Proof.
  split; [reflexivity|].
  exists (fst (plugin_init locate_files no_builder pixbuf_ok clsA "A" st0)),
         {| enabled := true; name := "A"; gui := None |}.
  assert (H : plugin_init locate_files no_builder pixbuf_ok clsA "A" st0 =
              (fst (plugin_init locate_files no_builder pixbuf_ok clsA "A" st0),
               Ok {| enabled := true; name := "A"; gui := None |})) by (vm_compute; reflexivity).
  split; [exact H|].
  destruct (plugin_init_consumes_icons locate_files no_builder pixbuf_ok clsA "A" st0 _ _ _
              eq_refl H) as (d' & Hd' & Hdom & Hl & _).
  exists d'. split; [exact Hd'|]. split; [exact Hdom | exact Hl].
Defined.

(** Constructing the subclass after the class: the first construction
    loaded the pixbuf into the shared dict, the second looks it up as a
    file name, fails, and leaves [None]. *)
Example icons_lost_for_subclass :
  plugin_init locate_files no_builder pixbuf_ok clsA "A" st0 =
    ({| dicts := {[0 := {["tool" := Pixbuf 1]}]}; core_accel := None |},
     Ok {| enabled := true; name := "A"; gui := None |}) /\
  plugin_init locate_files no_builder pixbuf_ok clsB "B"
    {| dicts := {[0 := {["tool" := Pixbuf 1]}]}; core_accel := None |} =
    ({| dicts := {[0 := {["tool" := NoIcon]}]}; core_accel := None |},
     Ok {| enabled := true; name := "B"; gui := None |}).
Proof. split; vm_compute; reflexivity. Qed.

End PluginInitScenarios.

End PluginInit.
