(* ===== verification/ListPlugin.v ===== *)
(** * ListPlugin: the list actions of [ListPluginBase]

    Models [_list_action] (lines 561-604) and
    [_update_list_action_button_state] (lines 606-621) of
    [src/pycam/Plugins/__init__.py].  The plugin is a Python list whose
    mutating methods are wrapped (lines 430-444) so that every [pop] and
    [insert] is followed by [_update_model]; the model counts those
    updates.  The GTK selection is the list of selected row indices that
    [get_selected(index=True, force_list=True)] returns, and the new
    selection is returned instead of being written to the widget. *)

From Stdlib Require Import List Arith ZArith Lia Sorted Permutation.
From S2P Require Import Prelude.
Import ListNotations.

Module ListPlugin.

(** [ACTION_UP, ACTION_DOWN, ACTION_DELETE, ACTION_CLEAR = range(4)] *)
Inductive list_action : Type := ACTION_UP | ACTION_DOWN | ACTION_DELETE | ACTION_CLEAR.

Definition decode_action (n : nat) : option list_action :=
  match n with
  | 0 => Some ACTION_UP
  | 1 => Some ACTION_DOWN
  | 2 => Some ACTION_DELETE
  | 3 => Some ACTION_CLEAR
  | _ => None
  end.

(** [selected_items.sort()] on row indices. *)
Definition sort_asc (l : list nat) : list nat := sort_by Nat.leb l.

Section WithItem.
Context {A : Type}.

Record list_state : Type := {
  items : list A;
  updates : nat          (* calls of [_update_model] *)
}.

(** [list.pop(index)] *)
Definition py_pop (l : list A) (index : nat) : result (A * list A) :=
  match nth_error l index with
  | Some x => Ok (x, firstn index l ++ skipn (S index) l)
  | None => Err IndexError
  end.

(** [list.insert(index, item)]: an index past the end appends. *)
Definition py_insert (l : list A) (index : nat) (x : A) : list A :=
  firstn index l ++ x :: skipn index l.

(** The wrapped [pop] and [insert] of lines 437-444. *)
Definition pop_at (ls : list_state) (index : nat) : result (A * list_state) :=
  match py_pop (items ls) index with
  | Ok (x, l) => Ok (x, {| items := l; updates := S (updates ls) |})
  | Err e => Err e
  end.

Definition insert_at (ls : list_state) (index : nat) (x : A) : list_state :=
  {| items := py_insert (items ls) index x; updates := S (updates ls) |}.

(** One iteration of [for index in selected_items] (lines 580-596). *)
Definition action_step (act : list_action) (acc : list_state * list nat) (index : nat)
  : result (list_state * list nat) :=
  let '(ls, new_selection) := acc in
  match act with
  | ACTION_UP =>
      if 0 <? index then
        match pop_at ls index with
        | Ok (item, ls1) => Ok (insert_at ls1 (index - 1) item, new_selection ++ [index - 1])
        | Err e => Err e
        end
      else Ok acc
  | ACTION_DOWN =>
      if index <? length (items ls) - 1 then
        match pop_at ls index with
        | Ok (item, ls1) => Ok (insert_at ls1 (index + 1) item, new_selection ++ [index + 1])
        | Err e => Err e
        end
      else Ok acc
  | ACTION_DELETE =>
      match pop_at ls index with
      | Ok (_, ls1) =>
          if 0 <? length (items ls1)
          then Ok (ls1, new_selection ++ [Nat.min index (length (items ls1) - 1)])
          else Ok (ls1, new_selection)
      | Err e => Err e
      end
  | ACTION_CLEAR => Ok acc
  end.

Fixpoint action_loop (act : list_action) (selected : list nat) (acc : list_state * list nat)
  : result (list_state * list nat) :=
  match selected with
  | [] => Ok acc
  | index :: rest =>
      match action_step act acc index with
      | Ok acc1 => action_loop act rest acc1
      | Err e => Err e
      end
  end.

(** [while len(self) > 0: self.pop(0)] *)
Definition clear_all (ls : list_state) : list_state :=
  {| items := []; updates := updates ls + length (items ls) |}.

Definition update_model (ls : list_state) : list_state :=
  {| items := items ls; updates := S (updates ls) |}.

(** [_list_action] (lines 561-604).  [None] as selection: the action
    code was invalid and the widget's selection is left alone. *)
Definition list_action_run (action : nat) (selected : list nat) (ls : list_state)
  : result (list_state * option (list nat)) :=
  match decode_action action with
  | None => Ok (ls, None)
  | Some act =>
      let sel := sort_asc selected in
      let sel := match act with ACTION_DOWN | ACTION_DELETE => rev sel | _ => sel end in
      match act with
      | ACTION_CLEAR => Ok (update_model (clear_all ls), Some [])
      | _ =>
          match action_loop act sel (ls, []) with
          | Ok (ls1, new_selection) => Ok (update_model ls1, Some new_selection)
          | Err e => Err e
          end
      end
  end.

(** [_update_list_action_button_state] (lines 606-621): whether the
    button of [action] is sensitive. *)
Definition button_sensitive (action : nat) (paths : list nat) (ls : list_state) : bool :=
  match decode_action action with
  | Some ACTION_CLEAR => 0 <? length (items ls)
  | _ =>
      match paths with
      | [] => false
      | _ =>
          match decode_action action with
          | Some ACTION_UP => negb (existsb (Nat.eqb 0) paths)
          | Some ACTION_DOWN =>
              negb (existsb (fun p => Z.eqb (Z.of_nat p) (Z.of_nat (length (items ls)) - 1)) paths)
          | _ => true
          end
      end
  end.

(** Exchange the items at [i] and [i + 1]. *)
Definition swap_next (l : list A) (i : nat) : list A :=
  match skipn i l with
  | a :: b :: rest => firstn i l ++ b :: a :: rest
  | _ => l
  end.

(** The items whose position, counted from [k], is not selected. *)
Fixpoint keep_unselected (sel : list nat) (k : nat) (l : list A) : list A :=
  match l with
  | [] => []
  | x :: l' => if existsb (Nat.eqb k) sel then keep_unselected sel (S k) l'
               else x :: keep_unselected sel (S k) l'
  end.

End WithItem.
Arguments list_state : clear implicits.

(** ** Sorting the selection *)

Lemma sort_asc_perm l : Permutation (sort_asc l) l.
Proof. apply sort_by_perm. Qed.

Lemma sort_asc_sorted l : Sorted le (sort_asc l).
Proof.
  apply sort_by_sorted; intros a b H; [apply Nat.leb_le, H | apply Nat.leb_gt in H; lia].
Qed.

Lemma sort_asc_id l : Sorted le l -> sort_asc l = l.
Proof.
  unfold sort_asc, sort_by. induction 1 as [|x l Hs IH Hhd]; [reflexivity|]. simpl. rewrite IH.
  destruct l as [|y l]; [reflexivity|]. inv Hhd. simpl.
  now apply Nat.leb_le in H0 as ->.
Qed.

Lemma sorted_map_mono (f : nat -> nat) l :
  (forall a b, a <= b -> f a <= f b) -> Sorted le l -> Sorted le (map f l).
Proof.
  intros Hf. induction 1 as [|x l Hs IH Hhd]; simpl; constructor; [exact IH|].
  destruct Hhd; simpl; constructor. now apply Hf.
Qed.

Lemma sorted_nodup_strict l : Sorted le l -> NoDup l -> StronglySorted lt l.
Proof.
  intros Hs. apply Sorted_StronglySorted in Hs; [|exact Nat.le_trans].
  induction Hs as [|x l Hs IH Hall]; intros Hnd; constructor.
  - apply IH. now inv Hnd.
  - inv Hnd. apply Forall_forall. intros y Hy.
    pose proof (proj1 (Forall_forall _ _) Hall y Hy).
    assert (x <> y) by (intros ->; contradiction). lia.
Qed.

Lemma strongly_sorted_app {B} (R : B -> B -> Prop) l1 l2 :
  StronglySorted R l1 -> StronglySorted R l2 ->
  (forall a b, In a l1 -> In b l2 -> R a b) -> StronglySorted R (l1 ++ l2).
Proof.
  induction 1 as [|x l1 Hs IH Hall]; intros H2 Hr; simpl; [exact H2|].
  constructor.
  - apply IH; [exact H2|]. intros a b Ha Hb. apply Hr; [right|]; assumption.
  - apply Forall_app. split; [exact Hall|].
    apply Forall_forall. intros b Hb. apply Hr; [left|]; auto.
Qed.

Lemma strongly_sorted_rev {B} (R : B -> B -> Prop) l :
  StronglySorted R l -> StronglySorted (fun a b => R b a) (rev l).
Proof.
  induction 1 as [|x l Hs IH Hall]; simpl; [constructor|].
  apply strongly_sorted_app; [exact IH | repeat constructor |].
  intros a b Ha [<-|[]]. apply in_rev in Ha.
  exact (proj1 (Forall_forall _ _) Hall a Ha).
Qed.

(** ** Lemmas on the list operations *)

Section Lemmas.
Context {A : Type}.
Implicit Types (l : list A) (ls : list_state A).

Lemma py_pop_ok l i : i < length l ->
  exists x, nth_error l i = Some x /\ py_pop l i = Ok (x, firstn i l ++ skipn (S i) l).
Proof.
  intros H. destruct (nth_error l i) as [x|] eqn:E.
  - exists x. unfold py_pop. now rewrite E.
  - apply nth_error_None in E. lia.
Qed.

Lemma nth_error_lt l i x : nth_error l i = Some x -> i < length l.
Proof. intros H. apply nth_error_Some. congruence. Qed.

Lemma skipn_nth_error l i x : nth_error l i = Some x -> skipn i l = x :: skipn (S i) l.
Proof.
  revert i. induction l as [|y l IH]; intros [|i] H; simpl in *; try discriminate.
  - now inv H.
  - now apply IH.
Qed.

Lemma firstn_S_nth l i x : nth_error l i = Some x -> firstn (S i) l = firstn i l ++ [x].
Proof.
  revert i. induction l as [|y l IH]; intros [|i] H; simpl in *; try discriminate.
  - now inv H.
  - now rewrite (IH i H).
Qed.

(** [pop(i)] then [insert(i - 1, item)] exchanges [i - 1] and [i]. *)
Lemma firstn_app_exact l (r : list A) j :
  length l = j -> firstn j (l ++ r) = l /\ skipn j (l ++ r) = r.
Proof.
  intros <-. rewrite firstn_app, skipn_app, Nat.sub_diag, firstn_all, skipn_all. simpl.
  now rewrite app_nil_r.
Qed.

(** [pop(i)] then [insert(i - 1, item)] exchanges [i - 1] and [i]. *)
Lemma pop_insert_up l i x :
  0 < i -> nth_error l i = Some x ->
  py_insert (firstn i l ++ skipn (S i) l) (i - 1) x = swap_next l (i - 1).
Proof.
  intros Hi Hx. destruct i as [|j]; [lia|]. replace (S j - 1) with j by lia.
  destruct (nth_error l j) as [y|] eqn:Hy.
  2: { apply nth_error_None in Hy. apply nth_error_lt in Hx. lia. }
  assert (Hlen : length (firstn j l) = j) by (rewrite length_firstn; apply nth_error_lt in Hy; lia).
  unfold py_insert, swap_next. rewrite (skipn_nth_error _ _ _ Hy), (skipn_nth_error _ _ _ Hx).
  rewrite (firstn_S_nth _ _ _ Hy), <- app_assoc.
  destruct (firstn_app_exact (firstn j l) ([y] ++ skipn (S (S j)) l) j Hlen) as [-> ->].
  reflexivity.
Qed.

(** [pop(i)] then [insert(i + 1, item)] exchanges [i] and [i + 1]. *)
Lemma pop_insert_down l i x :
  S i < length l -> nth_error l i = Some x ->
  py_insert (firstn i l ++ skipn (S i) l) (i + 1) x = swap_next l i.
Proof.
  intros Hi Hx. destruct (nth_error l (S i)) as [y|] eqn:Hy.
  2: { apply nth_error_None in Hy. lia. }
  assert (Hlen : length (firstn i l) = i) by (rewrite length_firstn; lia).
  unfold py_insert, swap_next. rewrite (skipn_nth_error _ _ _ Hx), (skipn_nth_error _ _ _ Hy).
  replace (i + 1) with (S i) by lia.
  rewrite firstn_app, skipn_app, Hlen. replace (S i - i) with 1 by lia.
  rewrite firstn_firstn, Nat.min_r by lia. rewrite (skipn_all2 (firstn i l)) by lia.
  simpl. now rewrite <- app_assoc.
Qed.

Lemma swap_next_invol l i : swap_next (swap_next l i) i = l.
Proof.
  unfold swap_next. destruct (skipn i l) as [|a [|b rest]] eqn:E; try (now rewrite E).
  assert (Hlen : length (firstn i l) = i).
  { rewrite length_firstn. apply Nat.min_l.
    destruct (Nat.le_gt_cases i (length l)) as [H|H]; [exact H|].
    rewrite skipn_all2 in E by lia. discriminate. }
  destruct (firstn_app_exact (firstn i l) (b :: a :: rest) i Hlen) as [-> ->].
  rewrite <- E. apply firstn_skipn.
Qed.

Lemma length_swap_next l i : length (swap_next l i) = length l.
Proof.
  unfold swap_next. destruct (skipn i l) as [|a [|b rest]] eqn:E; try reflexivity.
  rewrite <- (firstn_skipn i l) at 2. rewrite E, !length_app. reflexivity.
Qed.

Lemma fold_swap_length l js : length (fold_left swap_next js l) = length l.
Proof.
  revert l. induction js as [|i js IH]; intros l; simpl; [reflexivity|].
  rewrite IH. apply length_swap_next.
Qed.

(** Undoing a sequence of exchanges in the reverse order. *)
Lemma fold_swap_rev l js : fold_left swap_next (rev js) (fold_left swap_next js l) = l.
Proof.
  revert l. induction js as [|i js IH]; intros l; simpl; [reflexivity|].
  rewrite fold_left_app, IH. simpl. apply swap_next_invol.
Qed.

Lemma action_loop_app act s1 s2 (acc : list_state A * list nat) :
  action_loop act (s1 ++ s2) acc =
  match action_loop act s1 acc with Ok acc1 => action_loop act s2 acc1 | Err e => Err e end.
Proof.
  revert acc. induction s1 as [|i s1 IH]; intros acc; simpl; [reflexivity|].
  destruct (action_step act acc i); [apply IH | reflexivity].
Qed.

(** The UP loop over indices in [1, len) exchanges each with its
    predecessor, one pop and one insert per index. *)
Lemma action_loop_up sel ls ns :
  (forall i, In i sel -> 0 < i < length (items ls)) ->
  action_loop ACTION_UP sel (ls, ns) =
  Ok ({| items := fold_left swap_next (map pred sel) (items ls);
         updates := updates ls + 2 * length sel |}, ns ++ map pred sel).
Proof.
  revert ls ns. induction sel as [|i sel IH]; intros ls ns Hin; simpl.
  - rewrite app_nil_r, Nat.add_0_r. now destruct ls.
  - destruct (Hin i (or_introl eq_refl)) as [Hi0 Hil].
    destruct (py_pop_ok _ _ Hil) as [x [Hx Hpop]].
    apply Nat.ltb_lt in Hi0 as Hb. rewrite Hb. unfold pop_at. rewrite Hpop.
    unfold insert_at; cbn [items updates]. rewrite (pop_insert_up _ _ _ Hi0 Hx).
    replace (i - 1) with (pred i) by lia. rewrite IH; cbn [items updates].
    + rewrite <- app_assoc. do 3 f_equal. lia.
    + intros j Hj. rewrite length_swap_next. now apply Hin; right.
Qed.

(** The DOWN loop over indices below [len - 1] exchanges each with its
    successor. *)
Lemma action_loop_down sel ls ns :
  (forall i, In i sel -> S i < length (items ls)) ->
  action_loop ACTION_DOWN sel (ls, ns) =
  Ok ({| items := fold_left swap_next sel (items ls);
         updates := updates ls + 2 * length sel |}, ns ++ map S sel).
Proof.
  revert ls ns. induction sel as [|i sel IH]; intros ls ns Hin; simpl.
  - rewrite app_nil_r, Nat.add_0_r. now destruct ls.
  - pose proof (Hin i (or_introl eq_refl)) as Hil.
    destruct (py_pop_ok (items ls) i ltac:(lia)) as [x [Hx Hpop]].
    assert (Hb : (i <? length (items ls) - 1) = true) by (apply Nat.ltb_lt; lia).
    rewrite Hb. unfold pop_at. rewrite Hpop.
    unfold insert_at; cbn [items updates]. rewrite (pop_insert_down _ _ _ Hil Hx).
    rewrite IH; cbn [items updates].
    + rewrite <- app_assoc, Nat.add_1_r. do 3 f_equal. lia.
    + intros j Hj. rewrite length_swap_next. now apply Hin; right.
Qed.

Lemma keep_unselected_none sel k l :
  (forall j, In j sel -> j < k) -> keep_unselected sel k l = l.
Proof.
  revert k. induction l as [|x l IH]; intros k Hk; simpl; [reflexivity|].
  destruct (existsb (Nat.eqb k) sel) eqn:E.
  - apply existsb_exists in E as [j [Hj Hkj]]. apply Nat.eqb_eq in Hkj; subst.
    specialize (Hk _ Hj). lia.
  - f_equal. apply IH. intros j Hj. specialize (Hk _ Hj). lia.
Qed.

Lemma keep_unselected_ext s1 s2 k l :
  (forall j, In j s1 <-> In j s2) -> keep_unselected s1 k l = keep_unselected s2 k l.
Proof.
  intros Hs. revert k. induction l as [|x l IH]; intros k; simpl; [reflexivity|].
  replace (existsb (Nat.eqb k) s2) with (existsb (Nat.eqb k) s1).
  - now rewrite IH.
  - apply Bool.eq_iff_eq_true. rewrite !existsb_exists.
    split; intros [j [Hj Hkj]]; exists j; split; try apply Hs; assumption.
Qed.

(** Popping row [i] removes the row at position [k + i] when no later
    row is selected. *)
Lemma keep_unselected_pop sel k l i :
  i < length l -> (forall j, In j sel -> j < k + i) ->
  keep_unselected sel k (firstn i l ++ skipn (S i) l) = keep_unselected ((k + i) :: sel) k l.
Proof.
  revert k i. induction l as [|x l IH]; intros k i Hi Hsel; simpl in Hi; [lia|].
  destruct i as [|i]; simpl.
  - rewrite Nat.add_0_r, Nat.eqb_refl. simpl.
    rewrite !keep_unselected_none; [reflexivity| |].
    + intros j [<-|Hj]; [lia|]. specialize (Hsel _ Hj). lia.
    + intros j Hj. specialize (Hsel _ Hj). lia.
  - replace (k =? k + S i) with false by (symmetry; apply Nat.eqb_neq; lia). simpl.
    replace (k + S i) with (S k + i) by lia.
    rewrite IH by (lia || (intros j Hj; specialize (Hsel _ Hj); lia)). reflexivity.
Qed.

Lemma length_pop l i : i < length l -> length (firstn i l ++ skipn (S i) l) = length l - 1.
Proof. intros Hi. rewrite length_app, length_firstn, length_skipn. lia. Qed.

(** The DELETE loop over strictly decreasing rows pops each of them; the
    rows left are the unselected ones, in order. *)
Lemma action_loop_delete sel ls ns :
  StronglySorted (fun a b => b < a) sel -> (forall i, In i sel -> i < length (items ls)) ->
  exists ns', action_loop ACTION_DELETE sel (ls, ns) =
    Ok ({| items := keep_unselected sel 0 (items ls);
           updates := updates ls + length sel |}, ns').
Proof.
  intros Hs. revert ls ns. induction Hs as [|i sel Hs IH Hall]; intros ls ns Hin; simpl.
  - exists ns. rewrite keep_unselected_none, Nat.add_0_r by (intros ? []). now destruct ls.
  - pose proof (Hin i (or_introl eq_refl)) as Hil.
    destruct (py_pop_ok _ _ Hil) as [x [Hx Hpop]]. unfold pop_at. rewrite Hpop.
    assert (Hlt : forall j, In j sel -> j < i) by (apply Forall_forall; exact Hall).
    set (ls1 := {| items := firstn i (items ls) ++ skipn (S i) (items ls); updates := S (updates ls) |}).
    assert (Hin1 : forall j, In j sel -> j < length (items ls1)).
    { intros j Hj. cbn [items ls1]. rewrite length_pop by exact Hil. specialize (Hlt _ Hj). lia. }
    assert (Hk : keep_unselected sel 0 (items ls1) = keep_unselected (i :: sel) 0 (items ls))
      by exact (keep_unselected_pop sel 0 (items ls) i Hil Hlt).
    destruct (0 <? length (items ls1));
      [destruct (IH ls1 (ns ++ [Nat.min i (length (items ls1) - 1)]) Hin1) as [ns' ->]
      |destruct (IH ls1 ns Hin1) as [ns' ->]];
      exists ns'; rewrite Hk; cbn [ls1 updates]; do 3 f_equal; lia.
Qed.

Lemma button_up_spec sel ls :
  button_sensitive 0 sel ls = true -> sel <> [] /\ forall i, In i sel -> 0 < i.
Proof.
  unfold button_sensitive. simpl. destruct sel as [|j sel]; [discriminate|].
  intros H. split; [discriminate|]. intros i Hi.
  destruct i as [|i]; [|lia]. exfalso.
  apply Bool.negb_true_iff, Bool.not_true_iff_false in H. apply H, existsb_exists.
  exists 0. split; [exact Hi | reflexivity].
Qed.

Lemma button_down_intro sel ls :
  sel <> [] -> (forall i, In i sel -> S i < length (items ls)) -> button_sensitive 1 sel ls = true.
Proof.
  unfold button_sensitive. simpl. destruct sel as [|j sel']; [congruence|]. intros _ Hin.
  apply Bool.negb_true_iff, Bool.not_true_iff_false. intros H.
  apply existsb_exists in H as [p [Hp Heq]]. apply Z.eqb_eq in Heq.
  specialize (Hin _ Hp). lia.
Qed.

Lemma in_sort_asc (l : list nat) i : In i (sort_asc l) <-> In i l.
Proof. split; apply Permutation_in; [|symmetry]; apply sort_asc_perm. Qed.

End Lemmas.

(** ** Properties *)

Section Properties.
Context {A : Type}.

(** C25: moving the selected rows up and then moving the new selection
    down restores the list and reselects the rows (in the descending order
    the DOWN loop visits them).  The hypotheses are what the GUI ensures:
    the UP button is sensitive (a nonempty selection without row 0) and
    every selected row exists.  After the UP action the DOWN button is
    sensitive for the new selection. *)
Theorem list_action_up_down_roundtrip (sel : list nat) (ls : list_state A) :
  button_sensitive 0 sel ls = true ->
  (forall i, In i sel -> i < length (items ls)) ->
  exists ls1 sel1 ls2,
    list_action_run 0 sel ls = Ok (ls1, Some sel1) /\
    button_sensitive 1 sel1 ls1 = true /\
    list_action_run 1 sel1 ls1 = Ok (ls2, Some (rev (sort_asc sel))) /\
    items ls2 = items ls.
Proof.
  intros Hb Hin. destruct (button_up_spec _ _ Hb) as [Hne Hpos].
  set (srt := sort_asc sel).
  assert (Hs : forall i, In i srt -> 0 < i < length (items ls))
    by (intros i Hi; apply (in_sort_asc sel) in Hi; split; [apply Hpos | apply Hin]; exact Hi).
  assert (Hsorted : sort_asc (map pred srt) = map pred srt)
    by (apply sort_asc_id, sorted_map_mono, sort_asc_sorted; intros; lia).
  pose proof (action_loop_up srt ls [] Hs) as Hup.
  set (ls1 := update_model {| items := fold_left swap_next (map pred srt) (items ls);
                              updates := updates ls + 2 * length srt |}).
  assert (Hd : forall j, In j (rev (map pred srt)) -> S j < length (items ls1)).
  { intros j Hj. apply in_rev, in_map_iff in Hj as [i [<- Hi]].
    cbn [ls1 update_model items]. rewrite fold_swap_length. specialize (Hs _ Hi). lia. }
  exists ls1, (map pred srt).
  eexists. split; [|split; [|split]].
  - unfold list_action_run. simpl. fold srt. now rewrite Hup.
  - apply button_down_intro.
    + intros Hnil. apply map_eq_nil in Hnil. apply Hne.
      destruct sel as [|j sel]; [reflexivity|].
      pose proof (proj2 (in_sort_asc (j :: sel) j) (or_introl eq_refl)). fold srt in H.
      rewrite Hnil in H. contradiction.
    + intros j Hj. apply Hd, in_rev. now rewrite rev_involutive.
  - unfold list_action_run. simpl. rewrite Hsorted, (action_loop_down _ ls1 [] Hd).
    do 4 f_equal. rewrite map_rev, map_map. f_equal. simpl.
    rewrite <- (map_id srt) at 2. f_equal. apply map_ext_in. intros i Hi. specialize (Hs _ Hi). lia.
  - cbn [ls1 update_model items]. apply fold_swap_rev.
Qed.

(** C26: deleting a set of selected rows (distinct, all present) leaves
    exactly the unselected rows, in their order; every pop notifies the
    model once and the action notifies it once more at the end. *)
Theorem list_action_delete_spec (sel : list nat) (ls : list_state A) :
  NoDup sel -> (forall i, In i sel -> i < length (items ls)) ->
  exists ns, list_action_run 2 sel ls =
    Ok ({| items := keep_unselected sel 0 (items ls);
           updates := S (updates ls + length sel) |}, Some ns).
Proof.
  intros Hnd Hin. set (srt := sort_asc sel).
  assert (Hss : StronglySorted (fun a b => b < a) (rev srt)).
  { apply (strongly_sorted_rev lt), sorted_nodup_strict; [apply sort_asc_sorted|].
    apply (Permutation_NoDup (Permutation_sym (sort_asc_perm sel))), Hnd. }
  assert (Hr : forall i, In i (rev srt) -> i < length (items ls))
    by (intros i Hi; apply Hin, (in_sort_asc sel), in_rev, Hi).
  destruct (action_loop_delete (rev srt) ls [] Hss Hr) as [ns Hdel].
  exists ns. unfold list_action_run. simpl. fold srt. rewrite Hdel. unfold update_model.
  cbn [items updates]. rewrite length_rev. unfold srt. rewrite (Permutation_length (sort_asc_perm sel)).
  do 3 f_equal. apply keep_unselected_ext. intros j.
  rewrite <- in_rev. apply (in_sort_asc sel).
Qed.

End Properties.

(** ** Scenarios *)

Module ListScenarios.

Definition rows3 : list_state nat := {| items := [10; 11; 12]; updates := 0 |}.

(** The UP action does not itself refuse a selection that contains
    row 0 (only the button's sensitivity does): with rows 0 and 1
    selected, row 0 stays, row 1 moves above it, the two selected items
    change their order and the first one is no longer selected. *)
Example list_action_up_top_row :
  list_action_run 0 [0; 1] rows3 = Ok ({| items := [11; 10; 12]; updates := 3 |}, Some [0]).
Proof. reflexivity. Qed.

(** After DELETE the new selection is computed from the length at
    each pop, so it can name a row that a later pop removed: deleting rows
    1 and 2 of three leaves one row, and the new selection is [1; 0]. *)
Example list_action_delete_stale_selection :
  list_action_run 2 [1; 2] rows3 = Ok ({| items := [10]; updates := 3 |}, Some [1; 0]).
Proof. reflexivity. Qed.

Lemma list_action_up_down_roundtrip_witness :
  button_sensitive 0 [1; 2] rows3 = true /\
  (forall i, In i [1; 2] -> i < length (items rows3)) /\
  exists ls1 sel1 ls2,
    list_action_run 0 [1; 2] rows3 = Ok (ls1, Some sel1) /\
    button_sensitive 1 sel1 ls1 = true /\
    list_action_run 1 sel1 ls1 = Ok (ls2, Some (rev (sort_asc [1; 2]))) /\
    items ls2 = items rows3.
Proof.
  assert (Hin : forall i, In i [1; 2] -> i < length (items rows3))
    by (intros i [<-|[<-|[]]]; simpl; lia).
  split; [reflexivity | split; [exact Hin|]].
  apply (list_action_up_down_roundtrip [1; 2] rows3); [reflexivity | exact Hin].
Defined.

Lemma list_action_delete_spec_witness :
  NoDup [0; 2] /\ (forall i, In i [0; 2] -> i < length (items rows3)) /\
  exists ns, list_action_run 2 [0; 2] rows3 =
    Ok ({| items := keep_unselected [0; 2] 0 (items rows3);
           updates := S (updates rows3 + length [0; 2]) |}, Some ns).
Proof.
  assert (Hnd : NoDup [0; 2]) by (repeat constructor; simpl; lia).
  assert (Hin : forall i, In i [0; 2] -> i < length (items rows3))
    by (intros i [<-|[<-|[]]]; simpl; lia).
  split; [exact Hnd | split; [exact Hin|]].
  apply (list_action_delete_spec [0; 2] rows3 Hnd Hin).
Defined.

End ListScenarios.

End ListPlugin.
