(* ===== verification/Filter.v ===== *)
(** * Filter: [filter_list] and [get_filter]

    Models [filter_list] (lines 750-781) and [get_filter] (783-784) of
    [src/pycam/Plugins/__init__.py].  The items are any values that can
    be subscripted by a string key ([item[filter_key]], [None] for a
    missing key, which raises [KeyError]); the keyword values are compared
    with a decidable [==].  The single positional argument is a value that
    is either an integer, an iterable of such arguments, or anything else
    (not iterable and not an index).  Logging is not modelled. *)

From Stdlib Require Import String List ZArith Lia.
From stdpp Require Import base decidable list.
From S2P Require Import Prelude.
Import ListNotations.

Module Filter.

(** The positional argument [args[0]]. *)
Inductive index_arg : Type :=
  | IInt (z : Z)                     (* an int: an index, not iterable *)
  | IIter (xs : list index_arg)      (* a list or tuple of indices *)
  | IOther.                          (* e.g. None: neither *)

Section WithItems.
Context {Item V : Type} `{EqDecision V}.
Context (get : Item -> string -> option V).

(** [items[z]] with Python's negative indices. *)
Definition py_index (items : list Item) (z : Z) : result Item :=
  let n := Z.of_nat (length items) in
  let i := if (z <? 0)%Z then (z + n)%Z else z in
  if ((0 <=? i) && (i <? n))%Z then
    match nth_error items (Z.to_nat i) with Some x => Ok x | None => Err IndexError end
  else Err IndexError.

(** [items[a]]: only an int is a list index. *)
Definition subscript_index (items : list Item) (a : index_arg) : result Item :=
  match a with IInt z => py_index items z | _ => Err TypeError end.

(** [[items[index] for index in args[0]]] *)
Definition comprehension (items : list Item) (a : index_arg) : result (list Item) :=
  match a with
  | IIter xs =>
      (fix go (xs : list index_arg) : result (list Item) :=
         match xs with
         | [] => Ok []
         | x :: rest => y <- subscript_index items x ;; ys <- go rest ;; Ok (y :: ys)
         end) xs
  | _ => Err TypeError                (* iter() of a non-iterable *)
  end.

(** The inner [for filter_key in kwargs] loop: [true] when it ends
    without [break]. *)
Fixpoint kw_loop (item : Item) (kwargs : list (string * V)) : bool :=
  match kwargs with
  | [] => true
  | (k, v) :: rest =>
      match get item k with
      | None => false                                  (* KeyError: break *)
      | Some x => if decide (x = v) then kw_loop item rest else false
      end
  end.

(** The outer loop with its [for ... else: result.append(item)]. *)
Fixpoint result_loop (items : list Item) (kwargs : list (string * V)) : list Item :=
  match items with
  | [] => []
  | item :: rest =>
      if kw_loop item kwargs then item :: result_loop rest kwargs else result_loop rest kwargs
  end.

Definition filter_list (items : list Item) (args : list index_arg) (kwargs : list (string * V))
  : result (list Item) :=
  match args with
  | _ :: _ :: _ => Ok []                              (* more than one argument *)
  | [a] =>
      match comprehension items a with
      | Ok selected => Ok (result_loop selected kwargs)
      | Err TypeError =>
          match subscript_index items a with
          | Ok x => Ok (result_loop [x] kwargs)
          | Err IndexError | Err TypeError => Ok []       (* logged; return [] *)
          | Err e => Err e
          end
      | Err e => Err e
      end
  | [] => Ok (result_loop items kwargs)
  end.

(** [get_filter(items)] *)
Definition get_filter (items : list Item) : list index_arg -> list (string * V) -> result (list Item) :=
  filter_list items.

(** An item matches when every keyword is one of its keys with an equal
    value. *)
Definition matches (kwargs : list (string * V)) (item : Item) : bool :=
  forallb (fun kv => bool_decide (get item kv.1 = Some kv.2)) kwargs.

(** An index that [py_index] accepts. *)
Definition valid_index (items : list Item) (a : index_arg) : Prop :=
  match a with
  | IInt z => (- Z.of_nat (length items) <= z < Z.of_nat (length items))%Z
  | _ => False
  end.

(** The position [items[z]] reads. *)
Definition py_pos (items : list Item) (z : Z) : nat :=
  Z.to_nat (if (z <? 0)%Z then z + Z.of_nat (length items) else z)%Z.

Lemma kw_loop_matches item kwargs : kw_loop item kwargs = matches kwargs item.
Proof.
  induction kwargs as [|[k v] rest IH]; [reflexivity|]. simpl.
  destruct (get item k) as [x|] eqn:E.
  - destruct (decide (x = v)) as [->|Hne].
    + rewrite bool_decide_eq_true_2 by reflexivity. exact IH.
    + rewrite bool_decide_eq_false_2; [reflexivity | congruence].
  - rewrite bool_decide_eq_false_2; [reflexivity | congruence].
Qed.

Lemma result_loop_filter items kwargs : result_loop items kwargs = List.filter (matches kwargs) items.
Proof.
  induction items as [|it rest IH]; [reflexivity|]. simpl.
  rewrite kw_loop_matches, IH. reflexivity.
Qed.

Lemma py_index_valid items z :
  valid_index items (IInt z) -> exists x, py_index items z = Ok x /\
    nth_error items (py_pos items z) = Some x.
Proof.
  simpl. intros Hz. unfold py_index.
  set (i := if (z <? 0)%Z then (z + Z.of_nat (length items))%Z else z).
  assert (Hi : (0 <= i < Z.of_nat (length items))%Z)
    by (unfold i; destruct (Z.ltb_spec z 0); lia).
  replace ((0 <=? i) && (i <? Z.of_nat (length items)))%Z with true
    by (symmetry; apply andb_true_iff; split; [apply Z.leb_le | apply Z.ltb_lt]; lia).
  destruct (nth_error items (Z.to_nat i)) as [x|] eqn:E; [eauto|].
  apply nth_error_None in E. lia.
Qed.

Lemma comprehension_valid items idx :
  Forall (valid_index items) idx ->
  exists selected, comprehension items (IIter idx) = Ok selected /\
    Forall2 (fun a x => exists z, a = IInt z /\ nth_error items (py_pos items z) = Some x) idx selected.
Proof.
  induction 1 as [|a rest Ha Hrest IH]; [exists []; split; [reflexivity | constructor]|].
  destruct a as [z| |]; try contradiction.
  destruct (py_index_valid items z Ha) as (x & Hx & Hnth).
  destruct IH as (sel & Hsel & HF).
  exists (x :: sel). split.
  - change (comprehension items (IIter (IInt z :: rest)))
      with (y <- py_index items z ;; ys <- comprehension items (IIter rest) ;; Ok (y :: ys)).
    now rewrite Hx, Hsel.
  - constructor; [exists z; split; [reflexivity | exact Hnth] | exact HF].
Qed.

(** C34: with one positional argument that lists valid indices,
    [filter_list] picks [items[index]] for each index, in the order of
    the argument and with Python's negative indices, and keeps those
    whose attributes equal every keyword value (a missing attribute
    excludes the item). *)
Theorem filter_list_indices_spec items idx kwargs :
  Forall (valid_index items) idx ->
  exists selected,
    filter_list items [IIter idx] kwargs = Ok (List.filter (matches kwargs) selected) /\
    Forall2 (fun a x => exists z, a = IInt z /\ nth_error items (py_pos items z) = Some x) idx selected.
Proof.
  intros Hv. destruct (comprehension_valid items idx Hv) as (sel & Hsel & HF).
  exists sel. split; [|exact HF].
  unfold filter_list. rewrite Hsel. now rewrite result_loop_filter.
Qed.

End WithItems.

Module FilterScenarios.
Local Open Scope string_scope.

(** Items as association lists of attributes with integer values. *)
Definition attr (item : list (string * Z)) (k : string) : option Z :=
  match find (fun kv => String.eqb kv.1 k) item with Some kv => Some kv.2 | None => None end.

Definition tools : list (list (string * Z)) :=
  [[("id", 0%Z); ("shape", 1%Z)]; [("id", 1%Z); ("shape", 2%Z)]; [("id", 2%Z); ("shape", 1%Z)]].

(** An index out of range is handled differently depending on how
    it is passed: alone it is caught and [filter_list] returns [[]]; in a
    list the [IndexError] of the comprehension is not caught (only
    [TypeError] is) and escapes. *)
Example filter_list_index_error_escapes :
  filter_list attr tools [IInt 5] [] = Ok [] /\
  filter_list attr tools [IIter [IInt 0; IInt 5]] [] = Err IndexError.
Proof. split; reflexivity. Qed.

Lemma filter_list_indices_spec_witness :
  Forall (valid_index tools) [IInt (-1); IInt 0] /\
  exists selected,
    filter_list attr tools [IIter [IInt (-1); IInt 0]] [("shape", 1%Z)] =
      Ok (List.filter (matches attr [("shape", 1%Z)]) selected) /\
    Forall2 (fun a x => exists z, a = IInt z /\ nth_error tools (py_pos tools z) = Some x)
      [IInt (-1); IInt 0] selected.
Proof.
  assert (Hv : Forall (valid_index tools) [IInt (-1); IInt 0]) by (repeat constructor; simpl; lia).
  split; [exact Hv|]. exact (filter_list_indices_spec attr tools _ _ Hv).
Defined.

End FilterScenarios.

End Filter.
