(* ===== verification/Heap.v ===== *)
(** * Heap: Python dicts and objects as a heap, with a program logic

    The object model the persistence code of [src/pycam/Plugins/__init__.py]
    runs on: Python values ([pyval]), dict objects (plain dicts and
    [ObjectWithAttributes] instances, [obj]) at locations of a heap, and
    the store that also holds the state the code shares on purpose (the
    class attribute [ObjectWithAttributes.uuid_map], the default argument
    [result={}] of [PluginBase.get_persist_data]) and the collaborators
    outside [src/] ([core.get]/[core.set], [uuid.uuid4()]).  Code runs in
    the state and exception monad [M], an instance of stdpp's [MRet] and
    [MBind]; the dict operations are Python's ([d[k]], [d[k] = v],
    [setdefault], [in], iteration, truth values, [update]).

    Proofs about [M] go through [wp] (total correctness: the computation
    returns normally and its postcondition holds) and [keeps] (a
    well-formed store stays well formed and only grows: no object and no
    key disappears). *)

From Stdlib Require Import String List ZArith Lia.
From stdpp Require Import base countable gmap strings list.
From S2P Require Import Prelude.
Import ListNotations.

Module Heap.
Local Open Scope string_scope.
(** ** Values and the heap *)

Definition loc := nat.

(** The Python values the persistence code handles: scalars, lists and
    references to dict objects. *)
Inductive pyval : Type :=
  | VNone
  | VBool (b : bool)
  | VInt (z : Z)
  | VStr (s : string)
  | VList (vs : list pyval)
  | VRef (l : loc).

(** Hashable values as dict keys: [True == 1] and [False == 0] are the
    same key in Python. *)
Inductive py_key : Type := KNone | KInt (z : Z) | KStr (s : string).

#[export] Instance py_key_eq_dec : EqDecision py_key.
Proof. solve_decision. Defined.

#[export] Instance py_key_countable : Countable py_key.
Proof.
  refine (inj_countable'
    (fun k => match k with KNone => None | KInt z => Some (inl z) | KStr s => Some (inr s) end)
    (fun o => match o with None => KNone | Some (inl z) => KInt z | Some (inr s) => KStr s end) _).
  now intros [].
Defined.

(** [hash(v)]: lists and dicts are unhashable. *)
Definition to_key (v : pyval) : result py_key :=
  match v with
  | VNone => Ok KNone
  | VBool b => Ok (KInt (if b then 1 else 0)%Z)
  | VInt z => Ok (KInt z)
  | VStr s => Ok (KStr s)
  | VList _ | VRef _ => Err TypeError
  end.

(** A literal of a class attribute such as [defaults]: scalars and
    nested dicts. *)
Inductive lit : Type :=
  | LScalar (v : pyval)
  | LDict (kvs : list (string * lit)).

(** The class of an [ObjectWithAttributes] object, by the attributes the
    persistence code reads. *)
Record entity_class : Type := {
  node_key : string;
  defaults : list (string * lit);
  entitylist_parameters : list string;
  PERSIST : bool
}.

(** A dict object: a plain [dict] ([o_class = None]) or an
    [ObjectWithAttributes] of a class. *)
Record obj : Type := {
  o_class : option entity_class;
  o_dict : gmap string pyval
}.

Record store : Type := {
  heap : gmap loc obj;
  next_loc : loc;
  uuid_map : gmap py_key loc;          (* ObjectWithAttributes.uuid_map *)
  core : gmap string pyval;            (* the settings of core.get / core.set *)
  uuid4 : nat -> string;               (* str(uuid.uuid4()) for each draw *)
  uuid_next : nat;
  persist_default : loc                (* the default [result={}] *)
}.

Definition set_heap (h : gmap loc obj) (s : store) : store :=
  {| heap := h; next_loc := next_loc s; uuid_map := uuid_map s; core := core s;
     uuid4 := uuid4 s; uuid_next := uuid_next s; persist_default := persist_default s |}.

(** ** The state and exception monad *)

Definition M (A : Type) : Type := store -> result (A * store).

#[export] Instance M_ret : MRet M := fun A x s => Ok (x, s).
#[export] Instance M_bind : MBind M := fun A B f m s =>
  match m s with Ok (x, s') => f x s' | Err e => Err e end.

Definition raise {A} (e : py_error) : M A := fun _ => Err e.
Definition modify (f : store -> store) : M unit := fun s => Ok (tt, f s).
Definition gets {A} (f : store -> A) : M A := fun s => Ok (f s, s).

Fixpoint mapM {A B} (f : A -> M B) (l : list A) : M (list B) :=
  match l with
  | [] => mret []
  | x :: l' => y ← f x; ys ← mapM f l'; mret (y :: ys)
  end.

Fixpoint foldlM {A B} (f : B -> A -> M B) (l : list A) (acc : B) : M B :=
  match l with
  | [] => mret acc
  | x :: l' => acc' ← f acc x; foldlM f l' acc'
  end.

Fixpoint forM_ {A} (l : list A) (f : A -> M unit) : M unit :=
  match l with
  | [] => mret tt
  | x :: l' => f x;; forM_ l' f
  end.

(** ** Dict operations *)

Definition alloc (o : obj) : M loc := fun s =>
  Ok (next_loc s,
      {| heap := <[next_loc s := o]> (heap s); next_loc := S (next_loc s);
         uuid_map := uuid_map s; core := core s; uuid4 := uuid4 s;
         uuid_next := uuid_next s; persist_default := persist_default s |}).

(** The literal [{}]. *)
Definition new_dict : M loc := alloc {| o_class := None; o_dict := ∅ |}.

Definition load (l : loc) : M obj := fun s =>
  match heap s !! l with Some o => Ok (o, s) | None => Err TypeError end.

Definition store_dict (l : loc) (d : gmap string pyval) : M unit :=
  o ← load l;
  modify (fun s => set_heap (<[l := {| o_class := o_class o; o_dict := d |}]> (heap s)) s).

(** A value used as a dict: [None], numbers, strings and lists have no
    item assignment or [.items()]. *)
Definition deref (v : pyval) : M loc :=
  match v with VRef l => mret l | _ => raise TypeError end.

(** [d[k]] *)
Definition getitem (l : loc) (k : string) : M pyval :=
  o ← load l;
  match o_dict o !! k with Some v => mret v | None => raise (KeyError k) end.

(** [v[k]] for a value [v] *)
Definition subscript (v : pyval) (k : string) : M pyval :=
  l ← deref v; getitem l k.

(** [d[k] = v] *)
Definition setitem (l : loc) (k : string) (v : pyval) : M unit :=
  o ← load l; store_dict l (<[k := v]> (o_dict o)).

(** [k in d] *)
Definition has_key (l : loc) (k : string) : M bool :=
  o ← load l; mret (bool_decide (is_Some (o_dict o !! k))).

(** [d.get(k)] *)
Definition dict_get (l : loc) (k : string) : M (option pyval) :=
  o ← load l; mret (o_dict o !! k).

(** [d.setdefault(k, {})]: the literal is evaluated before the call. *)
Definition setdefault_dict (l : loc) (k : string) : M pyval :=
  fresh ← new_dict;
  o ← load l;
  match o_dict o !! k with
  | Some v => mret v
  | None => setitem l k (VRef fresh);; mret (VRef fresh)
  end.

(** [k in v] for a value [v]: membership of a dict's keys, of a list's
    items, a substring test on a string; other values raise. *)
Definition contains (v : pyval) (k : string) : M bool :=
  match v with
  | VRef l => has_key l k
  | VList vs => mret (existsb (fun x => match x with VStr s => String.eqb s k | _ => false end) vs)
  | VStr s => mret (bool_decide (is_Some (String.index 0 k s)))
  | _ => raise TypeError
  end.

(** [for m in v]: a list yields its items, a dict its keys, a string its
    characters; other values are not iterable. *)
Definition py_iter (v : pyval) : M (list pyval) :=
  match v with
  | VList vs => mret vs
  | VRef l => o ← load l; mret (map (fun kv => VStr kv.1) (map_to_list (o_dict o)))
  | VStr s => mret (map (fun c => VStr (String c EmptyString)) (list_ascii_of_string s))
  | _ => raise TypeError
  end.

(** [bool(v)] *)
Definition truthy (v : pyval) : M bool :=
  match v with
  | VNone => mret false
  | VBool b => mret b
  | VInt z => mret (negb (Z.eqb z 0))
  | VStr s => mret (negb (String.eqb s ""))
  | VList vs => mret (negb (Nat.eqb (length vs) 0))
  | VRef l => o ← load l; mret (negb (bool_decide (o_dict o = ∅)))
  end.

(** [isinstance(v, ObjectWithAttributes)] *)
Definition is_entity (v : pyval) : M bool :=
  match v with
  | VRef l => o ← load l; mret (bool_decide (is_Some (o_class o)))
  | _ => mret false
  end.

(** [self.core.get(p)] and [self.core.set(p, v)] *)
Definition core_get (p : string) : M pyval := fun s =>
  Ok (match core s !! p with Some v => v | None => VNone end, s).

Definition core_set (p : string) (v : pyval) : M unit := fun s =>
  Ok (tt, {| heap := heap s; next_loc := next_loc s; uuid_map := uuid_map s;
             core := <[p := v]> (core s); uuid4 := uuid4 s; uuid_next := uuid_next s;
             persist_default := persist_default s |}).

Definition set_uuid_map (f : gmap py_key loc -> gmap py_key loc) (s : store) : store :=
  {| heap := heap s; next_loc := next_loc s; uuid_map := f (uuid_map s); core := core s;
     uuid4 := uuid4 s; uuid_next := uuid_next s; persist_default := persist_default s |}.

(** [str(uuid.uuid4())] *)
Definition draw_uuid : M string := fun s =>
  Ok (uuid4 s (uuid_next s),
      {| heap := heap s; next_loc := next_loc s; uuid_map := uuid_map s; core := core s;
         uuid4 := uuid4 s; uuid_next := S (uuid_next s); persist_default := persist_default s |}).

(** [self.update(other)]: the other dict's items overwrite. *)
Definition dict_update (self : loc) (other : pyval) : M unit :=
  ol ← deref other;
  oo ← load ol;
  so ← load self;
  store_dict self (o_dict oo ∪ o_dict so).

(** [d.items()] and [d.copy()] exist on dicts only. *)
Definition dict_of (v : pyval) : M loc :=
  match v with VRef l => mret l | _ => raise AttributeError end.

(** ** A program logic for [M]

    [wp m Q s]: run from [s], [m] returns normally and [Q] holds of its
    value and final store.  The rules below are the only way the theorems
    look into the monad. *)

Definition wp {A} (m : M A) (Q : A -> store -> Prop) (s : store) : Prop :=
  match m s with Ok (x, s') => Q x s' | Err _ => False end.

(** A store is well formed when every object lives below [next_loc]. *)
Definition store_wf (s : store) : Prop :=
  forall l, is_Some (heap s !! l) -> l < next_loc s.

(** The value [core.get(p)] returns in [s]. *)
Definition core_val (s : store) (p : string) : pyval :=
  match core s !! p with Some v => v | None => VNone end.

Definition set_core (c : gmap string pyval) (s : store) : store :=
  {| heap := heap s; next_loc := next_loc s; uuid_map := uuid_map s; core := c;
     uuid4 := uuid4 s; uuid_next := uuid_next s; persist_default := persist_default s |}.

Definition empty_obj : obj := {| o_class := None; o_dict := ∅ |}.

(** What a heap write leaves alone. *)
Definition same_globals (s s' : store) : Prop :=
  next_loc s' = next_loc s /\ core s' = core s /\
  persist_default s' = persist_default s /\ uuid_map s' = uuid_map s.

(** The heap only grows: objects stay, keys stay, the default dict stays. *)
Definition grows (s s' : store) : Prop :=
  persist_default s' = persist_default s /\
  forall l o, heap s !! l = Some o -> exists o', heap s' !! l = Some o' /\
    forall k, is_Some (o_dict o !! k) -> is_Some (o_dict o' !! k).

(** [m] keeps a well-formed store well formed and only grows it. *)
Definition keeps {A} (m : M A) : Prop :=
  forall s x s', store_wf s -> m s = Ok (x, s') -> store_wf s' /\ grows s s'.

Lemma wp_bind {A B} (m : M A) (f : A -> M B) Q s :
  wp (m ≫= f) Q s <-> wp m (fun x s' => wp (f x) Q s') s.
Proof. unfold wp, mbind, M_bind. destruct (m s) as [[x s']|e]; reflexivity. Qed.

Lemma wp_ret {A} (x : A) Q s : wp (mret x) Q s <-> Q x s.
Proof. reflexivity. Qed.

Lemma wp_mono {A} (m : M A) (Q Q' : A -> store -> Prop) s :
  (forall x s', Q x s' -> Q' x s') -> wp m Q s -> wp m Q' s.
Proof. unfold wp. destruct (m s) as [[x s']|e]; auto. Qed.

Lemma wp_run {A} (m : M A) Q s : wp m Q s -> exists x s', m s = Ok (x, s') /\ Q x s'.
Proof. unfold wp. destruct (m s) as [[x s']|e]; [eauto | contradiction]. Qed.

Lemma wp_load l o Q s : heap s !! l = Some o -> Q o s -> wp (load l) Q s.
Proof. intros Hl HQ. unfold wp, load. now rewrite Hl. Qed.

Lemma wp_modify f Q s : Q tt (f s) -> wp (modify f) Q s.
Proof. exact id. Qed.

Lemma wp_gets {A} (f : store -> A) Q s : Q (f s) s -> wp (gets f) Q s.
Proof. exact id. Qed.

Lemma wp_core_get p Q s : Q (core_val s p) s -> wp (core_get p) Q s.
Proof. exact id. Qed.

Lemma wp_core_set p v Q s : Q tt (set_core (<[p := v]> (core s)) s) -> wp (core_set p v) Q s.
Proof. exact id. Qed.

Lemma wp_alloc o Q s :
  Q (next_loc s) {| heap := <[next_loc s := o]> (heap s); next_loc := S (next_loc s);
                    uuid_map := uuid_map s; core := core s; uuid4 := uuid4 s;
                    uuid_next := uuid_next s; persist_default := persist_default s |} ->
  wp (alloc o) Q s.
Proof. exact id. Qed.

Lemma wp_setitem l k v o Q s :
  heap s !! l = Some o ->
  Q tt (set_heap (<[l := {| o_class := o_class o; o_dict := <[k := v]> (o_dict o) |}]> (heap s)) s) ->
  wp (setitem l k v) Q s.
Proof. intros Hl HQ. unfold wp, setitem, store_dict, mbind, M_bind, load. now rewrite Hl, Hl. Qed.

Lemma wp_getitem l k o v Q s :
  heap s !! l = Some o -> o_dict o !! k = Some v -> Q v s -> wp (getitem l k) Q s.
Proof. intros Hl Hk HQ. unfold wp, getitem, mbind, M_bind, load. now rewrite Hl, Hk. Qed.

Lemma wp_deref l Q s : Q l s -> wp (deref (VRef l)) Q s.
Proof. exact id. Qed.

Lemma wp_has_key l o k Q s :
  heap s !! l = Some o -> Q (bool_decide (is_Some (o_dict o !! k))) s -> wp (has_key l k) Q s.
Proof. intros Hl HQ. unfold wp, has_key, mbind, M_bind, load. now rewrite Hl. Qed.

Lemma wp_forM_ {A} (l : list A) (f : A -> M unit) (I : list A -> store -> Prop) s :
  I l s ->
  (forall x rest s, I (x :: rest) s -> wp (f x) (fun _ s' => I rest s') s) ->
  wp (forM_ l f) (fun _ s' => I [] s') s.
Proof.
  intros H0 Hstep. revert s H0. induction l as [|x l IH]; intros s H0; simpl; [exact H0|].
  apply wp_bind. eapply wp_mono; [|exact (Hstep _ _ _ H0)]. intros [] s' H'. now apply IH.
Qed.

Lemma store_wf_fresh s : store_wf s -> heap s !! next_loc s = None.
Proof. intros Hwf. destruct (heap s !! next_loc s) eqn:E; [|done]. specialize (Hwf _ ltac:(eauto)). lia. Qed.

Lemma lookup_lt_neq s l o : store_wf s -> heap s !! l = Some o -> l <> next_loc s.
Proof. intros Hwf Hl ->. specialize (Hwf _ ltac:(eauto)). lia. Qed.

(** [result.setdefault(key, {})] on a dict without [key]: the fresh dict
    is stored under [key]. *)
Lemma wp_setdefault_absent r o key s :
  store_wf s -> heap s !! r = Some o -> o_dict o !! key = None ->
  wp (setdefault_dict r key) (fun v s1 =>
    v = VRef (next_loc s) /\
    heap s1 = <[r := {| o_class := o_class o; o_dict := <[key := VRef (next_loc s)]> (o_dict o) |}]>
                (<[next_loc s := empty_obj]> (heap s)) /\
    next_loc s1 = S (next_loc s) /\ core s1 = core s /\
    persist_default s1 = persist_default s /\ uuid_map s1 = uuid_map s) s.
Proof.
  intros Hwf Hr Hk. pose proof (lookup_lt_neq _ _ _ Hwf Hr) as Hne.
  unfold setdefault_dict, new_dict. apply wp_bind, wp_alloc. apply wp_bind.
  apply (wp_load _ o); [simpl; now rewrite lookup_insert_ne by congruence|].
  rewrite Hk. apply wp_bind. apply (wp_setitem _ _ _ o); [simpl; now rewrite lookup_insert_ne by congruence|].
  simpl. repeat split.
Qed.

(** The heap after [setdefault] is well formed. *)
Lemma store_wf_insert2 s r o o' :
  store_wf s -> heap s !! r = Some o ->
  forall l, is_Some ((<[r := o']> (<[next_loc s := empty_obj]> (heap s))) !! l) -> l < S (next_loc s).
Proof.
  intros Hwf Hr l [x Hl]. destruct (decide (l = r)) as [->|]; [specialize (Hwf r ltac:(eauto)); lia|].
  rewrite lookup_insert_ne in Hl by congruence.
  destruct (decide (l = next_loc s)) as [->|]; [lia|].
  rewrite lookup_insert_ne in Hl by congruence. specialize (Hwf l ltac:(eauto)). lia.
Qed.

Lemma core_val_eq s s' : core s' = core s -> core_val s' = core_val s.
Proof. intros Hc. unfold core_val. now rewrite Hc. Qed.

(** ** The heap only grows *)

Lemma grows_refl s : grows s s.
Proof. split; [reflexivity|]. intros l o Hl. eauto. Qed.

Lemma grows_trans s1 s2 s3 : grows s1 s2 -> grows s2 s3 -> grows s1 s3.
Proof.
  intros [D1 H1] [D2 H2]. split; [congruence|]. intros l o Hl.
  destruct (H1 _ _ Hl) as (o2 & Hl2 & K2). destruct (H2 _ _ Hl2) as (o3 & Hl3 & K3).
  exists o3. split; [exact Hl3|]. auto.
Qed.

Lemma keeps_ret {A} (x : A) : keeps (mret x).
Proof. intros s y s' Hwf H. inv H. split; [exact Hwf | apply grows_refl]. Qed.

Lemma keeps_bind {A B} (m : M A) (f : A -> M B) :
  keeps m -> (forall x, keeps (f x)) -> keeps (m ≫= f).
Proof.
  intros Hm Hf s y s' Hwf H. unfold mbind, M_bind in H.
  destruct (m s) as [[x s1]|e] eqn:E; [|discriminate].
  destruct (Hm _ _ _ Hwf E) as [Hwf1 G1]. destruct (Hf x _ _ _ Hwf1 H) as [Hwf2 G2].
  split; [exact Hwf2 | exact (grows_trans _ _ _ G1 G2)].
Qed.

Lemma keeps_raise {A} e : keeps (@raise A e).
Proof. intros s x s' _ H. discriminate. Qed.

Lemma keeps_gets {A} (f : store -> A) : keeps (gets f).
Proof. intros s x s' Hwf H. inv H. split; [exact Hwf | apply grows_refl]. Qed.

Lemma keeps_load l : keeps (load l).
Proof.
  intros s x s' Hwf H. unfold load in H. destruct (heap s !! l); inv H.
  split; [exact Hwf | apply grows_refl].
Qed.

Lemma keeps_alloc o : keeps (alloc o).
Proof.
  intros s x s' Hwf H. inv H. split.
  - intros l [y Hl]. simpl in *. destruct (decide (l = next_loc s)) as [->|Hne]; [lia|].
    rewrite lookup_insert_ne in Hl by congruence. specialize (Hwf l ltac:(eauto)). lia.
  - split; [reflexivity|]. intros l o' Hl. exists o'. split; [|auto].
    simpl. rewrite lookup_insert_ne; [exact Hl|]. intros E. specialize (Hwf l ltac:(eauto)). lia.
Qed.

Lemma keeps_setitem l k v : keeps (setitem l k v).
Proof.
  intros s x s' Hwf H. unfold setitem, store_dict, mbind, M_bind, load in H.
  destruct (heap s !! l) as [o|] eqn:Hl; [|discriminate]. rewrite Hl in H. inv H. split.
  - intros l' [y Hl']. simpl in Hl'. destruct (decide (l' = l)) as [->|Hne]; [exact (Hwf l ltac:(eauto))|].
    rewrite lookup_insert_ne in Hl' by congruence. exact (Hwf l' ltac:(eauto)).
  - split; [reflexivity|]. intros l' o' Hl'. simpl. destruct (decide (l' = l)) as [->|Hne].
    + rewrite lookup_insert_eq. eexists; split; [reflexivity|]. rewrite Hl in Hl'. inv Hl'.
      intros k' Hk'. simpl. destruct (decide (k' = k)) as [->|]; [rewrite lookup_insert_eq; eauto|].
      now rewrite lookup_insert_ne.
    + rewrite lookup_insert_ne by congruence. eauto.
Qed.

Lemma keeps_deref v : keeps (deref v).
Proof. destruct v; first [apply keeps_ret | apply keeps_raise]. Qed.

Lemma keeps_getitem l k : keeps (getitem l k).
Proof.
  apply keeps_bind; [apply keeps_load|]. intros o.
  destruct (o_dict o !! k); [apply keeps_ret | apply keeps_raise].
Qed.

Lemma keeps_core_get p : keeps (core_get p).
Proof. intros s x s' Hwf H. inv H. split; [exact Hwf | apply grows_refl]. Qed.

Lemma keeps_forM_ {A} (l : list A) (f : A -> M unit) : (forall x, keeps (f x)) -> keeps (forM_ l f).
Proof.
  intros Hf. induction l as [|x l IH]; simpl; [apply keeps_ret|].
  apply keeps_bind; [apply Hf | intros _; exact IH].
Qed.

Lemma keeps_setdefault l k : keeps (setdefault_dict l k).
Proof.
  unfold setdefault_dict, new_dict. apply keeps_bind; [apply keeps_alloc|]. intros fresh.
  apply keeps_bind; [apply keeps_load|]. intros o. destruct (o_dict o !! k).
  - apply keeps_ret.
  - apply keeps_bind; [apply keeps_setitem | intros _; apply keeps_ret].
Qed.

(** After filling, every top-level key of the template is a key of the
    dict, whatever the dict held before. *)
Lemma bind_ok {A B} (m : M A) (f : A -> M B) s y s' :
  (m ≫= f) s = Ok (y, s') -> exists x s1, m s = Ok (x, s1) /\ f x s1 = Ok (y, s').
Proof. unfold mbind, M_bind. destruct (m s) as [[x s1]|e]; [eauto | discriminate]. Qed.

Lemma setdefault_has_key r key s v s1 :
  setdefault_dict r key s = Ok (v, s1) -> exists o1, heap s1 !! r = Some o1 /\ is_Some (o_dict o1 !! key).
Proof.
  intros H. unfold setdefault_dict, new_dict, alloc, load, setitem, store_dict, modify,
    mbind, M_bind, mret, M_ret in H. cbn in H.
  repeat case_match; simplify_eq; cbn.
  - eexists; split; [eassumption | eauto].
  - rewrite lookup_insert_eq. eexists; split; [reflexivity|]. cbn. rewrite lookup_insert_eq. eauto.
Qed.

(** ** Automation *)

Create HintDb heap.
#[export] Hint Resolve keeps_ret keeps_raise keeps_gets keeps_load keeps_alloc keeps_setitem
  keeps_deref keeps_getitem keeps_core_get keeps_setdefault : heap.

(** [keeps] of a computation built from the dict operations. *)
Ltac solve_keeps :=
  repeat first [ solve [eauto with heap]
               | apply keeps_forM_; intro
               | apply keeps_bind; [|intro] ].

End Heap.
