(* ===== verification/Persist.v ===== *)
(** * Persist: the persistence code of the plugin framework, over a heap

    Models the persistence methods of [src/pycam/Plugins/__init__.py]:
    [PluginBase.get_persist_data] and [set_persist_data] (lines 210-256),
    [ListPluginBase.get_persist_data] and [set_persist_data] (lines
    643-670) and [ObjectWithAttributes] (lines 672-748).  These methods
    mutate dictionaries that other code holds references to, so the model
    runs on the heap of [Heap]: every dict (plain or [ObjectWithAttributes])
    is an object at a location, values refer to dicts by location, and the
    operations run in the state and exception monad [Heap.M].  Two pieces of
    state are shared on purpose by the code and are part of the store: the
    default argument [result={}] of [PluginBase.get_persist_data], created
    once when the class is defined, and the class attribute
    [ObjectWithAttributes.uuid_map].  The settings behind [core.get] and
    [core.set], and [uuid.uuid4()], are collaborators outside [src/]: the
    former is a map, the latter draws from a generator in the store. *)

From Stdlib Require Import String List ZArith Lia.
From stdpp Require Import base countable gmap strings list.
From S2P Require Import Prelude ListPlugin Heap.
Import ListNotations.

Module Persist.
Import Heap.
Local Open Scope string_scope.

(** ** PluginBase.get_persist_data and set_persist_data (lines 210-256) *)

(** A template such as [PERSIST_GENERAL_PREFERENCES]: a dict whose
    values are lists of setting names or nested templates. *)
Inductive template : Type :=
  | TKeys (params : list string)
  | TSub (items : list (string * template)).

(** The attributes of a plugin that the persistence methods read. *)
Record persist_plugin : Type := {
  pp_name : string;
  PERSIST_GENERAL_PREFERENCES : list (string * template);
  PERSIST_TASK_SETTINGS : list (string * template)
}.

(** [getattr(self, what, None)] for the two template attributes. *)
Definition getattr_template (pl : persist_plugin) (what : string)
  : option (list (string * template)) :=
  if String.eqb what "PERSIST_GENERAL_PREFERENCES" then Some (PERSIST_GENERAL_PREFERENCES pl)
  else if String.eqb what "PERSIST_TASK_SETTINGS" then Some (PERSIST_TASK_SETTINGS pl)
  else None.

(** The [for key, value in template.items()] loop of [get_persist_data]
    on the dict [result]; the recursive call on a nested template returns
    the dict it filled, which is stored back under [key]. *)
Fixpoint persist_tpl (tpl : template) (result : loc) : M unit :=
  match tpl with
  | TKeys _ => mret tt
  | TSub items =>
      (fix persist_loop (items : list (string * template)) : M unit :=
         match items with
         | [] => mret tt
         | (key, value) :: rest =>
             _ ← setdefault_dict result key;
             (match value with
              | TKeys params =>
                  forM_ params (fun param =>
                    sub ← getitem result key ≫= deref;
                    v ← core_get param;
                    setitem sub param v)
              | TSub _ =>
                  sub ← getitem result key ≫= deref;
                  persist_tpl value sub;;
                  setitem result key (VRef sub)
              end);;
             persist_loop rest
         end) items
  end.

Definition persist_loop (items : list (string * template)) (result : loc) : M unit :=
  persist_tpl (TSub items) result.

(** [plugin.get_persist_data(what)]: the [result] argument is the default
    dict shared by every call; an absent or empty template returns a
    fresh [{}]. *)
Definition get_persist_data (pl : persist_plugin) (what : string) : M pyval :=
  match getattr_template pl what with
  | Some ((_ :: _) as items) =>
      result ← gets persist_default;
      persist_loop items result;;
      mret (VRef result)
  | _ => l ← new_dict; mret (VRef l)
  end.

(** The loop of [set_persist_data] over a template and the data dict. *)
Fixpoint restore_tpl (tpl : template) (data : pyval) : M unit :=
  match tpl with
  | TKeys _ => mret tt
  | TSub items =>
      (fix restore_loop (items : list (string * template)) : M unit :=
         match items with
         | [] => mret tt
         | (key, value) :: rest =>
             (match value with
              | TKeys params =>
                  forM_ params (fun setting =>
                    d ← subscript data key;
                    contains d setting ≫= fun (present : bool) =>
                    if present then (v ← subscript d setting; core_set setting v)
                    else mret tt)                (* self.log.warn(...); continue *)
              | TSub _ =>
                  d ← subscript data key;
                  restore_tpl value d
              end);;
             restore_loop rest
         end) items
  end.

Definition restore_loop (items : list (string * template)) (data : pyval) : M unit :=
  restore_tpl (TSub items) data.

(** [plugin.set_persist_data(what, data)]: [getattr(self, what)] without
    a default raises for a name that is not an attribute. *)
Definition set_persist_data (pl : persist_plugin) (what : string) (data : pyval) : M unit :=
  match getattr_template pl what with
  | None => raise AttributeError
  | Some [] => mret tt
  | Some items => restore_loop items data
  end.

(** ** ObjectWithAttributes (lines 672-748) *)

(** The class of an object, for its class attributes. *)
Definition class_of (l : loc) : M entity_class :=
  o ← load l;
  match o_class o with Some c => mret c | None => raise AttributeError end.

(** [_get_by_uuid(uuid)]: [self.uuid_map.get(uuid, None)]. *)
Definition get_by_uuid (u : pyval) : M pyval :=
  match to_key u with
  | Err e => raise e
  | Ok k => gets (fun s => match uuid_map s !! k with Some l => VRef l | None => VNone end)
  end.

(** [_register_uuid()]: [self.uuid_map[self["uuid"]] = self]. *)
Definition register_uuid (self : loc) : M unit :=
  u ← getitem self "uuid";
  match to_key u with
  | Err e => raise e
  | Ok k => modify (set_uuid_map (<[k := self]>))
  end.

(** [copy.deepcopy] of a literal: every dict is a new object. *)
Fixpoint alloc_lit (x : lit) : M pyval :=
  match x with
  | LScalar v => mret v
  | LDict kvs =>
      d ← new_dict;
      (fix fill (kvs : list (string * lit)) : M unit :=
         match kvs with
         | [] => mret tt
         | (k, x') :: rest => v ← alloc_lit x'; setitem d k v;; fill rest
         end) kvs;;
      mret (VRef d)
  end.

(** [[self._get_by_uuid(m) for m in ms if self._get_by_uuid(m)]] *)
Fixpoint resolve_list (ms : list pyval) : M (list pyval) :=
  match ms with
  | [] => mret []
  | m :: rest =>
      e ← get_by_uuid m;
      truthy e ≫= fun (keep : bool) =>
      rest' ← resolve_list rest;
      if keep then (e' ← get_by_uuid m; mret (e' :: rest')) else mret rest'
  end.

(** [unpersist(attributes)] (lines 729-748). *)
Definition unpersist (self : loc) (attributes : pyval) : M unit :=
  dict_update self attributes;;
  pv ← dict_get self "parameters";
  (match pv with
   | None => mret tt                                  (* {}.items() is empty *)
   | Some p =>
       pl ← dict_of p;
       po ← load pl;
       forM_ (map_to_list (o_dict po)) (fun kv =>
         match kv.2 with
         | VStr u =>
             entity ← get_by_uuid (VStr u);           (* logged when missing *)
             params ← getitem self "parameters" ≫= deref;
             setitem params kv.1 entity
         | _ => mret tt
         end)
   end);;
  cls ← class_of self;
  forM_ (entitylist_parameters cls) (fun key =>
    params ← getitem self "parameters";
    contains params key ≫= fun (present : bool) =>
    if present then
      (lst ← subscript params key;
       ms ← py_iter lst;
       es ← resolve_list ms;
       pl ← deref params;
       setitem pl key (VList es))
    else mret tt).

(** [CHILD_ENTITY(core, attributes=attributes)]: [__init__] (lines
    684-697) without keyword arguments. *)
Definition new_entity (cls : entity_class) (attributes : pyval) : M loc :=
  self ← alloc {| o_class := Some cls; o_dict := ∅ |};
  setitem self "name" (VStr (node_key cls));;
  u ← draw_uuid;
  setitem self "uuid" (VStr u);;
  d ← alloc_lit (LDict (defaults cls));
  dict_update self d;;
  (match attributes with VNone => mret tt | _ => unpersist self attributes end);;
  register_uuid self;;
  mret self.

(** [get_persist_data()] of an entity (lines 707-727). *)
Definition entity_get_persist_data (self : loc) : M pyval :=
  so ← load self;
  cls ← class_of self;
  if negb (PERSIST cls) then (l ← new_dict; mret (VRef l)) else
  dict_copy ← alloc {| o_class := None; o_dict := o_dict so |};
  match o_dict so !! "parameters" with
  | None => mret (VRef dict_copy)
  | Some pv =>
      pl ← dict_of pv;
      po ← load pl;
      p ← alloc {| o_class := None; o_dict := o_dict po |};
      setitem dict_copy "parameters" (VRef p);;
      forM_ (map fst (map_to_list (o_dict po))) (fun key =>
        v ← getitem p key;
        is_entity v ≫= fun (ent : bool) =>
        if ent then (u ← subscript v "uuid"; setitem p key u) else mret tt);;
      forM_ (entitylist_parameters cls) (fun key =>
        has_key p key ≫= fun (present : bool) =>
        if present then
          (lst ← subscript pv key;
           ms ← py_iter lst;
           us ← mapM (fun m => subscript m "uuid") ms;
           setitem p key (VList us))
        else mret tt);;
      mret (VRef dict_copy)
  end.

(** ** ListPluginBase.get_persist_data and set_persist_data (643-670) *)

(** The wrapped [append] of [ListPluginBase]. *)
Definition append_at {A} (ls : ListPlugin.list_state A) (x : A) : ListPlugin.list_state A :=
  {| ListPlugin.items := ListPlugin.items ls ++ [x];
     ListPlugin.updates := S (ListPlugin.updates ls) |}.

(** [while len(self) > 0: self.pop()], one pop per item. *)
Fixpoint pop_last_loop {A} (fuel : nat) (ls : ListPlugin.list_state A) : ListPlugin.list_state A :=
  match fuel with
  | 0 => ls
  | S fuel' =>
      match ListPlugin.items ls with
      | [] => ls
      | _ =>
          match ListPlugin.pop_at ls (length (ListPlugin.items ls) - 1) with
          | Ok (_, ls1) => pop_last_loop fuel' ls1
          | Err _ => ls
          end
      end
  end.

Definition pop_all {A} (ls : ListPlugin.list_state A) : ListPlugin.list_state A :=
  pop_last_loop (length (ListPlugin.items ls)) ls.

Definition list_get_persist_data (name : string) (child : option entity_class) (what : string)
    (ls : ListPlugin.list_state loc) : M pyval :=
  if negb (String.eqb what "PERSIST_TASK_SETTINGS") then (l ← new_dict; mret (VRef l)) else
  match child with
  | Some cls =>
      if PERSIST cls then
        (vs ← mapM entity_get_persist_data (ListPlugin.items ls);
         d ← new_dict;
         setitem d name (VList vs);;
         mret (VRef d))
      else (l ← new_dict; mret (VRef l))
  | None => l ← new_dict; mret (VRef l)
  end.

(** [what] is not read: the list is rebuilt from [data] for either kind
    of settings. *)
Definition list_set_persist_data (name : string) (child : option entity_class) (what : string)
    (data : pyval) (ls : ListPlugin.list_state loc) : M (ListPlugin.list_state loc) :=
  match child with
  | None => mret ls
  | Some cls =>
      let ls1 := pop_all ls in
      dl ← dict_of data;
      v ← dict_get dl name;
      its ← py_iter (match v with Some x => x | None => VList [] end);
      ls2 ← foldlM (fun acc i => e ← new_entity cls i; mret (append_at acc e)) its ls1;
      mret (ListPlugin.update_model ls2)
  end.

(** Python dicts have distinct keys: a template is well formed when the
    keys of every level are distinct. *)
Fixpoint tpl_wf (t : template) : bool :=
  match t with
  | TKeys _ => true
  | TSub items =>
      bool_decide (NoDup (map fst items)) &&
      (fix go (items : list (string * template)) : bool :=
         match items with [] => true | (_, v) :: rest => tpl_wf v && go rest end) items
  end.

(** The setting names a template lists, at every level. *)
Fixpoint tpl_params (t : template) : list string :=
  match t with
  | TKeys ps => ps
  | TSub items =>
      (fix go (items : list (string * template)) : list string :=
         match items with [] => [] | (_, v) :: rest => app (tpl_params v) (go rest) end) items
  end.

(** The dict at [l] holds the data of template [t] taken from [cv]: a
    dict per nested template, under its key, each at a location in
    [[lo, hi)], and the value [cv p] under every setting name [p]. *)
Fixpoint node_holds (h : gmap loc obj) (cv : string -> pyval) (lo hi : loc)
    (t : template) (l : loc) : Prop :=
  match t with
  | TKeys ps => exists o, h !! l = Some o /\ Forall (fun p => o_dict o !! p = Some (cv p)) ps
  | TSub items =>
      (fix go (items : list (string * template)) : Prop :=
         match items with
         | [] => True
         | (key, value) :: rest =>
             (exists o l', h !! l = Some o /\ o_dict o !! key = Some (VRef l') /\
                           lo <= l' < hi /\ node_holds h cv lo hi value l') /\ go rest
         end) items
  end.

(** What filling the template [items] into the dict [r] (holding [o],
    without any of the template's keys) guarantees. *)
Definition fill_post (items : list (string * template)) (r : loc) (o : obj) (s s' : store) : Prop :=
  store_wf s' /\ core s' = core s /\ persist_default s' = persist_default s /\
  uuid_map s' = uuid_map s /\ next_loc s <= next_loc s' /\
  node_holds (heap s') (core_val s) (next_loc s) (next_loc s') (TSub items) r /\
  (forall x, x < next_loc s -> x <> r -> heap s' !! x = heap s !! x) /\
  (exists o', heap s' !! r = Some o' /\ o_class o' = o_class o /\
     forall k, k ∉ map fst items -> o_dict o' !! k = o_dict o !! k).

Definition fill_spec (items : list (string * template)) : Prop :=
  forall r o s, store_wf s -> heap s !! r = Some o ->
    Forall (fun k => o_dict o !! k = None) (map fst items) ->
    wp (persist_tpl (TSub items) r) (fun _ s' => fill_post items r o s s') s.

(** After one item of the loop: [key] now refers to the fresh dict
    [next_loc s], which holds the item's data. *)
Definition item_post (key : string) (value : template) (r : loc) (o : obj) (s s2 : store) : Prop :=
  store_wf s2 /\ core s2 = core s /\ persist_default s2 = persist_default s /\
  uuid_map s2 = uuid_map s /\ next_loc s < next_loc s2 /\
  heap s2 !! r = Some {| o_class := o_class o; o_dict := <[key := VRef (next_loc s)]> (o_dict o) |} /\
  node_holds (heap s2) (core_val s) (next_loc s) (next_loc s2) value (next_loc s) /\
  (forall x, x < next_loc s -> x <> r -> heap s2 !! x = heap s !! x).

(** [core.set(p, cv p)] for every [p] of [ps], in order. *)
Definition set_all (cv : string -> pyval) (ps : list string) (c : gmap string pyval)
  : gmap string pyval :=
  fold_left (fun c p => <[p := cv p]> c) ps c.

(** What restoring the template [items] from a dict holding its data
    guarantees: the heap is only read, and the core receives the data. *)
Definition restore_post (ps : list string) (cv : string -> pyval) (s s' : store) : Prop :=
  heap s' = heap s /\ next_loc s' = next_loc s /\ persist_default s' = persist_default s /\
  uuid_map s' = uuid_map s /\ core s' = set_all cv ps (core s).

(** ** Templates: induction and the unfolding of the nested loops *)

Section TemplateInd.
Variable P : template -> Prop.
Hypothesis HKeys : forall ps, P (TKeys ps).
Hypothesis HSub : forall items, Forall (fun kv => P kv.2) items -> P (TSub items).

Fixpoint template_ind' (t : template) : P t :=
  match t with
  | TKeys ps => HKeys ps
  | TSub items =>
      HSub items
        ((fix go (items : list (string * template)) : Forall (fun kv => P kv.2) items :=
            match items with
            | [] => @List.Forall_nil _ _
            | (k, v) :: rest => @List.Forall_cons _ _ (k, v) rest (template_ind' v) (go rest)
            end) items)
  end.
End TemplateInd.

Lemma persist_tpl_cons key value rest r :
  persist_tpl (TSub ((key, value) :: rest)) r =
  (_ ← setdefault_dict r key;
   (match value with
    | TKeys params =>
        forM_ params (fun param =>
          sub ← getitem r key ≫= deref; v ← core_get param; setitem sub param v)
    | TSub _ => sub ← getitem r key ≫= deref; persist_tpl value sub;; setitem r key (VRef sub)
    end);;
   persist_tpl (TSub rest) r).
Proof. reflexivity. Qed.

Lemma restore_tpl_cons key value rest data :
  restore_tpl (TSub ((key, value) :: rest)) data =
  ((match value with
    | TKeys params =>
        forM_ params (fun setting =>
          d ← subscript data key;
          contains d setting ≫= fun (present : bool) =>
          if present then (v ← subscript d setting; core_set setting v) else mret tt)
    | TSub _ => d ← subscript data key; restore_tpl value d
    end);;
   restore_tpl (TSub rest) data).
Proof. reflexivity. Qed.

Lemma node_holds_cons h cv lo hi key value rest l :
  node_holds h cv lo hi (TSub ((key, value) :: rest)) l <->
  (exists o l', h !! l = Some o /\ o_dict o !! key = Some (VRef l') /\
                lo <= l' < hi /\ node_holds h cv lo hi value l') /\
  node_holds h cv lo hi (TSub rest) l.
Proof. reflexivity. Qed.

Lemma tpl_wf_cons key value rest :
  tpl_wf (TSub ((key, value) :: rest)) = true <->
  key ∉ map fst rest /\ tpl_wf value = true /\ tpl_wf (TSub rest) = true.
Proof.
  simpl. rewrite !andb_true_iff, !bool_decide_eq_true, NoDup_cons. tauto.
Qed.

Lemma tpl_params_cons key value rest :
  tpl_params (TSub ((key, value) :: rest)) = app (tpl_params value) (tpl_params (TSub rest)).
Proof. reflexivity. Qed.

(** [node_holds] reads the heap at [l] and at locations in [[lo, hi)]
    only, and a wider range keeps it. *)
Lemma node_holds_mono h cv lo hi lo' hi' t l :
  lo' <= lo -> hi <= hi' -> node_holds h cv lo hi t l -> node_holds h cv lo' hi' t l.
Proof.
  intros Hlo Hhi. revert l. induction t as [ps|items IH] using template_ind'; intros l; [exact id|].
  induction items as [|[key value] rest IHr]; [exact id|].
  inversion IH as [|? ? IHv IHrest]; subst.
  rewrite !node_holds_cons. intros [(o & l' & Ho & Hk & Hr & Hv) Hrest]. split.
  - exists o, l'. repeat split; auto; lia.
  - now apply IHr.
Qed.

Lemma node_holds_frame h h' cv lo hi t l :
  (forall x, lo <= x < hi -> h' !! x = h !! x) -> h' !! l = h !! l ->
  node_holds h cv lo hi t l -> node_holds h' cv lo hi t l.
Proof.
  intros Hfr. revert l. induction t as [ps|items IH] using template_ind'; intros l Hl.
  - simpl. now rewrite Hl.
  - induction items as [|[key value] rest IHr]; [exact id|].
    inversion IH as [|? ? IHv IHrest]; subst.
    rewrite !node_holds_cons. intros [(o & l' & Ho & Hk & Hr & Hv) Hrest]. split.
    + exists o, l'. rewrite Hl. do 3 (split; [assumption|]).
      apply IHv; [apply Hfr; exact Hr | exact Hv].
    + now apply IHr.
Qed.

(** ** Filling the default dict *)


(** The [for param in value] loop writes [core.get(param)] into the
    dict stored under [key]. *)
Lemma persist_keys_spec r key n ps s1 or D0 :
  heap s1 !! r = Some or -> o_dict or !! key = Some (VRef n) -> r <> n ->
  heap s1 !! n = Some {| o_class := None; o_dict := D0 |} ->
  wp (forM_ ps (fun param =>
        sub ← getitem r key ≫= deref; v ← core_get param; setitem sub param v))
     (fun _ s2 => exists D, heap s2 = <[n := {| o_class := None; o_dict := D |}]> (heap s1) /\
        Forall (fun p => D !! p = Some (core_val s1 p)) ps /\ same_globals s1 s2) s1.
Proof.
  intros Hr Hk Hne Hn.
  set (I := fun rem s2 => exists D, heap s2 = <[n := {| o_class := None; o_dict := D |}]> (heap s1) /\
        (forall p, In p ps -> ~ In p rem -> D !! p = Some (core_val s1 p)) /\ same_globals s1 s2).
  eapply wp_mono; [|apply (wp_forM_ _ _ I)].
  - intros _ s2 (D & Hh & HD & Hg). exists D. split; [exact Hh|]. split; [|exact Hg].
    apply List.Forall_forall. intros p Hp. apply HD; [exact Hp | intros []].
  - exists D0. split; [|split; [intros p Hp Hnot; contradiction | repeat split]].
    rewrite insert_id; [reflexivity | exact Hn].
  - intros x rest s2 (D & Hh & HD & Hg). destruct Hg as (Hnl & Hc & Hd & Hu).
    assert (Hr2 : heap s2 !! r = Some or) by (rewrite Hh, lookup_insert_ne by congruence; exact Hr).
    apply wp_bind, wp_bind. apply (wp_getitem _ _ _ _ _ _ Hr2 Hk).
    apply wp_deref. apply wp_bind, wp_core_get.
    apply (wp_setitem _ _ _ {| o_class := None; o_dict := D |}); [rewrite Hh; apply lookup_insert_eq|].
    exists (<[x := core_val s2 x]> D). simpl. split; [|split].
    + rewrite Hh, insert_insert_eq. reflexivity.
    + intros p Hp Hnot. destruct (decide (p = x)) as [->|Hpx].
      * rewrite lookup_insert_eq. unfold core_val. now rewrite Hc.
      * rewrite lookup_insert_ne by congruence. apply HD; [exact Hp|].
        intros [->|Hin]; [congruence | exact (Hnot Hin)].
    + repeat split; assumption.
Qed.

Lemma persist_item_spec key value r o s :
  (forall sub, value = TSub sub -> fill_spec sub) ->
  store_wf s -> heap s !! r = Some o -> o_dict o !! key = None ->
  wp (_ ← setdefault_dict r key;
      match value with
      | TKeys params =>
          forM_ params (fun param =>
            sub ← getitem r key ≫= deref; v ← core_get param; setitem sub param v)
      | TSub _ => sub ← getitem r key ≫= deref; persist_tpl value sub;; setitem r key (VRef sub)
      end) (fun _ s2 => item_post key value r o s s2) s.
Proof.
  intros IH Hwf Hr Hk. pose proof (lookup_lt_neq _ _ _ Hwf Hr) as Hne.
  pose proof (Hwf r ltac:(eauto)) as Hrlt.
  apply wp_bind. eapply wp_mono; [|apply wp_setdefault_absent; eauto].
  intros v s1 (-> & Hh1 & Hn1 & Hc1 & Hd1 & Hu1).
  set (n := next_loc s) in *.
  set (o1 := {| o_class := o_class o; o_dict := <[key := VRef n]> (o_dict o) |}).
  assert (Hr1 : heap s1 !! r = Some o1) by (rewrite Hh1; apply lookup_insert_eq).
  assert (Hn1' : heap s1 !! n = Some empty_obj)
    by (rewrite Hh1, lookup_insert_ne, lookup_insert_eq by congruence; reflexivity).
  assert (Hfr1 : forall x, x < n -> x <> r -> heap s1 !! x = heap s !! x)
    by (intros x Hx Hxr; rewrite Hh1, !lookup_insert_ne by (congruence || lia); reflexivity).
  assert (Hwf1 : store_wf s1) by (intros l Hl; rewrite Hn1; rewrite Hh1 in Hl; exact (store_wf_insert2 _ _ _ _ Hwf Hr l Hl)).
  assert (Hk1 : o_dict o1 !! key = Some (VRef n)) by apply lookup_insert_eq.
  destruct value as [ps|sub].
  - eapply wp_mono; [|exact (persist_keys_spec r key n ps s1 o1 ∅ Hr1 Hk1 Hne Hn1')].
    intros _ s2 (D & Hh2 & HF & Hnl & Hc & Hd & Hu).
    assert (Hfr2 : forall x, x <> n -> heap s2 !! x = heap s1 !! x)
      by (intros x Hx; rewrite Hh2; apply lookup_insert_ne; congruence).
    repeat split; try congruence.
    + intros l Hl. rewrite Hnl. destruct (decide (l = n)) as [->|]; [lia|].
      rewrite Hfr2 in Hl by congruence. exact (Hwf1 l Hl).
    + lia.
    + rewrite Hfr2 by congruence. exact Hr1.
    + exists {| o_class := None; o_dict := D |}. rewrite Hh2, lookup_insert_eq.
      split; [reflexivity|]. rewrite (core_val_eq s s1) in HF by exact Hc1. exact HF.
    + intros x Hx Hxr. rewrite Hfr2 by lia. now apply Hfr1.
  - apply wp_bind, wp_bind. apply (wp_getitem _ _ _ _ _ _ Hr1 Hk1), wp_deref.
    apply wp_bind. eapply wp_mono; [|apply (IH sub eq_refl n empty_obj s1 Hwf1 Hn1')];
      [|apply List.Forall_forall; intros k _; apply lookup_empty].
    intros _ s2 (Hwf2 & Hc2 & Hd2 & Hu2 & Hle2 & Hh2 & Hfr2 & _).
    assert (Hr2 : heap s2 !! r = Some o1) by (rewrite Hfr2 by lia; exact Hr1).
    apply (wp_setitem _ _ _ o1 _ _ Hr2).
    assert (Eo1 : {| o_class := o_class o1; o_dict := <[key := VRef n]> (o_dict o1) |} = o1)
      by (unfold o1; simpl; now rewrite insert_insert_eq).
    rewrite Eo1.
    assert (Hfr3 : forall x, x <> r -> (<[r := o1]> (heap s2)) !! x = heap s2 !! x)
      by (intros x Hx; apply lookup_insert_ne; congruence).
    unfold item_post, set_heap, store_wf in *; cbn [heap next_loc core persist_default uuid_map].
    repeat split; try congruence.
    + intros l Hl. destruct (decide (l = r)) as [->|]; [rewrite Hn1 in Hle2; lia|].
      rewrite Hfr3 in Hl by congruence. exact (Hwf2 l Hl).
    + rewrite Hn1 in Hle2. lia.
    + apply lookup_insert_eq.
    + rewrite <- (core_val_eq s s1) by exact Hc1.
      apply (node_holds_mono _ _ (next_loc s1) (next_loc s2)); [lia | lia|].
      apply (node_holds_frame (heap s2)); [intros x Hx; apply Hfr3; lia | apply Hfr3; exact (not_eq_sym Hne) | exact Hh2].
    + intros x Hx Hxr. rewrite Hfr3 by exact Hxr. rewrite Hfr2 by lia. now apply Hfr1.
Qed.

Lemma fill_post_cons key value rest r o s s2 s3 :
  key ∉ map fst rest -> store_wf s -> heap s !! r = Some o ->
  item_post key value r o s s2 ->
  fill_post rest r {| o_class := o_class o; o_dict := <[key := VRef (next_loc s)]> (o_dict o) |} s2 s3 ->
  fill_post ((key, value) :: rest) r o s s3.
Proof.
  intros Hkey Hwf Hr (Hwf2 & Hc2 & Hd2 & Hu2 & Hlt2 & Hr2 & Hv2 & Hfr2)
    (Hwf3 & Hc3 & Hd3 & Hu3 & Hle3 & Hh3 & Hfr3 & o' & Ho' & Hcl & Hk').
  pose proof (Hwf r ltac:(eauto)) as Hrlt.
  split; [exact Hwf3|]. split; [congruence|]. split; [congruence|]. split; [congruence|].
  split; [lia|]. split; [|split].
  - rewrite node_holds_cons. split.
    + exists o', (next_loc s). split; [exact Ho'|]. split.
      * rewrite Hk' by exact Hkey. apply lookup_insert_eq.
      * split; [lia|].
        apply (node_holds_mono _ _ (next_loc s) (next_loc s2)); [lia | lia |].
        apply (node_holds_frame (heap s2)); [intros x Hx; apply Hfr3; lia | apply Hfr3; lia | exact Hv2].
    + rewrite (core_val_eq s s2) in Hh3 by exact Hc2.
      apply (node_holds_mono _ _ (next_loc s2) (next_loc s3)); [lia | lia | exact Hh3].
  - intros x Hx Hxr. rewrite Hfr3 by lia. now apply Hfr2.
  - exists o'. split; [exact Ho'|]. split; [exact Hcl|].
    intros k Hk. simpl in Hk. apply not_elem_of_cons in Hk as [Hk1 Hk2].
    rewrite Hk' by exact Hk2. simpl. now rewrite lookup_insert_ne by congruence.
Qed.

(** Filling a template into a dict that has none of its keys stores, for
    every setting of the template, [core.get(setting)] under the
    template's path of keys, in fresh dicts. *)
Lemma persist_tpl_spec items : tpl_wf (TSub items) = true -> fill_spec items.
Proof.
  enough (H : forall t, tpl_wf t = true -> forall items, t = TSub items -> fill_spec items)
    by (intros Hw; exact (H _ Hw items eq_refl)).
  intros t. induction t as [ps|items' IH] using template_ind'; intros Hw its Heq; [discriminate|].
  injection Heq as <-. induction items' as [|[key value] rest IHr].
  - intros r o s Hwf Hr _. apply wp_ret.
    repeat split; try lia; auto.
    exists o. repeat split; auto.
  - apply tpl_wf_cons in Hw as (Hkey & Hwv & Hwr).
    inversion IH as [|? ? IHv IHrest]; subst. specialize (IHr IHrest Hwr).
    intros r o s Hwf Hr Habs. simpl in Habs. apply Forall_cons in Habs as [Hk Habs].
    pose proof (persist_item_spec key value r o s (fun sub E => IHv Hwv sub E) Hwf Hr Hk) as Hitem.
    rewrite persist_tpl_cons. apply wp_bind. apply wp_bind in Hitem.
    eapply wp_mono; [|exact Hitem]. intros x s1 H1. apply wp_bind.
    eapply wp_mono; [|exact H1]. intros y s2 H2.
    pose proof H2 as (Hwf2 & _ & _ & _ & _ & Hr2 & _).
    eapply wp_mono; [intros z s3 H3; exact (fill_post_cons _ _ _ _ _ _ _ _ Hkey Hwf Hr H2 H3)|].
    apply (IHr r _ s2 Hwf2 Hr2). apply Forall_forall. intros k Hkin. simpl.
    rewrite lookup_insert_ne by (intros ->; contradiction).
    exact (proj1 (Forall_forall _ _) Habs k Hkin).
Qed.

Lemma set_all_app cv ps1 ps2 c : set_all cv (ps1 ++ ps2) c = set_all cv ps2 (set_all cv ps1 c).
Proof. apply fold_left_app. Qed.

Lemma lookup_set_all cv ps c p :
  set_all cv ps c !! p = if bool_decide (p ∈ ps) then Some (cv p) else c !! p.
Proof.
  revert c. induction ps as [|q ps IH]; intros c.
  - reflexivity.
  - change (set_all cv (q :: ps) c) with (set_all cv ps (<[q := cv q]> c)). rewrite IH. destruct (decide (p ∈ ps)) as [Hin|Hin].
    + rewrite !bool_decide_eq_true_2; [reflexivity | now apply elem_of_cons; right | exact Hin].
    + rewrite (bool_decide_eq_false_2 (p ∈ ps)) by exact Hin.
      destruct (decide (p = q)) as [->|Hpq].
      * rewrite bool_decide_eq_true_2 by (apply elem_of_cons; left; reflexivity). apply lookup_insert_eq.
      * rewrite bool_decide_eq_false_2 by (rewrite elem_of_cons; tauto).
        now rewrite lookup_insert_ne by congruence.
Qed.

(** The [for setting in value] loop of [set_persist_data] over a dict
    holding the data. *)
Lemma restore_keys_spec r key o l' o' ps cv s :
  heap s !! r = Some o -> o_dict o !! key = Some (VRef l') -> heap s !! l' = Some o' ->
  Forall (fun p => o_dict o' !! p = Some (cv p)) ps ->
  wp (forM_ ps (fun setting =>
        d ← subscript (VRef r) key;
        contains d setting ≫= fun (present : bool) =>
        if present then (v ← subscript d setting; core_set setting v) else mret tt))
     (fun _ s' => restore_post ps cv s s') s.
Proof.
  intros Hr Hk Hl' HF.
  set (I := fun rem s2 => exists pre, ps = app pre rem /\ heap s2 = heap s /\
        next_loc s2 = next_loc s /\ persist_default s2 = persist_default s /\
        uuid_map s2 = uuid_map s /\ core s2 = set_all cv pre (core s)).
  eapply wp_mono; [|apply (wp_forM_ _ _ I)].
  - intros _ s2 (pre & Hps & Hh & Hn & Hd & Hu & Hc). rewrite app_nil_r in Hps. subst pre.
    repeat split; assumption.
  - exists []. repeat split.
  - intros x rest s2 (pre & Hps & Hh & Hn & Hd & Hu & Hc).
    assert (Hx : o_dict o' !! x = Some (cv x)).
    { apply (proj1 (Forall_forall _ _) HF). rewrite Hps. apply elem_of_app. right. apply elem_of_cons; left; reflexivity. }
    rewrite <- Hh in Hr, Hl'.
    apply wp_bind. unfold subscript. apply wp_bind, wp_deref, (wp_getitem _ _ _ _ _ _ Hr Hk).
    apply wp_bind. apply (wp_has_key _ _ _ _ _ Hl'). rewrite bool_decide_eq_true_2 by eauto.
    apply wp_bind, wp_bind, wp_deref, (wp_getitem _ _ _ _ _ _ Hl' Hx), wp_core_set.
    exists (app pre [x]). simpl. repeat split; try assumption.
    + now rewrite <- app_assoc.
    + rewrite set_all_app, Hc. reflexivity.
Qed.

Lemma restore_post_app ps1 ps2 cv s s1 s2 :
  restore_post ps1 cv s s1 -> restore_post ps2 cv s1 s2 -> restore_post (ps1 ++ ps2) cv s s2.
Proof.
  intros (H1 & N1 & D1 & U1 & C1) (H2 & N2 & D2 & U2 & C2).
  repeat split; try congruence. rewrite C2, C1. symmetry. apply set_all_app.
Qed.

(** [set_persist_data] over a dict holding the data of a template sets
    every setting of the template, in the template's order. *)
Lemma restore_tpl_spec cv lo hi items r s :
  node_holds (heap s) cv lo hi (TSub items) r ->
  wp (restore_tpl (TSub items) (VRef r)) (fun _ s' => restore_post (tpl_params (TSub items)) cv s s') s.
Proof.
  enough (H : forall t, forall items, t = TSub items -> forall r s,
    node_holds (heap s) cv lo hi (TSub items) r ->
    wp (restore_tpl (TSub items) (VRef r)) (fun _ s' => restore_post (tpl_params (TSub items)) cv s s') s)
    by exact (H _ items eq_refl r s).
  clear r s. intros t. induction t as [ps|items' IH] using template_ind'; intros its Heq; [discriminate|].
  injection Heq as <-. induction items' as [|[key value] rest IHr]; intros r s Hh.
  - apply wp_ret. repeat split.
  - inversion IH as [|? ? IHv IHrest]; subst. specialize (IHr IHrest).
    apply node_holds_cons in Hh as [(o & l' & Hr & Hk & _ & Hv) Hrest].
    rewrite restore_tpl_cons, tpl_params_cons. apply wp_bind.
    assert (Hnext : forall s1, restore_post (tpl_params value) cv s s1 ->
              wp (restore_tpl (TSub rest) (VRef r))
                 (fun _ s' => restore_post (tpl_params value ++ tpl_params (TSub rest)) cv s s') s1).
    { intros s1 Hp1. pose proof Hp1 as (Hh1 & _). rewrite <- Hh1 in Hrest.
      eapply wp_mono; [|exact (IHr r s1 Hrest)]. intros u s2 Hp2. exact (restore_post_app _ _ _ _ _ _ Hp1 Hp2). }
    destruct value as [ps|sub].
    + destruct Hv as (o' & Hl' & HF).
      eapply wp_mono; [|exact (restore_keys_spec r key o l' o' ps cv s Hr Hk Hl' HF)].
      intros u s1 Hp1. exact (Hnext s1 Hp1).
    + unfold subscript. apply wp_bind, wp_bind, wp_deref, (wp_getitem _ _ _ _ _ _ Hr Hk).
      eapply wp_mono; [|exact (IHv sub eq_refl l' s Hv)]. intros u s1 Hp1. exact (Hnext s1 Hp1).
Qed.

(** ** Properties of PluginBase persistence *)

(** C29: saving the settings of a template and loading them back
    restores them.  [get_persist_data(what)] fills the default dict (which
    holds none of the template's keys: the first call) with
    [core.get(setting)] for every setting of the template; whatever the
    settings are changed to in between ([c]), [set_persist_data(what,
    data)] then sets every setting of the template back to its saved
    value and leaves every other setting as it is.  The run returns
    normally. *)
Theorem persist_settings_roundtrip pl what items c s :
  getattr_template pl what = Some items -> items <> [] -> tpl_wf (TSub items) = true ->
  store_wf s ->
  (exists o, heap s !! persist_default s = Some o /\ Forall (fun k => o_dict o !! k = None) (map fst items)) ->
  wp (v ← get_persist_data pl what; modify (set_core c);; set_persist_data pl what v)
     (fun _ s' => forall p, core s' !! p =
        if bool_decide (p ∈ tpl_params (TSub items)) then Some (core_val s p) else c !! p) s.
Proof.
  intros Hg Hne Htw Hwf (o & Ho & Habs).
  destruct items as [|it its]; [congruence|].
  apply wp_bind. unfold get_persist_data. rewrite Hg.
  apply wp_bind, wp_gets, wp_bind. unfold persist_loop.
  eapply wp_mono; [|exact (persist_tpl_spec _ Htw _ o s Hwf Ho Habs)].
  intros u s1 (_ & _ & _ & _ & _ & Hh & _). apply wp_ret.
  apply wp_bind, wp_modify. unfold set_persist_data. rewrite Hg. unfold restore_loop.
  change (heap s1) with (heap (set_core c s1)) in Hh.
  eapply wp_mono; [|exact (restore_tpl_spec _ _ _ _ _ _ Hh)].
  intros u' s2 (_ & _ & _ & _ & Hc) p. rewrite Hc. apply lookup_set_all.
Qed.

Lemma keeps_persist_tpl t r : keeps (persist_tpl t r).
Proof.
  revert r. induction t as [ps|items IH] using template_ind'; intros r; [apply keeps_ret|].
  induction items as [|[key value] rest IHr]; [apply keeps_ret|].
  inversion IH as [|? ? IHv IHrest]; subst. rewrite persist_tpl_cons.
  specialize (IHr IHrest). destruct value; solve_keeps.
Qed.

Lemma persist_tpl_keys items r s x s' :
  store_wf s -> persist_tpl (TSub items) r s = Ok (x, s') ->
  forall k, k ∈ map fst items -> exists o', heap s' !! r = Some o' /\ is_Some (o_dict o' !! k).
Proof.
  revert s. induction items as [|[key value] rest IHr]; intros s Hwf H k Hk; [inv Hk|].
  rewrite persist_tpl_cons in H.
  apply bind_ok in H as (v1 & s1 & E1 & H). apply bind_ok in H as (v2 & s2 & E2 & H).
  destruct (keeps_setdefault r key _ _ _ Hwf E1) as [Hwf1 _].
  pose proof (setdefault_has_key r key s v1 s1 E1) as Hk1.
  assert (Hkm : keeps (match value with
       | TKeys params => forM_ params (fun param =>
           sub ← getitem r key ≫= deref; v ← core_get param; setitem sub param v)
       | TSub _ => sub ← getitem r key ≫= deref; persist_tpl value sub;; setitem r key (VRef sub)
       end)).
  { destruct value; solve_keeps; apply keeps_persist_tpl. }
  destruct (Hkm _ _ _ Hwf1 E2) as [Hwf2 G2].
  destruct (keeps_persist_tpl (TSub rest) r _ _ _ Hwf2 H) as [_ G3].
  apply elem_of_cons in Hk as [->|Hk].
  - destruct Hk1 as (o1 & Ho1 & Hs1). destruct (proj2 (grows_trans _ _ _ G2 G3) _ _ Ho1) as (o3 & Ho3 & K).
    exists o3. split; [exact Ho3 | exact (K _ Hs1)].
  - exact (IHr s2 Hwf2 H k Hk).
Qed.

(** One call of [get_persist_data] with a nonempty template: it returns
    the default dict, which now has every top-level key of the template. *)
Lemma get_persist_data_default pl what items s v s1 :
  getattr_template pl what = Some items -> items <> [] -> store_wf s ->
  get_persist_data pl what s = Ok (v, s1) ->
  v = VRef (persist_default s) /\ store_wf s1 /\ grows s s1 /\
  exists o, heap s1 !! persist_default s = Some o /\
    forall k, k ∈ map fst items -> is_Some (o_dict o !! k).
Proof.
  intros Hg Hne Hwf H. unfold get_persist_data in H. rewrite Hg in H.
  destruct items as [|it its]; [congruence|].
  apply bind_ok in H as (r & sa & Ea & H). inv Ea.
  apply bind_ok in H as (u & sb & Eb & H). inv H.
  destruct (keeps_persist_tpl _ _ _ _ _ Hwf Eb) as [Hwf1 G1].
  split; [reflexivity|]. split; [exact Hwf1|]. split; [exact G1|].
  destruct it as [k0 t0].
  destruct (persist_tpl_keys _ _ _ _ _ Hwf Eb k0 ltac:(apply elem_of_cons; left; reflexivity)) as (o & Ho & _).
  exists o. split; [exact Ho|]. intros k Hk.
  destruct (persist_tpl_keys _ _ _ _ _ Hwf Eb k Hk) as (o' & Ho' & Hk'). congruence.
Qed.

(** C30: [PluginBase.get_persist_data] has the mutable default argument
    [result={}]: every call with a nonempty template fills and returns the
    same dict.  Two calls for two different plugins return the very same
    object, and after the second call it holds the keys of both
    plugins' templates, so the data returned for the first plugin now
    contains the second plugin's settings. *)
Theorem get_persist_data_shared pl1 pl2 what items1 items2 s v1 v2 s' :
  getattr_template pl1 what = Some items1 -> items1 <> [] ->
  getattr_template pl2 what = Some items2 -> items2 <> [] -> store_wf s ->
  (x1 ← get_persist_data pl1 what; x2 ← get_persist_data pl2 what; mret (x1, x2)) s = Ok ((v1, v2), s') ->
  v1 = v2 /\ v1 = VRef (persist_default s) /\
  exists o, heap s' !! persist_default s = Some o /\
    forall k, k ∈ app (map fst items1) (map fst items2) -> is_Some (o_dict o !! k).
Proof.
  intros Hg1 Hne1 Hg2 Hne2 Hwf H.
  apply bind_ok in H as (x1 & s1 & E1 & H). apply bind_ok in H as (x2 & s2 & E2 & H). inv H.
  destruct (get_persist_data_default _ _ _ _ _ _ Hg1 Hne1 Hwf E1) as (-> & Hwf1 & [D1 G1] & o1 & Ho1 & K1).
  destruct (get_persist_data_default _ _ _ _ _ _ Hg2 Hne2 Hwf1 E2) as (-> & _ & [D2 G2] & o2 & Ho2 & K2).
  rewrite D1 in *. split; [reflexivity|]. split; [reflexivity|].
  exists o2. split; [exact Ho2|]. intros k Hk. apply elem_of_app in Hk as [Hk|Hk]; [|exact (K2 k Hk)].
  destruct (G2 _ _ Ho1) as (o2' & Ho2' & K). rewrite Ho2 in Ho2'. inv Ho2'. exact (K _ (K1 k Hk)).
Qed.

(** ** ListPluginBase persistence *)

(** [while len(self) > 0: self.pop()] empties the list with one model
    update per item. *)
Lemma pop_all_spec {A} (ls : ListPlugin.list_state A) :
  pop_all ls = {| ListPlugin.items := []; ListPlugin.updates := ListPlugin.updates ls + length (ListPlugin.items ls) |}.
Proof.
  unfold pop_all. remember (length (ListPlugin.items ls)) as n eqn:Hn. revert ls Hn.
  induction n as [|n IH]; intros [its u] Hn; simpl in *.
  - destruct its; [|discriminate]. f_equal. lia.
  - destruct its as [|x its']; [discriminate|].
    destruct (ListPlugin.py_pop_ok (x :: its') (length (x :: its') - 1) ltac:(simpl; lia)) as [y [_ Hpop]].
    unfold ListPlugin.pop_at. simpl ListPlugin.items. rewrite Hpop. rewrite IH.
    + simpl. f_equal. lia.
    + cbn [ListPlugin.items]. rewrite ListPlugin.length_pop by (simpl; lia). simpl in *. lia.
Qed.

(** C31: [ListPluginBase.set_persist_data] does not look at [what]:
    called with data that has no entry for the plugin's name (the data of
    the other kind of settings, say), it still pops every item and leaves
    the list empty. *)
Theorem list_set_persist_data_clears name cls what d o ls s :
  heap s !! d = Some o -> o_dict o !! name = None ->
  wp (list_set_persist_data name (Some cls) what (VRef d) ls)
     (fun ls' s' => ListPlugin.items ls' = [] /\
        ListPlugin.updates ls' = S (ListPlugin.updates ls + length (ListPlugin.items ls)) /\ s' = s) s.
Proof.
  intros Hd Hn. unfold list_set_persist_data. cbv zeta.
  apply wp_bind, wp_ret, wp_bind. unfold dict_get. apply wp_bind, (wp_load _ o _ _ Hd).
  rewrite Hn. apply wp_ret, wp_bind, wp_ret, wp_bind, wp_ret, wp_ret.
  rewrite pop_all_spec. repeat split.
Qed.


(** ** Scenarios *)

Module PersistScenarios.

(** A store with the default dict at location 0 and two settings. *)
Definition uuid_of (n : nat) : string := String (Ascii.ascii_of_nat (48 + n)) "".

Definition s0 : store :=
  {| heap := {[ 0 := empty_obj ]}; next_loc := 1; uuid_map := ∅;
     core := {[ "x" := VInt 1; "y" := VInt 2 ]}; uuid4 := uuid_of; uuid_next := 0;
     persist_default := 0 |}.

Definition plugin_a : persist_plugin :=
  {| pp_name := "A";
     PERSIST_GENERAL_PREFERENCES := [("view", TSub [("x", TKeys ["x"])]); ("y", TKeys ["y"])];
     PERSIST_TASK_SETTINGS := [] |}.

Definition plugin_b : persist_plugin :=
  {| pp_name := "B"; PERSIST_GENERAL_PREFERENCES := [("b", TKeys ["y"])];
     PERSIST_TASK_SETTINGS := [] |}.

Definition task_class : entity_class :=
  {| node_key := "task"; defaults := [("parameters", LDict [])];
     entitylist_parameters := ["bounds"]; PERSIST := true |}.







Definition two_plugins : M (pyval * pyval) :=
  x1 ← get_persist_data plugin_a "PERSIST_GENERAL_PREFERENCES";
  x2 ← get_persist_data plugin_b "PERSIST_GENERAL_PREFERENCES";
  mret (x1, x2).

Lemma store_wf_s0 : store_wf s0.
Proof.
  intros l [o Hl]. change (heap s0) with ({[0 := empty_obj]} : gmap loc obj) in Hl.
  change (next_loc s0) with 1. destruct (decide (l = 0)) as [->|Hne]; [lia|].
  rewrite lookup_singleton_ne in Hl by congruence. discriminate.
Qed.


Lemma persist_settings_roundtrip_witness :
  wp (v ← get_persist_data plugin_a "PERSIST_GENERAL_PREFERENCES";
      modify (set_core ∅);; set_persist_data plugin_a "PERSIST_GENERAL_PREFERENCES" v)
     (fun _ s' => forall p, core s' !! p =
        if bool_decide (p ∈ tpl_params (TSub (PERSIST_GENERAL_PREFERENCES plugin_a)))
        then Some (core_val s0 p) else (∅ : gmap string pyval) !! p) s0.
Proof.
  apply (persist_settings_roundtrip plugin_a "PERSIST_GENERAL_PREFERENCES"); try reflexivity.
  - discriminate.
  - exact store_wf_s0.
  - exists empty_obj. split; [reflexivity|]. repeat constructor.
Defined.

Lemma get_persist_data_shared_witness :
  exists v1 v2 s',
    two_plugins s0 = Ok ((v1, v2), s') /\
    v1 = v2 /\ v1 = VRef (persist_default s0) /\
    exists o, heap s' !! persist_default s0 = Some o /\
      forall k, k ∈ app (map fst (PERSIST_GENERAL_PREFERENCES plugin_a))
                          (map fst (PERSIST_GENERAL_PREFERENCES plugin_b)) -> is_Some (o_dict o !! k).
Proof.
  do 3 eexists. split; [vm_compute; reflexivity|].
  apply (get_persist_data_shared plugin_a plugin_b "PERSIST_GENERAL_PREFERENCES" _ _ s0);
    try reflexivity; try discriminate.
  exact store_wf_s0.
Defined.

Lemma list_set_persist_data_clears_witness :
  wp (list_set_persist_data "Tasks" (Some task_class) "PERSIST_GENERAL_PREFERENCES" (VRef 0)
        {| ListPlugin.items := [5; 6]; ListPlugin.updates := 0 |})
     (fun ls' s' => ListPlugin.items ls' = [] /\ ListPlugin.updates ls' = S (0 + 2) /\ s' = s0) s0.
Proof.
  apply (list_set_persist_data_clears "Tasks" task_class "PERSIST_GENERAL_PREFERENCES" 0 empty_obj
           {| ListPlugin.items := [5; 6]; ListPlugin.updates := 0 |} s0); reflexivity.
Defined.

End PersistScenarios.

End Persist.
