(* ===== verification/Handlers.v ===== *)
(** * Handlers: the registration methods of [PluginBase]

    Models lines 97-208 of [src/pycam/Plugins/__init__.py]:
    [register_core_methods], [unregister_core_methods], the memoising
    [__get_handler_func], [register_event_handlers],
    [unregister_event_handlers], [register_gtk_handlers],
    [unregister_gtk_handlers], [setup], [teardown],
    [register_gtk_accelerator] and [unregister_gtk_accelerator].

    The values a plugin passes around are strings, Python or GTK objects
    (by identity) and integers ([hval]).  A handler returned by
    [__get_handler_func] is either the function itself or a new lambda
    object, identified by a fresh object number.  The core's event
    registry is not in the repository: it is the interface [EventCore],
    whose laws hold up to an equivalence [≡] (registration order does not
    matter, unregistering the handler just registered undoes it); a
    multiset registry is an instance.  The core's method table and
    settings ([addmethod], [delmethod], [set]) and the GTK objects
    (signal connections with global handler ids, action groups, the UI
    manager's list of groups, the accelerator map) are modelled as maps in
    a [world] record.  Exceptions end a call with [Err]; [gtk] is assumed
    importable. *)

From Stdlib Require Import String List ZArith Lia.
From stdpp Require Import base countable gmap gmultiset strings list.
From S2P Require Import Prelude.
Import ListNotations.

Module Handlers.

(** ** Values and handlers *)

Inductive hval : Type :=
  | HStr (s : string)       (* a str: an event name or a signal *)
  | HObj (o : nat)          (* a function, method or GTK object, by identity *)
  | HInt (z : Z).           (* any other parameter *)

#[export] Instance hval_eq_dec : EqDecision hval.
Proof. solve_decision. Defined.

#[export] Instance hval_countable : Countable hval.
Proof.
  refine (inj_countable'
    (fun v => match v with HStr s => inl s | HObj o => inr (inl o) | HInt z => inr (inr z) end)
    (fun x => match x with inl s => HStr s | inr (inl o) => HObj o | inr (inr z) => HInt z end) _).
  by intros [].
Defined.

(** What [__get_handler_func] returns: a lambda emitting the event (new
    object [obj]), the function itself, or a lambda appending the
    parameters (new object [obj]). *)
Inductive handler : Type :=
  | HEmit (event : string) (params : list hval) (obj : nat)
  | HPlain (func : hval)
  | HBound (func : hval) (params : list hval) (obj : nat).

#[export] Instance handler_eq_dec : EqDecision handler.
Proof. solve_decision. Defined.

#[export] Instance handler_countable : Countable handler.
Proof.
  refine (inj_countable'
    (fun h => match h with
              | HEmit e ps o => inl (e, ps, o)
              | HPlain f => inr (inl f)
              | HBound f ps o => inr (inr (f, ps, o)) end)
    (fun x => match x with
              | inl (e, ps, o) => HEmit e ps o
              | inr (inl f) => HPlain f
              | inr (inr (f, ps, o)) => HBound f ps o end) _).
  by intros [].
Defined.

(** ** The core's event registry *)

(** What the core promises the plugins: [register_event] and
    [unregister_event], equal up to [≡] whatever the order of
    registration, and unregistering the handler just registered undoes
    the registration. *)
Class EventCore (C : Type) `{Equiv C} := {
  core_equivalence :: Equivalence (≡@{C});
  register_event : hval -> handler -> C -> C;
  unregister_event : hval -> handler -> C -> C;
  register_event_proper :: Proper (eq ==> eq ==> (≡) ==> (≡)) register_event;
  unregister_event_proper :: Proper (eq ==> eq ==> (≡) ==> (≡)) unregister_event;
  register_event_comm n1 h1 n2 h2 c :
    register_event n1 h1 (register_event n2 h2 c) ≡ register_event n2 h2 (register_event n1 h1 c);
  unregister_register n h c : unregister_event n h (register_event n h c) ≡ c
}.

(** A registry that keeps the registrations as a multiset. *)
Definition multiset_core : Type := gmultiset (hval * handler).

#[export] Program Instance multiset_event_core : EventCore multiset_core := {
  register_event n h c := {[+ (n, h) +]} ⊎ c;
  unregister_event n h c := c ∖ {[+ (n, h) +]}
}.
Next Obligation. intros ? n -> ? h -> c1 c2 Hc. multiset_solver. Qed.
Next Obligation. intros ? n -> ? h -> c1 c2 Hc. multiset_solver. Qed.
Next Obligation. multiset_solver. Qed.
Next Obligation. multiset_solver. Qed.

(** ** The state the methods change *)

Section World.
Context {C : Type} `{EventCore C}.

Record world : Type := {
  w_core : C;                                     (* the core's event registry *)
  w_methods : gmap string hval;                   (* core.addmethod / delmethod *)
  w_values : gmap string (option hval);           (* core.set(name, value) *)
  w_cache : gmap (hval * list hval) handler;      (* self._func_cache *)
  w_gtk_ids : list (nat * nat);                   (* self._gtk_handler_id_cache *)
  w_conns : list (nat * nat * string * handler);  (* GTK connections: object, id, signal, handler *)
  w_next_obj : nat;                               (* the next new object *)
  w_next_hid : nat;                               (* the next GTK handler id *)
  w_groups : gmap nat (string * list nat);        (* action groups: name, actions *)
  w_ui_groups : list nat;                         (* the UI manager's action groups *)
  w_accel_paths : gmap nat string;                (* action.set_accel_path *)
  w_accel_map : gmap string string                (* gtk.accel_map_change_entry *)
}.

Definition set_core (c : C) (w : world) : world :=
  {| w_core := c; w_methods := w_methods w; w_values := w_values w; w_cache := w_cache w;
     w_gtk_ids := w_gtk_ids w; w_conns := w_conns w; w_next_obj := w_next_obj w;
     w_next_hid := w_next_hid w; w_groups := w_groups w; w_ui_groups := w_ui_groups w;
     w_accel_paths := w_accel_paths w; w_accel_map := w_accel_map w |}.

Definition set_core_tables (ms : gmap string hval) (vs : gmap string (option hval)) (w : world) : world :=
  {| w_core := w_core w; w_methods := ms; w_values := vs; w_cache := w_cache w;
     w_gtk_ids := w_gtk_ids w; w_conns := w_conns w; w_next_obj := w_next_obj w;
     w_next_hid := w_next_hid w; w_groups := w_groups w; w_ui_groups := w_ui_groups w;
     w_accel_paths := w_accel_paths w; w_accel_map := w_accel_map w |}.

Definition set_cache (cache : gmap (hval * list hval) handler) (w : world) : world :=
  {| w_core := w_core w; w_methods := w_methods w; w_values := w_values w; w_cache := cache;
     w_gtk_ids := w_gtk_ids w; w_conns := w_conns w; w_next_obj := w_next_obj w;
     w_next_hid := w_next_hid w; w_groups := w_groups w; w_ui_groups := w_ui_groups w;
     w_accel_paths := w_accel_paths w; w_accel_map := w_accel_map w |}.

(** A new Python or GTK object. *)
Definition new_obj (w : world) : world :=
  {| w_core := w_core w; w_methods := w_methods w; w_values := w_values w; w_cache := w_cache w;
     w_gtk_ids := w_gtk_ids w; w_conns := w_conns w; w_next_obj := S (w_next_obj w);
     w_next_hid := w_next_hid w; w_groups := w_groups w; w_ui_groups := w_ui_groups w;
     w_accel_paths := w_accel_paths w; w_accel_map := w_accel_map w |}.

Definition set_gtk (ids : list (nat * nat)) (conns : list (nat * nat * string * handler))
    (next_hid : nat) (w : world) : world :=
  {| w_core := w_core w; w_methods := w_methods w; w_values := w_values w; w_cache := w_cache w;
     w_gtk_ids := ids; w_conns := conns; w_next_obj := w_next_obj w;
     w_next_hid := next_hid; w_groups := w_groups w; w_ui_groups := w_ui_groups w;
     w_accel_paths := w_accel_paths w; w_accel_map := w_accel_map w |}.

Definition set_ui (groups : gmap nat (string * list nat)) (ui : list nat)
    (paths : gmap nat string) (amap : gmap string string) (w : world) : world :=
  {| w_core := w_core w; w_methods := w_methods w; w_values := w_values w; w_cache := w_cache w;
     w_gtk_ids := w_gtk_ids w; w_conns := w_conns w; w_next_obj := w_next_obj w;
     w_next_hid := w_next_hid w; w_groups := groups; w_ui_groups := ui;
     w_accel_paths := paths; w_accel_map := amap |}.

End World.
Arguments world C : clear implicits.

(** ** The methods *)

Section Methods.
Context {C : Type} `{EventCore C}.
Local Open Scope string_scope.

(** [register_core_methods] (lines 97-108): [getattr(self, name)]
    raises [AttributeError] for a missing method; the function goes to
    [core.addmethod] and to [core.set]. *)
Fixpoint register_core_methods (attr : string -> option hval) (names : list string)
    (w : world C) : result (world C) :=
  match names with
  | [] => Ok w
  | name :: rest =>
      match attr name with
      | None => Err AttributeError
      | Some func =>
          register_core_methods attr rest
            (set_core_tables (<[name := func]> (w_methods w)) (<[name := Some func]> (w_values w)) w)
      end
  end.

(** [unregister_core_methods] (lines 110-119): [core.delmethod(name)]
    and [core.set(name, None)]. *)
Fixpoint unregister_core_methods (names : list string) (w : world C) : world C :=
  match names with
  | [] => w
  | name :: rest =>
      unregister_core_methods rest
        (set_core_tables (delete name (w_methods w)) (<[name := None]> (w_values w)) w)
  end.

(** [__get_handler_func] (lines 121-140): the handler is cached under
    [(hash(func), repr(params))], modelled as the pair [(func, params)]
    itself; a string becomes a lambda emitting that event, a function
    without parameters is returned as it is, and a function with
    parameters becomes a lambda appending them. *)
Definition get_handler_func (func : hval) (params : list hval) (w : world C) : handler * world C :=
  let key := (func, params) in
  match w_cache w !! key with
  | Some h => (h, w)
  | None =>
      let '(h, w1) :=
        match func with
        | HStr event => (HEmit event params (w_next_obj w), new_obj w)
        | _ => match params with
               | [] => (HPlain func, w)
               | _ => (HBound func params (w_next_obj w), new_obj w)
               end
        end in
      (h, set_cache (<[key := h]> (w_cache w1)) w1)
  end.

(** [name, func = data[:2]] and [params = data[2:]]: a tuple shorter
    than two raises [ValueError]. *)
Definition unpack_event (data : list hval) : result (hval * hval * list hval) :=
  match data with
  | name :: func :: params => Ok (name, func, params)
  | _ => Err ValueError
  end.

(** [register_event_handlers] (lines 142-150). *)
Fixpoint register_event_handlers (event_handlers : list (list hval)) (w : world C)
    : result (world C) :=
  match event_handlers with
  | [] => Ok w
  | data :: rest =>
      '(name, func, params) <- unpack_event data ;;
      let '(h, w1) := get_handler_func func params w in
      register_event_handlers rest (set_core (register_event name h (w_core w1)) w1)
  end.

(** [unregister_event_handlers] (lines 163-171). *)
Fixpoint unregister_event_handlers (event_handlers : list (list hval)) (w : world C)
    : result (world C) :=
  match event_handlers with
  | [] => Ok w
  | data :: rest =>
      '(name, func, params) <- unpack_event data ;;
      let '(h, w1) := get_handler_func func params w in
      unregister_event_handlers rest (set_core (unregister_event name h (w_core w1)) w1)
  end.

(** [obj.connect(signal, handler)]: GTK hands out a new handler id. *)
Definition gtk_connect (o : nat) (signal : string) (h : handler) (w : world C) : nat * world C :=
  let hid := w_next_hid w in
  (hid, set_gtk (w_gtk_ids w) (app (w_conns w) [(o, hid, signal, h)]) (S hid) w).

(** [register_gtk_handlers] (lines 152-161): [obj, signal, func =
    data[:3]]; [obj.connect] is looked up before the handler is built
    ([AttributeError] for a non-object) and rejects a non-string signal
    when called ([TypeError]). *)
Fixpoint register_gtk_handlers (gtk_widget_handlers : list (list hval)) (w : world C)
    : result (world C) :=
  match gtk_widget_handlers with
  | [] => Ok w
  | data :: rest =>
      match data with
      | obj :: signal :: func :: params =>
          match obj with
          | HObj o =>
              let '(h, w1) := get_handler_func func params w in
              match signal with
              | HStr sig =>
                  let '(handler_id, w2) := gtk_connect o sig h w1 in
                  register_gtk_handlers rest
                    (set_gtk (app (w_gtk_ids w2) [(o, handler_id)]) (w_conns w2) (w_next_hid w2) w2)
              | _ => Err TypeError
              end
          | _ => Err AttributeError
          end
      | _ => Err ValueError
      end
  end.

(** [obj.disconnect(handler_id)]; an unknown id changes nothing. *)
Definition gtk_disconnect (o hid : nat) (w : world C) : world C :=
  set_gtk (w_gtk_ids w)
    (List.filter (fun c => negb (Nat.eqb c.1.1.1 o && Nat.eqb c.1.1.2 hid)) (w_conns w))
    (w_next_hid w) w.

(** The [while self._gtk_handler_id_cache: ... pop()] loop, given the
    cache in the order it is popped. *)
Fixpoint disconnect_popped (popped : list (nat * nat)) (w : world C) : world C :=
  match popped with
  | [] => w
  | (o, hid) :: rest => disconnect_popped rest (gtk_disconnect o hid w)
  end.

(** [unregister_gtk_handlers] (lines 173-176): its argument is not
    used; every connection in the cache is disconnected, the last one
    first, and the cache ends empty. *)
Definition unregister_gtk_handlers (gtk_widget_handlers : list (list hval)) (w : world C)
    : world C :=
  disconnect_popped (rev (w_gtk_ids w)) (set_gtk [] (w_conns w) (w_next_hid w) w).

(** [setup] and [teardown] of the base class (lines 178-184). *)
Definition setup : result unit := Err NotImplementedError.
Definition teardown : result unit := Err NotImplementedError.

(** [gtk.ActionGroup(groupname)]: a new, empty group. *)
Definition new_action_group (groupname : string) (w : world C) : nat * world C :=
  let g := w_next_obj w in
  (g, new_obj (set_ui (<[g := (groupname, [])]> (w_groups w)) (w_ui_groups w)
                      (w_accel_paths w) (w_accel_map w) w)).

Definition group_actions (g : nat) (w : world C) : list nat :=
  match w_groups w !! g with Some (_, acts) => acts | None => [] end.

Definition group_name (g : nat) (w : world C) : string :=
  match w_groups w !! g with Some (n, _) => n | None => "" end.

(** [register_gtk_accelerator] (lines 186-201): a new action group
    holding the action, its accelerator path, the accelerator (unless
    the string is empty), and the group appended to the UI manager. *)
Definition register_gtk_accelerator (groupname : string) (action : nat)
    (accel_string accel_name : string) (w : world C) : world C :=
  let '(g, w1) := new_action_group groupname w in
  let accel_path := "<pycam>/" ++ accel_name in
  let paths := <[action := accel_path]> (w_accel_paths w1) in
  let amap := if String.eqb accel_string "" then w_accel_map w1
              else <[accel_path := accel_string]> (w_accel_map w1) in
  let groups := <[g := (group_name g w1, app (group_actions g w1) [action])]> (w_groups w1) in
  set_ui groups (app (w_ui_groups w1) [g]) paths amap w1.

(** [unregister_gtk_accelerator] (lines 203-208): the action is removed
    from a new group, which is then empty and is not one of the UI
    manager's groups. *)
Definition unregister_gtk_accelerator (groupname : string) (action : nat) (w : world C)
    : world C :=
  let '(g, w1) := new_action_group groupname w in
  let acts := List.remove Nat.eq_dec action (group_actions g w1) in
  let groups := <[g := (group_name g w1, acts)]> (w_groups w1) in
  if Nat.eqb (length acts) 0 && bool_decide (g ∈ w_ui_groups w1)
  then set_ui groups (List.remove Nat.eq_dec g (w_ui_groups w1)) (w_accel_paths w1) (w_accel_map w1) w1
  else set_ui groups (w_ui_groups w1) (w_accel_paths w1) (w_accel_map w1) w1.

End Methods.

(** ** Specifications *)

Section Specs.
Context {C : Type} `{EventCore C}.

(** Registering, then unregistering, a list of (name, handler) pairs in
    order. *)
Definition reg_all (pairs : list (hval * handler)) (c : C) : C :=
  fold_left (fun c p => register_event p.1 p.2 c) pairs c.

Definition unreg_all (pairs : list (hval * handler)) (c : C) : C :=
  fold_left (fun c p => unregister_event p.1 p.2 c) pairs c.

(** The entry [data] of an event-handler list was registered as [p]: its
    name, and the handler the cache holds for its function and
    parameters. *)
Definition registered (cache : gmap (hval * list hval) handler) (data : list hval)
    (p : hval * handler) : Prop :=
  exists name func params, data = name :: func :: params /\ p.1 = name /\
    cache !! (func, params) = Some p.2.



(** A GTK connection's object and handler id. *)
Definition conn_key (c : nat * nat * string * handler) : nat * nat := (c.1.1.1, c.1.1.2).

(** Every connection has an id GTK has already handed out. *)
Definition gtk_wf (w : world C) : Prop :=
  Forall (fun c => c.1.1.2 < w_next_hid w) (w_conns w).

End Specs.

(** ** Lemmas *)

Section Lemmas.
Context {C : Type} `{EventCore C}.

#[export] Instance reg_all_proper : Proper (eq ==> (≡) ==> (≡)) (@reg_all C _ _).
Proof.
  intros l ? <-. induction l as [|[n h] l IH]; intros c1 c2 Hc; [exact Hc|].
  cbn. apply IH. now rewrite Hc.
Qed.

#[export] Instance unreg_all_proper : Proper (eq ==> (≡) ==> (≡)) (@unreg_all C _ _).
Proof.
  intros l ? <-. induction l as [|[n h] l IH]; intros c1 c2 Hc; [exact Hc|].
  cbn. apply IH. now rewrite Hc.
Qed.

Lemma reg_all_register l n h (c : C) :
  reg_all l (register_event n h c) ≡ register_event n h (reg_all l c).
Proof.
  revert c. induction l as [|[n' h'] l IH]; intros c; [reflexivity|].
  cbn. rewrite register_event_comm. apply IH.
Qed.

(** Unregistering in the order of registration undoes it. *)
Lemma unreg_reg_all l (c : C) : unreg_all l (reg_all l c) ≡ c.
Proof.
  revert c. induction l as [|[n h] l IH]; intros c; [reflexivity|].
  change (unreg_all l (unregister_event n h (reg_all l (register_event n h c))) ≡ c).
  rewrite reg_all_register, unregister_register. apply IH.
Qed.

Lemma set_core_set_core (c1 c2 : C) w : set_core c1 (set_core c2 w) = set_core c1 w.
Proof. reflexivity. Qed.

Lemma get_handler_func_hit func params (w : world C) h :
  w_cache w !! (func, params) = Some h -> get_handler_func func params w = (h, w).
Proof. intros E. unfold get_handler_func. now rewrite E. Qed.

(** [__get_handler_func] leaves everything but the cache and the object
    counter alone, and afterwards the cache holds its result. *)
Lemma get_handler_func_spec func params (w : world C) :
  let '(h, w') := get_handler_func func params w in
  w_cache w' !! (func, params) = Some h /\ w_cache w ⊆ w_cache w' /\
  w_core w' = w_core w /\ w_gtk_ids w' = w_gtk_ids w /\ w_conns w' = w_conns w /\
  w_next_hid w' = w_next_hid w /\ w_next_obj w <= w_next_obj w'.
Proof.
  unfold get_handler_func.
  destruct (w_cache w !! (func, params)) as [h|] eqn:E; [repeat split; auto|].
  assert (Hins : forall (w1 : world C) h, w_cache w1 = w_cache w ->
            w_cache w ⊆ <[(func, params) := h]> (w_cache w1))
    by (intros w1 h' ->; now apply insert_subseteq).
  destruct func as [event|o|z]; [|destruct params..]; cbn;
    (split; [apply lookup_insert_eq|]); (split; [apply Hins; reflexivity|]);
    repeat split; lia.
Qed.

Lemma register_event_handlers_spec hs (w w1 : world C) :
  register_event_handlers hs w = Ok w1 ->
  exists pairs, Forall2 (registered (w_cache w1)) hs pairs /\
    w_core w1 = reg_all pairs (w_core w) /\ w_cache w ⊆ w_cache w1.
Proof.
  revert w. induction hs as [|data rest IH]; intros w Hr; cbn in Hr.
  - inv Hr. exists []. repeat split; [constructor | reflexivity].
  - destruct data as [|name [|func params]]; cbn in Hr; try discriminate.
    pose proof (get_handler_func_spec func params w) as Hs.
    destruct (get_handler_func func params w) as [h w'] eqn:Eg.
    destruct Hs as (Hh & Hsub & Hcore & _).
    destruct (IH _ Hr) as (pairs & HF & Hc & Hsub').
    exists ((name, h) :: pairs). split; [|split].
    + constructor; [|exact HF]. exists name, func, params.
      split; [reflexivity|]. split; [reflexivity|]. exact (lookup_weaken _ _ _ _ Hh Hsub').
    + rewrite Hc. cbn. now rewrite Hcore.
    + etransitivity; [exact Hsub | exact Hsub'].
Qed.

(** With every entry already cached, unregistering only changes the
    core. *)
Lemma unregister_event_handlers_hit hs pairs (w : world C) :
  Forall2 (registered (w_cache w)) hs pairs ->
  unregister_event_handlers hs w = Ok (set_core (unreg_all pairs (w_core w)) w).
Proof.
  revert pairs w. induction hs as [|data rest IH]; intros pairs w HF.
  - inv HF. destruct w; reflexivity.
  - inversion HF as [|d p ds ps Hreg HF' E1 E2]; subst.
    destruct Hreg as (name & func & params & -> & Hn & Hc).
    cbn. rewrite (get_handler_func_hit _ _ _ _ Hc).
    rewrite (IH ps (set_core (unregister_event name p.2 (w_core w)) w) HF').
    destruct p as [n h]. cbn in Hn, Hc |- *. subst n. reflexivity.
Qed.

Lemma filter_filter_andb {A} (f g : A -> bool) l :
  List.filter f (List.filter g l) = List.filter (fun x => g x && f x) l.
Proof.
  induction l as [|x l IH]; [reflexivity|]. cbn.
  destruct (g x) eqn:E1, (f x) eqn:E2; cbn; rewrite ?E1, ?E2; cbn; now rewrite IH.
Qed.

(** [disconnect_popped] drops exactly the connections whose key it was
    given. *)
Lemma disconnect_popped_conns popped (w : world C) :
  w_conns (disconnect_popped popped w) =
    List.filter (fun c => bool_decide (conn_key c ∉ popped)) (w_conns w).
Proof.
  revert w. induction popped as [|[o hid] rest IH]; intros w; cbn.
  - induction (w_conns w) as [|c l IHl]; [reflexivity|]. cbn.
    rewrite <- IHl. case_bool_decide; [reflexivity | set_solver].
  - rewrite IH. cbn. rewrite filter_filter_andb. apply List.filter_ext. intros [[[o' h'] sig] hd].
    unfold conn_key. cbn.
    destruct (Nat.eqb_spec o' o), (Nat.eqb_spec h' hid); subst; cbn;
      repeat case_bool_decide; set_solver.
Qed.

Lemma register_gtk_handlers_spec hs (w w1 : world C) :
  register_gtk_handlers hs w = Ok w1 ->
  exists news, w_conns w1 = app (w_conns w) news /\
    w_gtk_ids w1 = app (w_gtk_ids w) (map conn_key news) /\
    Forall (fun c => w_next_hid w <= c.1.1.2) news.
Proof.
  revert w. induction hs as [|data rest IH]; intros w Hr; cbn in Hr.
  - inv Hr. exists []. rewrite !app_nil_r. repeat split; constructor.
  - destruct data as [|obj [|signal [|func params]]]; try discriminate.
    destruct obj as [s|o|z]; try discriminate.
    pose proof (get_handler_func_spec func params w) as Hs.
    destruct (get_handler_func func params w) as [h w'] eqn:Eg.
    destruct Hs as (_ & _ & _ & Hids & Hconns & Hhid & _).
    destruct signal as [sig| |]; try discriminate. cbn in Hr. destruct (IH _ Hr) as (news & Hc & Hi & Hge). cbn in Hc, Hi, Hge.
    exists ((o, w_next_hid w', sig, h) :: news). rewrite Hconns, Hids, Hhid in *.
    split; [rewrite Hc; now rewrite <- app_assoc|]. split; [rewrite Hi; now rewrite <- app_assoc|].
    constructor; [cbn; lia|]. eapply Forall_impl; [exact Hge | cbn; lia].
Qed.

Lemma disconnect_popped_ids popped (w : world C) :
  w_gtk_ids (disconnect_popped popped w) = w_gtk_ids w.
Proof. revert w. induction popped as [|[o hid] rest IH]; intros w; [reflexivity|]. cbn. now rewrite IH. Qed.

Lemma filter_keep_all {A} (f : A -> bool) l : Forall (fun x => f x = true) l -> List.filter f l = l.
Proof. induction 1 as [|x l Hx _ IH]; [reflexivity|]. cbn. now rewrite Hx, IH. Qed.

Lemma filter_drop_all {A} (f : A -> bool) l : Forall (fun x => f x = false) l -> List.filter f l = [].
Proof. induction 1 as [|x l Hx _ IH]; [reflexivity|]. cbn. now rewrite Hx, IH. Qed.


End Lemmas.

(** ** Properties *)

Section Claims.
Context {C : Type} `{EventCore C}.


(** C5: unregistering the event handlers a plugin registered, with the
    same list, gives the core back its registry (up to [≡]): because
    [__get_handler_func] caches its lambdas, the second call passes the
    very handler objects the first one registered. *)
Theorem event_handlers_roundtrip hs (w w1 : world C) :
  register_event_handlers hs w = Ok w1 ->
  exists w2, unregister_event_handlers hs w1 = Ok w2 /\
    w_core w2 ≡ w_core w /\ w_cache w2 = w_cache w1.
Proof.
  intros Hr. destruct (register_event_handlers_spec _ _ _ Hr) as (pairs & HF & Hc & _).
  eexists. split; [exact (unregister_event_handlers_hit _ _ _ HF)|]. split; [|reflexivity].
  cbn. rewrite Hc. apply unreg_reg_all.
Qed.

(** C13: [unregister_gtk_handlers] disconnects every widget handler the
    plugin connected, whatever list it is given, and empties the cache:
    starting from an empty cache, registering and unregistering gives
    GTK back its connections. *)
Theorem gtk_handlers_roundtrip hs unused (w w1 : world C) :
  gtk_wf w -> w_gtk_ids w = [] -> register_gtk_handlers hs w = Ok w1 ->
  w_conns (unregister_gtk_handlers unused w1) = w_conns w /\
  w_gtk_ids (unregister_gtk_handlers unused w1) = [].
Proof.
  intros Hwf Hids Hr. destruct (register_gtk_handlers_spec _ _ _ Hr) as (news & Hc & Hi & Hge).
  unfold unregister_gtk_handlers. split; [|now rewrite disconnect_popped_ids].
  rewrite disconnect_popped_conns. cbn. rewrite Hc, Hi, Hids, List.filter_app. cbn.
  rewrite filter_keep_all, filter_drop_all; [apply app_nil_r| |].
  - apply List.Forall_forall. intros c Hin. apply bool_decide_eq_false_2. intros Hn.
    apply Hn, list_elem_of_In, (proj1 (in_rev _ _)), in_map_iff. now exists c.
  - apply List.Forall_forall. intros c Hin. apply bool_decide_eq_true_2.
    rewrite list_elem_of_In, <- in_rev, in_map_iff. intros (c' & Hk & Hin').
    apply List.Forall_forall with (x := c') in Hge; [|exact Hin'].
    apply List.Forall_forall with (x := c) in Hwf; [|exact Hin].
    unfold conn_key in Hk. injection Hk as _ Hh. lia.
Qed.

(** C17: [unregister_gtk_accelerator] removes the action from a new,
    empty action group, which is never one of the UI manager's groups:
    after registering and unregistering an accelerator, the group that
    holds the action is still in the UI manager. *)
Theorem gtk_accelerator_unregister_leaks groupname action accel_string accel_name (w : world C) :
  (forall g, g ∈ w_ui_groups w -> g < w_next_obj w) ->
  let w2 := unregister_gtk_accelerator groupname action
              (register_gtk_accelerator groupname action accel_string accel_name w) in
  w_ui_groups w2 = app (w_ui_groups w) [w_next_obj w] /\
  group_actions (w_next_obj w) w2 = [action].
Proof.
  intros Hlt.
  unfold unregister_gtk_accelerator, register_gtk_accelerator, new_action_group, group_actions, group_name.
  cbn [w_groups w_ui_groups w_next_obj w_accel_paths w_accel_map new_obj set_ui].
  repeat first [rewrite lookup_insert_eq | rewrite lookup_insert_ne by lia].
  replace (bool_decide (S (w_next_obj w) ∈ app (w_ui_groups w) [w_next_obj w])) with false.
  - rewrite andb_false_r. cbn [w_groups w_ui_groups set_ui]. split; [reflexivity|].
    repeat first [rewrite lookup_insert_eq | rewrite lookup_insert_ne by lia]. reflexivity.
  - symmetry. apply bool_decide_eq_false_2. rewrite elem_of_app, list_elem_of_singleton.
    intros [Hin|Heq]; [specialize (Hlt _ Hin); lia | lia].
Qed.

End Claims.

Module HandlerScenarios.
Local Open Scope string_scope.

Definition w0 : world multiset_core :=
  {| w_core := ∅; w_methods := ∅; w_values := ∅; w_cache := ∅; w_gtk_ids := []; w_conns := [];
     w_next_obj := 100; w_next_hid := 1; w_groups := ∅; w_ui_groups := [];
     w_accel_paths := ∅; w_accel_map := ∅ |}.

(** A plugin's event handlers: a method, an event re-emitted under
    another name, and a method with a parameter. *)
Definition event_handlers : list (list hval) :=
  [[HStr "model-change-after"; HObj 5];
   [HStr "tool-selection-changed"; HStr "visual-item-updated"];
   [HStr "model-list-changed"; HObj 6; HInt 1]].

Definition gtk_widget_handlers : list (list hval) :=
  [[HObj 10; HStr "clicked"; HObj 5];
   [HObj 11; HStr "changed"; HStr "visual-item-updated"; HInt 2]].



Lemma event_handlers_roundtrip_witness :
  exists w1, register_event_handlers event_handlers w0 = Ok w1 /\
  exists w2, unregister_event_handlers event_handlers w1 = Ok w2 /\
    w_core w2 ≡ w_core w0 /\ w_cache w2 = w_cache w1.
Proof.
  assert (Hr : exists w1, register_event_handlers event_handlers w0 = Ok w1)
    by (apply is_ok_Ok; vm_compute; reflexivity).
  destruct Hr as [w1 E]. exists w1. split; [exact E | exact (event_handlers_roundtrip _ _ _ E)].
Defined.

Lemma gtk_handlers_roundtrip_witness :
  gtk_wf w0 /\ w_gtk_ids w0 = [] /\
  exists w1, register_gtk_handlers gtk_widget_handlers w0 = Ok w1 /\
    w_conns (unregister_gtk_handlers [] w1) = w_conns w0 /\
    w_gtk_ids (unregister_gtk_handlers [] w1) = [].
Proof.
  assert (Hwf : gtk_wf w0) by constructor.
  assert (Hr : exists w1, register_gtk_handlers gtk_widget_handlers w0 = Ok w1)
    by (apply is_ok_Ok; vm_compute; reflexivity).
  destruct Hr as [w1 E]. split; [exact Hwf|]. split; [reflexivity|]. exists w1. split; [exact E|].
  exact (gtk_handlers_roundtrip _ [] w0 w1 Hwf eq_refl E).
Defined.

Lemma gtk_accelerator_unregister_leaks_witness :
  (forall g, g ∈ w_ui_groups w0 -> g < w_next_obj w0) /\
  w_ui_groups (unregister_gtk_accelerator "view" 7
                 (register_gtk_accelerator "view" 7 "<Control>r" "ResetView" w0)) = [100] /\
  group_actions 100 (unregister_gtk_accelerator "view" 7
                 (register_gtk_accelerator "view" 7 "<Control>r" "ResetView" w0)) = [7].
Proof.
  assert (Hlt : forall g, g ∈ w_ui_groups w0 -> g < w_next_obj w0)
    by (intros g Hg; cbn in Hg; set_solver).
  split; [exact Hlt | exact (gtk_accelerator_unregister_leaks "view" 7 "<Control>r" "ResetView" w0 Hlt)].
Defined.

End HandlerScenarios.

End Handlers.
