(* ===== verification/TreeModel.v ===== *)
(** * TreeModel: the GTK tree model of a list plugin

    Models [ListPluginBase._update_gtk_treemodel] (lines 510-537 of
    [src/pycam/Plugins/__init__.py]), which brings the rows of the GTK
    list store (one uuid per row) in line with the items of the plugin:
    it removes the rows whose uuid is no longer an item (from the last
    index down), appends the uuids that have no row, reorders the store
    with [treemodel.reorder(sorted_indices)], emits ["tool-list-changed"]
    and logs a warning when the rows still are not in the order of the
    items.  The uuids are values of any type with decidable equality;
    the store is the list of its rows.  [reorder] has the semantics of
    [gtk_list_store_reorder]: [new_order[newpos] = oldpos]. *)

From Stdlib Require Import List Arith Lia Permutation.
From S2P Require Import Prelude.
Import ListNotations.

Module TreeModel.

Section WithUuid.
Context {U : Type} (eq_dec : forall x y : U, {x = y} + {x <> y}).

(** [x in l] *)
Definition mem (x : U) (l : list U) : bool := if in_dec eq_dec x l then true else false.

(** [l.index(x)], which raises [ValueError] for a missing value. *)
Fixpoint py_index (x : U) (l : list U) : result nat :=
  match l with
  | [] => Err ValueError
  | y :: l' => if eq_dec y x then Ok 0 else (i <- py_index x l' ;; Ok (S i))
  end.

(** [[current_uuids.index(row[0]) for row in treemodel]] *)
Fixpoint index_all (current rows : list U) : result (list nat) :=
  match rows with
  | [] => Ok []
  | u :: rest => i <- py_index u current ;; js <- index_all current rest ;; Ok (i :: js)
  end.

(** [[index for index, item in enumerate(treemodel)
      if not item[0] in current_uuids]] from position [i] on. *)
Fixpoint removal_from (i : nat) (current rows : list U) : list nat :=
  match rows with
  | [] => []
  | u :: rest =>
      if mem u current then removal_from (S i) current rest
      else i :: removal_from (S i) current rest
  end.

(** [treemodel.remove(treemodel.get_iter((index, )))] *)
Fixpoint remove_at (i : nat) (rows : list U) : list U :=
  match rows, i with
  | [], _ => []
  | _ :: rest, O => rest
  | u :: rest, S j => u :: remove_at j rest
  end.

(** [removal_indices.reverse(); for index in removal_indices: ...] *)
Definition remove_rows (current rows : list U) : list U :=
  fold_left (fun rows i => remove_at i rows) (rev (removal_from 0 current rows)) rows.

(** [for uuid in current_uuids: if not uuid in model_uuids:
    treemodel.append((uuid, ))], with [model_uuids] taken before the
    loop. *)
Fixpoint append_missing (model_uuids current rows : list U) : list U :=
  match current with
  | [] => rows
  | u :: rest =>
      append_missing model_uuids rest (if mem u model_uuids then rows else app rows [u])
  end.

(** The rows after the removal and append loops (lines 514-525). *)
Definition synced_rows (current rows : list U) : list U :=
  let rows1 := remove_rows current rows in
  append_missing rows1 current rows1.

(** [gtk_list_store_reorder(store, new_order)]: the row at [newpos] is
    the one that was at [new_order[newpos]]. *)
Definition gtk_reorder (rows : list U) (new_order : list nat) : list U :=
  match fold_right (fun p acc => match nth_error rows p, acc with
                                 | Some u, Some us => Some (u :: us)
                                 | _, _ => None
                                 end) (Some []) new_order with
  | Some us => us
  | None => rows
  end.

(** [_update_gtk_treemodel]: the new rows, whether ["tool-list-changed"]
    was emitted, and whether the reorder warning was logged. *)
Definition update_gtk_treemodel (has_modelview : bool) (current rows : list U)
    : result (list U * bool * bool) :=
  if negb has_modelview then Ok (rows, false, false)
  else
    let rows2 := synced_rows current rows in
    sorted_indices <- index_all current rows2 ;;
    let rows3 := match sorted_indices with [] => rows2 | _ => gtk_reorder rows2 sorted_indices end in
    sorted_after <- index_all current rows3 ;;
    let warned := if list_eq_dec Nat.eq_dec (seq 0 (length sorted_after)) sorted_after
                  then false else true in
    Ok (rows3, true, warned).

(** [get_by_path]: the item whose uuid is in row [path[0]] of the
    store, [None] without a model view or when no item has that uuid;
    indexing the store past its end raises [IndexError]. *)
Definition get_by_path (has_modelview : bool) (current rows : list U) (path : nat)
    : result (option U) :=
  if negb has_modelview then Ok None
  else match nth_error rows path with
       | None => Err IndexError
       | Some uuid => Ok (List.find (fun t => if eq_dec uuid t then true else false) current)
       end.

End WithUuid.

(** ** Lemmas *)

Section Lemmas.
Context {U : Type} (eq_dec : forall x y : U, {x = y} + {x <> y}).

Lemma mem_true x l : mem eq_dec x l = true <-> In x l.
Proof. unfold mem. destruct (in_dec eq_dec x l); split; congruence || tauto. Qed.

Lemma remove_at_app (p l : list U) x : remove_at (length p) (app p (x :: l)) = app p l.
Proof. induction p as [|a p IH]; [reflexivity|]. cbn. now rewrite IH. Qed.

(** Removing the collected indices from the last one down removes
    exactly the rows that are not items. *)
Lemma removal_spec current (prefix rows : list U) :
  fold_left (fun r i => remove_at i r) (rev (removal_from eq_dec (length prefix) current rows))
    (app prefix rows) =
  app prefix (List.filter (fun u => mem eq_dec u current) rows).
Proof.
  revert prefix. induction rows as [|u rest IH]; intros prefix; [reflexivity|].
  specialize (IH (app prefix [u])). rewrite length_app, <- !app_assoc, Nat.add_1_r in IH.
  cbn [app] in IH. cbn [removal_from List.filter]. destruct (mem eq_dec u current).
  - exact IH.
  - cbn [rev]. rewrite fold_left_app, IH. cbn. apply remove_at_app.
Qed.

Lemma remove_rows_filter current (rows : list U) :
  remove_rows eq_dec current rows = List.filter (fun u => mem eq_dec u current) rows.
Proof. exact (removal_spec current [] rows). Qed.

Lemma append_missing_spec (m current rows : list U) :
  append_missing eq_dec m current rows =
  app rows (List.filter (fun u => negb (mem eq_dec u m)) current).
Proof.
  revert rows. induction current as [|u rest IH]; intros rows; cbn; [now rewrite app_nil_r|].
  rewrite IH. destruct (mem eq_dec u m); cbn; [reflexivity | now rewrite <- app_assoc].
Qed.

Lemma synced_rows_spec current (rows : list U) :
  synced_rows eq_dec current rows =
  let kept := List.filter (fun u => mem eq_dec u current) rows in
  app kept (List.filter (fun u => negb (mem eq_dec u kept)) current).
Proof. unfold synced_rows. now rewrite append_missing_spec, remove_rows_filter. Qed.

Lemma in_synced_rows current (rows : list U) x :
  In x (synced_rows eq_dec current rows) <-> In x current.
Proof.
  rewrite synced_rows_spec. cbn zeta. rewrite in_app_iff, !filter_In, mem_true.
  split; [tauto|]. intros Hx.
  destruct (mem eq_dec x (List.filter (fun u => mem eq_dec u current) rows)) eqn:E; [|tauto].
  left. apply mem_true, filter_In in E. tauto.
Qed.

(** With distinct items and distinct rows, the two loops leave each item
    in exactly one row. *)
Lemma synced_rows_nodup current (rows : list U) :
  NoDup current -> NoDup rows -> NoDup (synced_rows eq_dec current rows).
Proof.
  intros Hc Hr. rewrite synced_rows_spec. cbn zeta.
  apply NoDup_app; [now apply NoDup_filter | now apply NoDup_filter|].
  intros a Ha Hb. apply filter_In in Hb as [_ Hb].
  apply Bool.negb_true_iff in Hb. apply mem_true in Ha. congruence.
Qed.

Lemma synced_rows_perm current (rows : list U) :
  NoDup current -> NoDup rows -> Permutation (synced_rows eq_dec current rows) current.
Proof.
  intros Hc Hr. apply NoDup_Permutation; [now apply synced_rows_nodup | exact Hc |].
  intros x. apply in_synced_rows.
Qed.

Lemma Forall2_nth_error {A B} (R : A -> B -> Prop) l1 l2 k a :
  Forall2 R l1 l2 -> nth_error l1 k = Some a -> exists b, nth_error l2 k = Some b /\ R a b.
Proof.
  intros HF. revert k. induction HF as [|x y l1 l2 Hxy _ IH]; intros k Hk; [destruct k; discriminate|].
  destruct k as [|k]; cbn in Hk |- *; [injection Hk as <-; eauto | exact (IH k Hk)].
Qed.

Lemma Forall2_nth_error_r {A B} (R : A -> B -> Prop) l1 l2 k b :
  Forall2 R l1 l2 -> nth_error l2 k = Some b -> exists a, nth_error l1 k = Some a /\ R a b.
Proof.
  intros HF. revert k. induction HF as [|x y l1 l2 Hxy _ IH]; intros k Hk; [destruct k; discriminate|].
  destruct k as [|k]; cbn in Hk |- *; [injection Hk as <-; eauto | exact (IH k Hk)].
Qed.

Lemma py_index_nth x (l : list U) i : py_index eq_dec x l = Ok i -> nth_error l i = Some x.
Proof.
  revert i. induction l as [|y l IH]; intros i H; cbn in H; [discriminate|].
  destruct (eq_dec y x) as [->|]; [now inv H|].
  apply bind_result_Ok in H as (j & Hj & H). inv H. exact (IH j Hj).
Qed.

Lemma py_index_in x (l : list U) : In x l -> exists i, py_index eq_dec x l = Ok i.
Proof.
  induction l as [|y l IH]; intros Hx; [destruct Hx|]. cbn.
  destruct (eq_dec y x) as [->|Hne]; [eauto|].
  destruct IH as [i Hi]; [destruct Hx; [congruence | assumption]|]. rewrite Hi. now exists (S i).
Qed.

(** [current_uuids.index] succeeds on rows that are all items. *)
Lemma index_all_ok current (rows : list U) :
  (forall u, In u rows -> In u current) ->
  exists js, index_all eq_dec current rows = Ok js /\
    Forall2 (fun u j => nth_error current j = Some u) rows js.
Proof.
  induction rows as [|u rest IH]; intros Hin; [exists []; split; constructor|].
  destruct (py_index_in u current (Hin u (or_introl eq_refl))) as [i Hi].
  destruct IH as (js & Hjs & HF); [intros v Hv; apply Hin; now right|].
  exists (i :: js). cbn. rewrite Hi, Hjs. split; [reflexivity|].
  constructor; [exact (py_index_nth _ _ _ Hi) | exact HF].
Qed.

(** [reorder] with indices in range puts row [new_order[k]] at [k]. *)
Lemma gtk_reorder_spec (rows : list U) new_order :
  (forall j, In j new_order -> j < length rows) ->
  Forall2 (fun j u => nth_error rows j = Some u) new_order (gtk_reorder rows new_order).
Proof.
  intros Hr. unfold gtk_reorder.
  enough (H : exists us, fold_right (fun p acc => match nth_error rows p, acc with
                                                  | Some u, Some us => Some (u :: us)
                                                  | _, _ => None end) (Some []) new_order = Some us /\
             Forall2 (fun j u => nth_error rows j = Some u) new_order us)
    by (destruct H as (us & -> & HF); exact HF).
  induction new_order as [|j js IH]; [exists []; split; constructor|].
  destruct IH as (us & Hus & HF); [intros k Hk; apply Hr; now right|]. cbn. rewrite Hus.
  destruct (nth_error rows j) as [u|] eqn:E.
  - exists (u :: us). split; [reflexivity | now constructor].
  - apply nth_error_None in E. specialize (Hr j (or_introl eq_refl)). lia.
Qed.

(** The rows are in the order of the items exactly when every row's
    index is its position. *)
Lemma indices_seq_iff current (rows : list U) js :
  NoDup current -> length rows = length current ->
  Forall2 (fun u j => nth_error current j = Some u) rows js ->
  (js = seq 0 (length js) <-> rows = current).
Proof.
  intros Hc Hlen HF. pose proof (Forall2_length HF) as Hl. split.
  - intros Hjs. apply nth_error_ext. intros k.
    destruct (nth_error rows k) as [u|] eqn:Eu.
    + destruct (Forall2_nth_error _ _ _ _ _ HF Eu) as (j & Ej & Hj).
      rewrite Hjs, nth_error_seq in Ej.
      destruct (Nat.ltb_spec k (length js)); [|discriminate]. injection Ej as <-. now rewrite Hj.
    + symmetry. apply nth_error_None. apply nth_error_None in Eu. lia.
  - intros ->. apply nth_error_ext. intros k. rewrite nth_error_seq.
    destruct (nth_error js k) as [j|] eqn:Ej.
    + destruct (Forall2_nth_error_r _ _ _ _ _ HF Ej) as (u & Eu & Hj).
      assert (k < length js) by (apply nth_error_Some; congruence).
      destruct (Nat.ltb_spec k (length js)); [|lia]. f_equal. rewrite Nat.add_0_l.
      apply (proj1 (NoDup_nth_error current) Hc); [apply nth_error_Some; congruence | congruence].
    + apply nth_error_None in Ej. destruct (Nat.ltb_spec k (length js)); [lia | reflexivity].
Qed.

(** The method on distinct items and rows: the indices of the synced
    rows, the reordered rows and their indices. *)
Lemma update_gtk_treemodel_run current (rows : list U) :
  NoDup current -> NoDup rows ->
  exists js rows3 js',
    Forall2 (fun u j => nth_error current j = Some u) (synced_rows eq_dec current rows) js /\
    Forall2 (fun j u => nth_error (synced_rows eq_dec current rows) j = Some u) js rows3 /\
    Forall2 (fun u j => nth_error current j = Some u) rows3 js' /\
    update_gtk_treemodel eq_dec true current rows =
      Ok (rows3, true, if list_eq_dec Nat.eq_dec (seq 0 (length js')) js' then false else true).
Proof.
  intros Hc Hr. set (rows2 := synced_rows eq_dec current rows).
  assert (Hperm : Permutation rows2 current) by exact (synced_rows_perm current rows Hc Hr).
  destruct (index_all_ok current rows2) as (js & Hjs & HF); [intros u; apply in_synced_rows|].
  assert (HR : Forall2 (fun j u => nth_error rows2 j = Some u) js (gtk_reorder rows2 js)).
  { apply gtk_reorder_spec. intros j Hj. apply In_nth_error in Hj as [k Hk].
    destruct (Forall2_nth_error_r _ _ _ _ _ HF Hk) as (u & _ & Hu).
    rewrite (Permutation_length Hperm). apply nth_error_Some. congruence. }
  destruct (index_all_ok current (gtk_reorder rows2 js)) as (js' & Hjs' & HF').
  { intros u Hu. apply In_nth_error in Hu as [k Hk].
    destruct (Forall2_nth_error_r _ _ _ _ _ HR Hk) as (j & _ & Hj).
    apply (in_synced_rows current rows), (nth_error_In _ _ Hj). }
  exists js, (gtk_reorder rows2 js), js'. split; [exact HF|]. split; [exact HR|]. split; [exact HF'|].
  unfold update_gtk_treemodel. cbn [negb]. fold rows2. rewrite Hjs. cbn [bind_result].
  replace (match js with [] => rows2 | _ => gtk_reorder rows2 js end) with (gtk_reorder rows2 js).
  - now rewrite Hjs'.
  - destruct js as [|j js0]; [|reflexivity].
    apply Forall2_length, length_zero_iff_nil in HF. now rewrite HF.
Qed.

(** Rows placed by an order that is itself made of the indices of
    distinct rows are distinct. *)
Lemma reorder_nodup current (rows2 rows3 : list U) js :
  NoDup rows2 ->
  Forall2 (fun u j => nth_error current j = Some u) rows2 js ->
  Forall2 (fun j u => nth_error rows2 j = Some u) js rows3 ->
  NoDup rows3.
Proof.
  intros Hnd HF HR. pose proof (Forall2_length HF) as L1. pose proof (Forall2_length HR) as L2.
  apply NoDup_nth_error. intros i j Hi Heq.
  destruct (nth_error rows3 i) as [u|] eqn:Eu; [|apply nth_error_None in Eu; lia].
  symmetry in Heq.
  destruct (Forall2_nth_error_r _ _ _ _ _ HR Eu) as (a & Ea & Ha).
  destruct (Forall2_nth_error_r _ _ _ _ _ HR Heq) as (b & Eb & Hb).
  assert (a = b) as <-.
  { apply (proj1 (NoDup_nth_error rows2) Hnd); [apply nth_error_Some; congruence | congruence]. }
  destruct (Forall2_nth_error_r _ _ _ _ _ HF Ea) as (vi & Evi & Hvi).
  destruct (Forall2_nth_error_r _ _ _ _ _ HF Eb) as (vj & Evj & Hvj).
  apply (proj1 (NoDup_nth_error rows2) Hnd); [apply nth_error_Some; congruence | congruence].
Qed.

(** [find] by uuid returns the item itself when it is present. *)
Lemma find_uuid_in (u : U) l :
  In u l -> List.find (fun t => if eq_dec u t then true else false) l = Some u.
Proof.
  induction l as [|a l IH]; [contradiction|]. cbn. intros [->|H].
  - now destruct (eq_dec u u).
  - destruct (eq_dec u a) as [->|]; [reflexivity|]. now apply IH.
Qed.

(** On a store that holds only item uuids, a path in range resolves to
    the item of that row and a path past the end raises [IndexError]. *)
Lemma get_by_path_synced current rows3 k :
  incl rows3 current ->
  get_by_path eq_dec true current rows3 k =
    match nth_error rows3 k with Some u => Ok (Some u) | None => Err IndexError end.
Proof.
  intros Hincl. unfold get_by_path. cbn.
  destruct (nth_error rows3 k) as [u|] eqn:E; [|reflexivity].
  now rewrite (find_uuid_in u current (Hincl u (nth_error_In _ _ E))).
Qed.

(** The synchronisation succeeds, emits, and leaves one row per item. *)
Lemma update_gtk_treemodel_perm current (rows : list U) :
  NoDup current -> NoDup rows ->
  exists rows3 warned, update_gtk_treemodel eq_dec true current rows = Ok (rows3, true, warned) /\
    Permutation rows3 current.
Proof.
  intros Hc Hr.
  destruct (update_gtk_treemodel_run current rows Hc Hr) as (js & rows3 & js' & HF & HR & _ & Hrun).
  do 2 eexists. split; [exact Hrun|].
  pose proof (synced_rows_perm current rows Hc Hr) as Hperm.
  apply NoDup_Permutation_bis.
  - exact (reorder_nodup current _ _ js (synced_rows_nodup current rows Hc Hr) HF HR).
  - rewrite <- (Forall2_length HR), <- (Forall2_length HF), (Permutation_length Hperm). lia.
  - intros u Hu. apply In_nth_error in Hu as [k Hk].
    destruct (Forall2_nth_error_r _ _ _ _ _ HR Hk) as (j & _ & Hj).
    apply (in_synced_rows current rows), (nth_error_In _ _ Hj).
Qed.

End Lemmas.

(** ** Properties *)

Section Claims.
Context {U : Type} (eq_dec : forall x y : U, {x = y} + {x <> y}).

(** C33: with distinct item uuids and distinct rows,
    [_update_gtk_treemodel] leaves the store with exactly one row per
    item (the rows are a permutation of the items: no stale row, none
    missing) and emits ["tool-list-changed"]; afterwards [get_by_path]
    resolves every row of the store to the item of that row, and a path
    past the last row raises [IndexError]. *)
Theorem update_gtk_treemodel_rows current (rows : list U) :
  NoDup current -> NoDup rows ->
  exists rows3 warned, update_gtk_treemodel eq_dec true current rows = Ok (rows3, true, warned) /\
    Permutation rows3 current /\
    (forall k, get_by_path eq_dec true current rows3 k =
       match nth_error rows3 k with Some u => Ok (Some u) | None => Err IndexError end).
Proof.
  intros Hc Hr.
  destruct (update_gtk_treemodel_perm eq_dec current rows Hc Hr) as (rows3 & warned & Hrun & P).
  exists rows3, warned. split; [exact Hrun|]. split; [exact P|].
  intros k. apply get_by_path_synced. intros u Hu. exact (Permutation_in _ P Hu).
Qed.

(** C7: [treemodel.reorder(sorted_indices)] is given, for each row, the
    position its uuid should move to, but GTK reads [new_order[newpos]]
    as the old position of the row that goes to [newpos]: row [k] of the
    result is the synced row at the position of row [k]'s uuid among the
    items (the inverse permutation).  The warning that follows fires
    exactly when the rows did not end in the order of the items. *)
Theorem update_gtk_treemodel_inverse current (rows : list U) :
  NoDup current -> NoDup rows ->
  exists rows3 warned, update_gtk_treemodel eq_dec true current rows = Ok (rows3, true, warned) /\
    (forall k u, nth_error (synced_rows eq_dec current rows) k = Some u ->
       exists j, nth_error current j = Some u /\
         nth_error rows3 k = nth_error (synced_rows eq_dec current rows) j) /\
    (warned = true <-> rows3 <> current).
Proof.
  intros Hc Hr.
  destruct (update_gtk_treemodel_run eq_dec current rows Hc Hr) as (js & rows3 & js' & HF & HR & HF' & Hrun).
  do 2 eexists. split; [exact Hrun|]. split.
  - intros k u Hk. destruct (Forall2_nth_error _ _ _ _ _ HF Hk) as (j & Ej & Hj).
    exists j. split; [exact Hj|].
    destruct (Forall2_nth_error _ _ _ _ _ HR Ej) as (v & Ev & Hv). now rewrite Ev, Hv.
  - assert (Hlen : length rows3 = length current).
    { rewrite <- (Forall2_length HR), <- (Forall2_length HF).
      exact (Permutation_length (synced_rows_perm eq_dec current rows Hc Hr)). }
    pose proof (indices_seq_iff current rows3 js' Hc Hlen HF') as Hiff.
    destruct (list_eq_dec Nat.eq_dec (seq 0 (length js')) js') as [E|E].
    + split; [discriminate|]. intros C. exfalso. apply C, Hiff. now rewrite <- E at 1.
    + split; [intros _ C; apply E; symmetry; now apply Hiff | reflexivity].
Qed.

End Claims.

Module TreeModelScenarios.

(** Items [1; 2; 3]; the store holds them rotated. *)
Lemma nodup_123 : NoDup [1; 2; 3].
Proof. repeat constructor; cbn; intuition discriminate. Qed.

Lemma nodup_231 : NoDup [2; 3; 1].
Proof. repeat constructor; cbn; intuition discriminate. Qed.

Lemma update_gtk_treemodel_inverse_witness :
  NoDup [1; 2; 3] /\ NoDup [2; 3; 1] /\
  update_gtk_treemodel Nat.eq_dec true [1; 2; 3] [2; 3; 1] = Ok ([3; 1; 2], true, true) /\
  exists rows3 warned,
    update_gtk_treemodel Nat.eq_dec true [1; 2; 3] [2; 3; 1] = Ok (rows3, true, warned) /\
    (warned = true <-> rows3 <> [1; 2; 3]).
Proof.
  split; [exact nodup_123|]. split; [exact nodup_231|]. split; [reflexivity|].
  destruct (update_gtk_treemodel_inverse Nat.eq_dec [1; 2; 3] [2; 3; 1] nodup_123 nodup_231)
    as (rows3 & warned & Hrun & _ & Hw).
  exists rows3, warned. split; [exact Hrun | exact Hw].
Defined.

Lemma nodup_9218 : NoDup [9; 2; 1; 8].
Proof. repeat constructor; cbn; intuition discriminate. Qed.

Lemma update_gtk_treemodel_rows_witness :
  NoDup [1; 2; 3] /\ NoDup [9; 2; 1; 8] /\
  exists rows3 warned,
    update_gtk_treemodel Nat.eq_dec true [1; 2; 3] [9; 2; 1; 8] = Ok (rows3, true, warned) /\
    Permutation rows3 [1; 2; 3] /\
    (forall k, get_by_path Nat.eq_dec true [1; 2; 3] rows3 k =
       match nth_error rows3 k with Some u => Ok (Some u) | None => Err IndexError end).
Proof.
  split; [exact nodup_123|]. split; [exact nodup_9218|].
  exact (update_gtk_treemodel_rows Nat.eq_dec [1; 2; 3] [9; 2; 1; 8] nodup_123 nodup_9218).
Defined.

End TreeModelScenarios.

End TreeModel.
