(* ===== verification/ListView.v ===== *)
(** * ListView: the GTK view of a list plugin

    Models the methods of [ListPluginBase] in
    [src/pycam/Plugins/__init__.py] that connect the list to its GTK
    view: [get_selected] and [_get_gtk_selected] (lines 452-490),
    [select] and [_select_gtk] (lines 492-505), [_change_wrapper]
    (lines 441-444), [_update_model], [register_model_update] and
    [unregister_model_update] (lines 549-559).  The items are their
    uuids (the only field these methods read); the store is the list of
    its rows, synchronised by [TreeModel.update_gtk_treemodel].  A view
    is a tree view or an icon view with a selection mode and a set of
    marked paths, or a combo box with its active index; the selection
    calls behave as GTK documents them for a list store: a tree view's
    selected rows are read in row order, [select_path] of a row past the
    end does nothing, and outside [SELECTION_MULTIPLE] selecting a row
    replaces the selection.  GTK does not document the order of an icon
    view's [get_selected_items]; the model reads it in row order too,
    and no theorem depends on it. *)

From Stdlib Require Import String.
From Stdlib Require Import List Arith ZArith Lia Bool Permutation.
From S2P Require Import Prelude ListPlugin TreeModel.
Import ListNotations.
Import TreeModel.TreeModel.

Module ListView.

(** [gtk.SELECTION_NONE], [SELECTION_SINGLE], [SELECTION_BROWSE],
    [SELECTION_MULTIPLE] *)
Inductive selection_mode : Type :=
  | SELECTION_NONE | SELECTION_SINGLE | SELECTION_BROWSE | SELECTION_MULTIPLE.

(** The three kinds of [_gtk_modelview] that [_get_gtk_selected]
    distinguishes: a tree view (it has [get_selection]), a combo box (it
    has [get_active]) and an icon view. *)
Inductive modelview : Type :=
  | TreeView (mode : selection_mode) (marked : list nat)
  | ComboBox (active : Z)
  | IconView (mode : selection_mode) (marked : list nat).

(** What [get_selected] returns: [None], one value, or a Python list. *)
Inductive selected (X : Type) : Type :=
  | SelNone
  | SelOne (x : X)
  | SelList (xs : list X).
Arguments SelNone {X}.
Arguments SelOne {X} x.
Arguments SelList {X} xs.

(** One call of [_update_model]: the tree-model synchronisation (with
    whether it emitted ["tool-list-changed"]) or a registered function. *)
Inductive update_call : Type :=
  | SyncTreeModel (emitted : bool)
  | CallUpdate (f : nat).

Section WithUuid.
Context {U : Type} (eq_dec : forall x y : U, {x = y} + {x <> y}).

(** A selected value: a row index ([index=True]) or what [get_by_path]
    returns for the row. *)
Inductive sel_value : Type :=
  | SIndex (n : nat)
  | SItem (item : option U).

(** The plugin as its view sees it: the uuids of [self], the rows of the
    store, [self._gtk_modelview] and [self._update_model_funcs] (the
    functions by identity). *)
Record list_view : Type := {
  lv_items : list U;
  lv_rows : list U;
  lv_modelview : option modelview;
  lv_update_funcs : list nat
}.

(** [set_gtk_modelview] (lines 507-508). *)
Definition set_view (lv : list_view) (mv : modelview) : list_view :=
  {| lv_items := lv_items lv; lv_rows := lv_rows lv; lv_modelview := Some mv;
     lv_update_funcs := lv_update_funcs lv |}.

(** [selection.get_selected_rows()[1]]: the marked rows in row order. *)
Definition marked_rows (rows : list U) (marked : list nat) : list nat :=
  List.filter (fun i => existsb (Nat.eqb i) marked) (seq 0 (length rows)).

(** [selection.select_path((index, ))] *)
Definition select_path (mode : selection_mode) (rows : list U) (p : nat) (marked : list nat)
    : list nat :=
  if p <? length rows then
    match mode with
    | SELECTION_NONE => marked
    | SELECTION_MULTIPLE => p :: marked
    | SELECTION_SINGLE | SELECTION_BROWSE => [p]
    end
  else marked.

(** [selection.unselect_path((index, ))] *)
Definition unselect_path (p : nat) (marked : list nat) : list nat :=
  List.filter (fun q => negb (q =? p)) marked.

(** The selection mode and the selected paths of lines 460-476. *)
Definition view_selection (rows : list U) (mv : modelview) : selection_mode * list nat :=
  match mv with
  | TreeView mode marked => (mode, marked_rows rows marked)
  | ComboBox active => (SELECTION_SINGLE, if (active <? 0)%Z then [] else [Z.to_nat active])
  | IconView mode marked => (mode, marked_rows rows marked)
  end.

(** [for path in paths: result.append(get_result(path))] *)
Fixpoint collect_results {X} (get_result : nat -> result X) (paths : list nat)
    : result (list X) :=
  match paths with
  | [] => Ok []
  | p :: rest => x <- get_result p ;; xs <- collect_results get_result rest ;; Ok (x :: xs)
  end.

(** [get_result]: [path[0]] or [self.get_by_path]. *)
Definition get_result (lv : list_view) (index : bool) (p : nat) : result sel_value :=
  if index then Ok (SIndex p)
  else o <- TreeModel.get_by_path eq_dec true (lv_items lv) (lv_rows lv) p ;; Ok (SItem o).

(** [_get_gtk_selected(index, force_list)] (lines 458-490). *)
Definition get_gtk_selected (lv : list_view) (mv : modelview) (index force_list : bool)
    : result (selected sel_value) :=
  let '(selection_mode, paths) := view_selection (lv_rows lv) mv in
  if (match selection_mode with SELECTION_MULTIPLE => true | _ => false end) || force_list then
    xs <- collect_results (get_result lv index) paths ;; Ok (SelList xs)
  else
    match paths with
    | [] => Ok SelNone
    | p :: _ => x <- get_result lv index p ;; Ok (SelOne x)
    end.

(** [get_selected(index, force_list)] (lines 452-456). *)
Definition get_selected (lv : list_view) (index force_list : bool) : result (selected sel_value) :=
  match lv_modelview lv with
  | None => Ok SelNone
  | Some mv => get_gtk_selected lv mv index force_list
  end.

(** The argument of [select]: one object, or a list or tuple of them;
    an object is an item (by its uuid) or [None]. *)
Inductive select_arg : Type :=
  | SelectOne (obj : option U)
  | SelectMany (objs : list (option U)).

(** [[item["uuid"] for item in selected_objs]]: [None["uuid"]] raises
    [TypeError]. *)
Fixpoint uuids_of (objs : list (option U)) : result (list U) :=
  match objs with
  | [] => Ok []
  | None :: _ => Err TypeError
  | Some u :: rest => us <- uuids_of rest ;; Ok (u :: us)
  end.

(** [for index, item in enumerate(self): ...] of [_select_gtk], from
    position [index] on. *)
Fixpoint select_loop (mode : selection_mode) (rows : list U) (selected_uuids : list U)
    (index : nat) (items : list U) (marked : list nat) : list nat :=
  match items with
  | [] => marked
  | item :: rest =>
      select_loop mode rows selected_uuids (S index) rest
        (if TreeModel.mem eq_dec item selected_uuids then select_path mode rows index marked
         else unselect_path index marked)
  end.

(** [_select_gtk] (lines 498-505): only a tree view has [get_selection]. *)
Definition select_gtk (lv : list_view) (mv : modelview) (selected_objs : list (option U))
    : result modelview :=
  match mv with
  | TreeView mode marked =>
      selected_uuids <- uuids_of selected_objs ;;
      Ok (TreeView mode (select_loop mode (lv_rows lv) selected_uuids 0 (lv_items lv) marked))
  | _ => Err AttributeError
  end.

(** [select(selected)] (lines 492-496). *)
Definition select (lv : list_view) (arg : select_arg) : result list_view :=
  let selected := match arg with SelectOne o => [o] | SelectMany os => os end in
  match lv_modelview lv with
  | None => Ok lv
  | Some mv => mv' <- select_gtk lv mv selected ;; Ok (set_view lv mv')
  end.

(** [self._update_model_funcs.append(func)] (line 555) *)
Definition register_model_update (lv : list_view) (f : nat) : list_view :=
  {| lv_items := lv_items lv; lv_rows := lv_rows lv; lv_modelview := lv_modelview lv;
     lv_update_funcs := app (lv_update_funcs lv) [f] |}.

(** [list.remove(x)]: drops the first occurrence. *)
Fixpoint remove_first (f : nat) (l : list nat) : list nat :=
  match l with
  | [] => []
  | g :: rest => if g =? f then rest else g :: remove_first f rest
  end.

(** [unregister_model_update] (lines 557-559) *)
Definition unregister_model_update (lv : list_view) (f : nat) : list_view :=
  {| lv_items := lv_items lv; lv_rows := lv_rows lv; lv_modelview := lv_modelview lv;
     lv_update_funcs := if existsb (Nat.eqb f) (lv_update_funcs lv)
                        then remove_first f (lv_update_funcs lv) else lv_update_funcs lv |}.

(** [_update_model] (lines 549-552): [_update_gtk_treemodel], which does
    nothing without a model view, then every registered function in
    registration order; the new state and the calls made. *)
Definition update_model (lv : list_view) : result (list_view * list update_call) :=
  let has_modelview := match lv_modelview lv with Some _ => true | None => false end in
  '(rows3, emitted, _) <- update_gtk_treemodel eq_dec has_modelview (lv_items lv) (lv_rows lv) ;;
  Ok ({| lv_items := lv_items lv; lv_rows := rows3; lv_modelview := lv_modelview lv;
         lv_update_funcs := lv_update_funcs lv |},
      SyncTreeModel emitted :: map CallUpdate (lv_update_funcs lv)).

(** [_change_wrapper(func_name, *args)] (lines 441-444): the list method
    ([op], on the items), then [_update_model]; the method's value is
    returned.  A method that raises skips the update. *)
Definition change_wrapper {B} (op : list U -> result (B * list U)) (lv : list_view)
    : result (B * list_view * list update_call) :=
  '(value, items') <- op (lv_items lv) ;;
  '(lv', calls) <- update_model {| lv_items := items'; lv_rows := lv_rows lv;
                                   lv_modelview := lv_modelview lv;
                                   lv_update_funcs := lv_update_funcs lv |} ;;
  Ok (value, lv', calls).

(** [ListPluginBase.new(value_list)] (lines 446-450): the classmethod's
    body uses the name [self], which is not bound in it. *)
Definition new (value_list : list U) : result list_view := Err NameError.

(** The row indices of a [get_selected(index=True, ...)] answer. *)
Definition selected_indices (s : selected sel_value) : list nat :=
  match s with
  | SelNone => []
  | SelOne v => match v with SIndex n => [n] | SItem _ => [] end
  | SelList vs => flat_map (fun v => match v with SIndex n => [n] | SItem _ => [] end) vs
  end.

(** The objects [register_list_action_button] connects to. *)
Inductive signal_source : Type := SrcSelection | SrcModelview | SrcModel | SrcButton.

(** [register_list_action_button(action, button)] (lines 623-641): the
    signals connected, in order, and the sensitivity the closing call of
    [_update_list_action_button_state] gives the button.  Without a view
    [modelview.connect] raises [AttributeError]; a combo box has no
    ["selection-changed"] signal, for which pygtk raises [TypeError]. *)
Definition register_list_action_button (lv : list_view) (action : nat)
    : result (list (signal_source * string) * bool) :=
  match lv_modelview lv with
  | None => Err AttributeError
  | Some (ComboBox _) => Err TypeError
  | Some mv =>
      let first := match mv with
                   | TreeView _ _ => (SrcSelection, "changed"%string)
                   | _ => (SrcModelview, "selection-changed"%string)
                   end in
      let model_signals := map (fun sg => (SrcModel, sg))
        ["row-changed"; "row-deleted"; "row-has-child-toggled"; "row-inserted";
         "rows-reordered"]%string in
      paths <- get_selected lv true true ;;
      Ok (first :: app model_signals [(SrcButton, "clicked"%string)],
          ListPlugin.button_sensitive action (selected_indices paths)
            {| ListPlugin.items := lv_items lv; ListPlugin.updates := 0 |})
  end.

End WithUuid.

(** ** Lemmas *)

Section Lemmas.
Context {U : Type} (eq_dec : forall x y : U, {x = y} + {x <> y}).

Lemma uuids_of_map (xs : list U) : uuids_of (map Some xs) = Ok xs.
Proof. induction xs as [|x xs IH]; [reflexivity|]. cbn. now rewrite IH. Qed.

(** Whether row [i] is marked after [select_path] in a multiple
    selection and after [unselect_path]. *)
Lemma select_path_multiple (rows : list U) p m i :
  p < length rows ->
  existsb (Nat.eqb i) (select_path SELECTION_MULTIPLE rows p m) = (i =? p) || existsb (Nat.eqb i) m.
Proof. intros Hp. unfold select_path. apply Nat.ltb_lt in Hp. now rewrite Hp. Qed.

Lemma unselect_path_spec p m i :
  existsb (Nat.eqb i) (unselect_path p m) = negb (i =? p) && existsb (Nat.eqb i) m.
Proof.
  unfold unselect_path. induction m as [|q m IH]; cbn; [now rewrite andb_false_r|].
  destruct (Nat.eqb_spec q p) as [Hq|Hq]; cbn; rewrite IH;
    destruct (Nat.eqb_spec i p), (Nat.eqb_spec i q); subst; cbn; congruence || reflexivity.
Qed.

(** In a multiple selection, the loop of [_select_gtk] marks exactly
    the rows whose item is selected and leaves the other paths alone. *)
Lemma select_loop_spec (rows : list U) su k items m i :
  k + length items <= length rows ->
  existsb (Nat.eqb i) (select_loop eq_dec SELECTION_MULTIPLE rows su k items m) =
    match (if k <=? i then nth_error items (i - k) else None) with
    | Some u => mem eq_dec u su
    | None => existsb (Nat.eqb i) m
    end.
Proof.
  revert k m. induction items as [|item rest IH]; intros k m Hk; cbn [select_loop].
  - destruct (k <=? i); [destruct (i - k)|]; reflexivity.
  - cbn [length] in Hk. rewrite IH by lia.
    assert (Hm : i <> k -> existsb (Nat.eqb i) (if mem eq_dec item su
                   then select_path SELECTION_MULTIPLE rows k m else unselect_path k m) =
                 existsb (Nat.eqb i) m).
    { intros Hik. destruct (mem eq_dec item su);
        [rewrite select_path_multiple by lia | rewrite unselect_path_spec];
        now rewrite (proj2 (Nat.eqb_neq i k) Hik). }
    destruct (Nat.leb_spec (S k) i), (Nat.leb_spec k i); try lia.
    + replace (i - k) with (S (i - S k)) by lia. cbn [nth_error].
      destruct (nth_error rest (i - S k)); [reflexivity | apply Hm; lia].
    + assert (i = k) as -> by lia. rewrite Nat.sub_diag. cbn.
      destruct (mem eq_dec item su).
      * rewrite select_path_multiple by lia. now rewrite Nat.eqb_refl.
      * rewrite unselect_path_spec. now rewrite Nat.eqb_refl.
    + apply Hm; lia.
Qed.

(** Reading the rows of a filter of positions gives the filter of the
    list. *)
Lemma collect_results_filter_seq {B} (g : U -> B) (p : U -> bool) (pre l : list U) :
  collect_results (fun i => match nth_error (app pre l) i with
                            | Some u => Ok (g u) | None => Err IndexError end)
    (List.filter (fun i => match nth_error (app pre l) i with Some u => p u | None => false end)
       (seq (length pre) (length l)))
  = Ok (map g (List.filter p l)).
Proof.
  revert pre. induction l as [|a l IH]; intros pre; [reflexivity|].
  assert (Ha : nth_error (app pre (a :: l)) (length pre) = Some a)
    by (rewrite nth_error_app2, Nat.sub_diag by lia; reflexivity).
  specialize (IH (app pre [a])). rewrite <- app_assoc, length_app, Nat.add_1_r in IH. cbn [app] in IH.
  cbn [length seq List.filter]. rewrite Ha.
  destruct (p a); cbn [collect_results]; rewrite ?Ha; cbn [bind_result]; rewrite ?IH; reflexivity.
Qed.

Lemma collect_results_ext {X} (f g : nat -> result X) l :
  (forall i, In i l -> f i = g i) -> collect_results f l = collect_results g l.
Proof.
  induction l as [|i l IH]; intros H; [reflexivity|]. cbn.
  rewrite H by now left. now rewrite IH by (intros j Hj; apply H; now right).
Qed.

Lemma collect_results_ok {X} (f : nat -> result X) (g : nat -> X) l :
  (forall i, f i = Ok (g i)) -> collect_results f l = Ok (map g l).
Proof. intros H. induction l as [|i l IH]; [reflexivity|]. cbn. now rewrite H, IH. Qed.

(** After [_select_gtk] in a multiple selection over a store in item
    order, the marked rows are the positions of the selected items. *)
Lemma marked_rows_select_loop (items : list U) su m :
  marked_rows items (select_loop eq_dec SELECTION_MULTIPLE items su 0 items m) =
  List.filter (fun i => match nth_error items i with Some u => mem eq_dec u su | None => false end)
    (seq 0 (length items)).
Proof.
  unfold marked_rows. apply List.filter_ext_in. intros i Hi. apply in_seq in Hi.
  rewrite select_loop_spec by lia. rewrite Nat.sub_0_r. cbn.
  destruct (nth_error items i) eqn:E; [reflexivity|]. apply nth_error_None in E. lia.
Qed.

(** A wrapped list method that keeps the uuids distinct is followed by
    the synchronisation, which leaves one row per item, and then by
    every registered function in registration order. *)
Lemma change_wrapper_spec {B} (op : list U -> result (B * list U)) (lv : list_view) mv value items' :
  lv_modelview lv = Some mv -> NoDup (lv_rows lv) ->
  op (lv_items lv) = Ok (value, items') -> NoDup items' ->
  exists lv', change_wrapper eq_dec op lv =
      Ok (value, lv', SyncTreeModel true :: map CallUpdate (lv_update_funcs lv)) /\
    lv_items lv' = items' /\ Permutation (lv_rows lv') items' /\
    lv_modelview lv' = lv_modelview lv /\ lv_update_funcs lv' = lv_update_funcs lv.
Proof.
  intros Hmv Hr Hop Hi. unfold change_wrapper. rewrite Hop. cbn [bind_result].
  unfold update_model. cbn [lv_modelview lv_items lv_rows lv_update_funcs]. rewrite Hmv.
  destruct (update_gtk_treemodel_perm eq_dec items' (lv_rows lv) Hi Hr) as (rows3 & w & Hrun & P).
  rewrite Hrun. cbn [bind_result]. eexists. split; [reflexivity|]. cbn. tauto.
Qed.

(** Registering a function that is not registered and unregistering it
    restores the list of update functions. *)
Lemma unregister_register_model_update (lv : @list_view U) f :
  ~ In f (lv_update_funcs lv) ->
  lv_update_funcs (unregister_model_update (register_model_update lv f) f) = lv_update_funcs lv.
Proof.
  unfold unregister_model_update, register_model_update. cbn. intros Hf.
  rewrite existsb_app. cbn. rewrite Nat.eqb_refl, orb_true_r.
  induction (lv_update_funcs lv) as [|g l IH]; cbn; [now rewrite Nat.eqb_refl|].
  destruct (Nat.eqb_spec g f) as [->|]; [exfalso; apply Hf; now left|].
  rewrite IH; [reflexivity|]. intros H. apply Hf. now right.
Qed.

(** A list method that raises skips [_update_model]. *)
Lemma change_wrapper_raise {B} (op : list U -> result (B * list U)) (lv : list_view) e :
  op (lv_items lv) = Err e -> change_wrapper eq_dec op lv = Err e.
Proof. intros H. unfold change_wrapper. now rewrite H. Qed.

(** [_select_gtk] calls [get_selection], which only a tree view has, and
    reads [item["uuid"]] of every object, which fails for [None]. *)
Lemma select_errors (lv : list_view) arg :
  (forall a, lv_modelview lv = Some (ComboBox a) -> select eq_dec lv arg = Err AttributeError) /\
  (forall mode m, lv_modelview lv = Some (IconView mode m) -> select eq_dec lv arg = Err AttributeError) /\
  (forall mode m, lv_modelview lv = Some (TreeView mode m) -> arg = SelectOne None ->
     select eq_dec lv arg = Err TypeError) /\
  (lv_modelview lv = None -> select eq_dec lv arg = Ok lv).
Proof.
  unfold select. repeat split; intros *; try intros H; try intros ->; try rewrite H; reflexivity.
Qed.

End Lemmas.

(** ** Properties *)

Section Claims.
Context {U : Type} (eq_dec : forall x y : U, {x = y} + {x <> y}).

(** C12: in a tree view with multiple selection whose store is in the
    order of the items, [select] of a list of items followed by
    [get_selected()] gives back exactly the selected items, in list
    order, and [get_selected(index=True, force_list=True)] (what the list
    actions read) their positions. *)
Theorem select_get_selected_roundtrip (lv : list_view) marked (xs : list U) :
  lv_modelview lv = Some (TreeView SELECTION_MULTIPLE marked) ->
  lv_rows lv = lv_items lv ->
  exists lv', select eq_dec lv (SelectMany (map Some xs)) = Ok lv' /\
    get_selected eq_dec lv' false false =
      Ok (SelList (map (fun u => SItem (Some u)) (List.filter (fun u => mem eq_dec u xs) (lv_items lv)))) /\
    get_selected eq_dec lv' true true =
      Ok (SelList (map SIndex (List.filter (fun i => match nth_error (lv_items lv) i with
                                                    | Some u => mem eq_dec u xs | None => false end)
                                 (seq 0 (length (lv_items lv)))))).
Proof.
  intros Hmv Hrows. unfold select. rewrite Hmv. cbn [select_gtk]. rewrite uuids_of_map.
  cbn [bind_result]. eexists. split; [reflexivity|].
  unfold get_selected, get_gtk_selected, set_view. cbn [lv_modelview lv_rows lv_items view_selection].
  rewrite Hrows, marked_rows_select_loop. cbn [orb]. split.
  - rewrite (collect_results_ext _ (fun i => match nth_error (app [] (lv_items lv)) i with
                                              | Some u => Ok (SItem (Some u)) | None => Err IndexError end)).
    + pose proof (collect_results_filter_seq (fun u => SItem (Some u)) (fun u => mem eq_dec u xs)
                    [] (lv_items lv)) as H. cbn [app length] in H |- *. now rewrite H.
    + intros i _. unfold get_result. cbn [lv_items lv_rows].
      rewrite (get_by_path_synced eq_dec (lv_items lv) (lv_items lv) i (incl_refl _)).
      cbn [app]. now destruct (nth_error (lv_items lv) i).
  - now rewrite (collect_results_ok _ SIndex).
Qed.

End Claims.

Module ListViewScenarios.

(** Items [1; 2; 3], the store in item order, row 0 marked. *)
Definition lv_sync : list_view :=
  {| lv_items := [1; 2; 3]; lv_rows := [1; 2; 3];
     lv_modelview := Some (TreeView SELECTION_MULTIPLE [0]); lv_update_funcs := [] |}.

Lemma select_get_selected_roundtrip_witness :
  lv_modelview lv_sync = Some (TreeView SELECTION_MULTIPLE [0]) /\ lv_rows lv_sync = lv_items lv_sync /\
  exists lv', select Nat.eq_dec lv_sync (SelectMany [Some 3; Some 1]) = Ok lv' /\
    get_selected Nat.eq_dec lv' false false = Ok (SelList [SItem (Some 1); SItem (Some 3)]) /\
    get_selected Nat.eq_dec lv' true true = Ok (SelList [SIndex 0; SIndex 2]).
Proof.
  split; [reflexivity|]. split; [reflexivity|].
  destruct (select_get_selected_roundtrip Nat.eq_dec lv_sync [0] [3; 1] eq_refl eq_refl)
    as (lv' & Hs & Hi & Hx).
  exists lv'. split; [exact Hs|]. split; [rewrite Hi | rewrite Hx]; reflexivity.
Defined.

(** The store rotated with respect to the items, one registered update
    function.  [_update_model] reorders it with the inverse permutation
    (rows [3; 1; 2]); [select] then marks row 0 for item 1, which
    [get_selected] reads back as item 3. *)
Definition lv_rotated : list_view :=
  {| lv_items := [1; 2; 3]; lv_rows := [2; 3; 1];
     lv_modelview := Some (TreeView SELECTION_MULTIPLE []); lv_update_funcs := [7] |}.

Example select_after_misorder :
  exists lv1 lv2,
    update_model Nat.eq_dec lv_rotated = Ok (lv1, [SyncTreeModel true; CallUpdate 7]) /\
    lv_rows lv1 = [3; 1; 2] /\
    select Nat.eq_dec lv1 (SelectOne (Some 1)) = Ok lv2 /\
    get_selected Nat.eq_dec lv2 false false = Ok (SelList [SItem (Some 3)]).
Proof. do 2 eexists. split; [reflexivity|]. split; [reflexivity|]. split; reflexivity. Qed.

(** With row 0 selected the UP button starts insensitive and the DOWN
    button sensitive; the tree view's selection, the five row signals
    of the model and the button's ["clicked"] are connected. *)
Example register_list_action_button_initial :
  register_list_action_button Nat.eq_dec lv_sync 0 =
    Ok ([(SrcSelection, "changed"); (SrcModel, "row-changed"); (SrcModel, "row-deleted");
         (SrcModel, "row-has-child-toggled"); (SrcModel, "row-inserted");
         (SrcModel, "rows-reordered"); (SrcButton, "clicked")]%string, false) /\
  (exists conns, register_list_action_button Nat.eq_dec lv_sync 1 = Ok (conns, true)).
Proof. split; [reflexivity | eexists; reflexivity]. Qed.

(** A function registered twice: unregistering it once drops its first
    registration, so the calls of [_update_model] change order. *)
Example unregister_model_update_first :
  lv_update_funcs (unregister_model_update
    (register_model_update {| lv_items := @nil nat; lv_rows := []; lv_modelview := None;
                              lv_update_funcs := [7; 8] |} 7) 7) = [8; 7].
Proof. reflexivity. Qed.

End ListViewScenarios.

End ListView.
