(* ===== verification/GL.v ===== *)
(** * GL: the OpenGL helpers of the 3D view

    Models [src/pycam/Gui/OpenGLTools.py]: the careful import of [GL]
    and [GLUT] (lines 26-31), the decorators [keep_gl_mode] (lines 36-42)
    and [keep_matrix] (44-54), [draw_direction_cone] (56-93) and
    [draw_complete_model_view] (95-121).  OpenGL is a state
    machine; the model keeps the part of its state these functions use:
    the current matrix mode, one matrix stack per mode (the head is the
    current matrix), the first recorded error, the current colour and the
    list of primitives drawn.  A matrix is kept symbolically as the
    transformations multiplied onto the identity, which is finer than
    equality of matrices, so "the matrix is restored" is proved in the
    strong sense.  The stack depths are the minimum the OpenGL
    specification guarantees (32 for the model-view stack, 2 for the
    others); a push on a full stack or a pop of the last matrix records
    [GL_STACK_OVERFLOW] or [GL_STACK_UNDERFLOW] and changes nothing.  The
    functions run in ExtLib's state monad.  [PointUtils] (not in the
    repository) is modelled by its vector arithmetic over the reals; the
    cutter's own drawing and [draw_toolpath] are parameters. *)

From Stdlib Require Import List Arith Lia Reals Lra.
From ExtLib Require Import Structures.Monad Structures.MonadState Structures.MonadExc.
From ExtLib Require Import Data.Monads.StateMonad Data.Monads.EitherMonad.
Import ListNotations.
Import MonadNotation.
Local Open Scope monad_scope.

Module GL.

Create HintDb gl.

Inductive matrix_mode : Type := GL_MODELVIEW | GL_PROJECTION | GL_TEXTURE.

Definition matrix_mode_eq_dec (m1 m2 : matrix_mode) : {m1 = m2} + {m1 <> m2}.
Proof. decide equality. Defined.

(** One factor of a matrix product. *)
Inductive xform : Type :=
  | XTranslate (x y z : R)
  | XRotate (angle x y z : R).

(** [[]] is the identity; [glTranslatef] and [glRotatef] multiply on the
    right. *)
Definition matrix : Type := list xform.

Inductive gl_error : Type := GL_STACK_OVERFLOW | GL_STACK_UNDERFLOW.

(** What reaches the frame buffer. *)
Inductive primitive : Type :=
  | SolidCone (radius height : R) (slices stacks : nat) (modelview : matrix)
  | External (name : nat) (modelview : matrix).

Record gl_state : Type := {
  mode : matrix_mode;
  mv_stack : list matrix;
  proj_stack : list matrix;
  tex_stack : list matrix;
  error : option gl_error;
  color : R * R * R * R;
  drawn : list primitive
}.

(** A Python exception raised by a call.  OpenGL's state lives outside
    the interpreter, so it survives the exception: the monad is
    [eitherT] over the state monad, not the other way round. *)
Inductive py_exc : Type := ValueError | NameError | ExternalError (n : nat).

Abbreviation GLM := (eitherT py_exc (state gl_state)).

Definition run {A} (c : GLM A) (s : gl_state) : (py_exc + A) * gl_state :=
  runState (unEitherT c) s.

Definition max_depth (m : matrix_mode) : nat :=
  match m with GL_MODELVIEW => 32 | _ => 2 end.

Definition stack_of (m : matrix_mode) (s : gl_state) : list matrix :=
  match m with GL_MODELVIEW => mv_stack s | GL_PROJECTION => proj_stack s | GL_TEXTURE => tex_stack s end.

Definition with_stack (m : matrix_mode) (st : list matrix) (s : gl_state) : gl_state :=
  {| mode := mode s;
     mv_stack := match m with GL_MODELVIEW => st | _ => mv_stack s end;
     proj_stack := match m with GL_PROJECTION => st | _ => proj_stack s end;
     tex_stack := match m with GL_TEXTURE => st | _ => tex_stack s end;
     error := error s; color := color s; drawn := drawn s |}.

Definition with_mode (m : matrix_mode) (s : gl_state) : gl_state :=
  {| mode := m; mv_stack := mv_stack s; proj_stack := proj_stack s; tex_stack := tex_stack s;
     error := error s; color := color s; drawn := drawn s |}.

(** The first error is kept until it is read. *)
Definition with_error (e : gl_error) (s : gl_state) : gl_state :=
  {| mode := mode s; mv_stack := mv_stack s; proj_stack := proj_stack s; tex_stack := tex_stack s;
     error := match error s with Some e0 => Some e0 | None => Some e end;
     color := color s; drawn := drawn s |}.

Definition with_drawn (p : primitive) (s : gl_state) : gl_state :=
  {| mode := mode s; mv_stack := mv_stack s; proj_stack := proj_stack s; tex_stack := tex_stack s;
     error := error s; color := color s; drawn := drawn s ++ [p] |}.

Definition with_color (c : R * R * R * R) (s : gl_state) : gl_state :=
  {| mode := mode s; mv_stack := mv_stack s; proj_stack := proj_stack s; tex_stack := tex_stack s;
     error := error s; color := c; drawn := drawn s |}.

(** ** The careful import (lines 26-31)

    [try: import OpenGL.GL as GL; import OpenGL.GLUT as GLUT
    except (ImportError, RuntimeError): pass] leaves both module names
    bound, only [GL] (the second import failed), or neither.  The names
    are module globals nothing rebinds, so the outcome is fixed for the
    whole run and is an argument of every function below. *)
Inductive gl_import : Type := GL_and_GLUT | GL_only | GL_none.

Definition gl_bound (i : gl_import) : bool :=
  match i with GL_none => false | _ => true end.


(** Evaluating [GL.<name>] or [GLUT.<name>]: [NameError] when the
    module name was never bound.  Each function looks the name up at its
    first [GL.] (or [GLUT.]) reference; once that lookup succeeds, every
    later one in the same call does too. *)
Definition lookup_GL (i : gl_import) : GLM unit :=
  if gl_bound i then ret tt else raise NameError.


(** ** The OpenGL calls *)

(** [glGetIntegerv(GL_MATRIX_MODE)] *)
Definition glGetMatrixMode : GLM matrix_mode := s <- get ;; ret (mode s).

Definition glMatrixMode (m : matrix_mode) : GLM unit := s <- get ;; put (with_mode m s).

Definition glPushMatrix : GLM unit :=
  s <- get ;;
  match stack_of (mode s) s with
  | top :: rest =>
      if Nat.ltb (length (top :: rest)) (max_depth (mode s))
      then put (with_stack (mode s) (top :: top :: rest) s)
      else put (with_error GL_STACK_OVERFLOW s)
  | [] => put (with_error GL_STACK_UNDERFLOW s)
  end.

Definition glPopMatrix : GLM unit :=
  s <- get ;;
  match stack_of (mode s) s with
  | _ :: ((_ :: _) as rest) => put (with_stack (mode s) rest s)
  | _ => put (with_error GL_STACK_UNDERFLOW s)
  end.

(** Replace or multiply the current matrix. *)
Definition update_top (f : matrix -> matrix) : GLM unit :=
  s <- get ;;
  match stack_of (mode s) s with
  | top :: rest => put (with_stack (mode s) (f top :: rest) s)
  | [] => ret tt
  end.

Definition glLoadIdentity : GLM unit := update_top (fun _ => []).
Definition glTranslatef (x y z : R) : GLM unit := update_top (fun m => m ++ [XTranslate x y z]).
Definition glRotatef (a x y z : R) : GLM unit := update_top (fun m => m ++ [XRotate a x y z]).
Definition glColor4f (r g b a : R) : GLM unit := s <- get ;; put (with_color (r, g, b, a) s).
Definition glFinish : GLM unit := ret tt.


(** ** The decorators (lines 36-54) *)

Definition keep_gl_mode {A} (i : gl_import) (func : GLM A) : GLM A :=
  lookup_GL i ;;
  prev_mode <- glGetMatrixMode ;;
  result <- func ;;
  glMatrixMode prev_mode ;;
  ret result.

Definition keep_matrix {A} (i : gl_import) (func : GLM A) : GLM A :=
  lookup_GL i ;;
  pushed_matrix_mode <- glGetMatrixMode ;;
  glPushMatrix ;;
  result <- func ;;
  final_matrix_mode <- glGetMatrixMode ;;
  glMatrixMode pushed_matrix_mode ;;
  glPopMatrix ;;
  glMatrixMode final_matrix_mode ;;
  ret result.

(** ** PointUtils *)

Definition point : Type := (R * R * R)%type.



(** ** draw_direction_cone (lines 56-93) *)




(** ** draw_complete_model_view (lines 95-121) *)

(** The entries of the settings the function reads. *)
Record view_settings {Cutter : Type} : Type := {
  show_drill : bool;
  cutter : option Cutter;
  color_cutter : R * R * R * R;
  show_drill_progress : bool;
  toolpath_in_progress : option (list (list point));   (* paths as point lists *)
  color_toolpath_cut : R * R * R * R;
  color_toolpath_return : R * R * R * R;
  show_directions : bool;
  view_light : bool
}.
Arguments view_settings : clear implicits.

Section ModelView.
Context {Cutter : Type}.
(** [cutter.to_OpenGL()] and [draw_toolpath] are outside this file. *)
Context (to_OpenGL : Cutter -> GLM unit).
Context (draw_toolpath : list (point * bool) -> R * R * R * R -> R * R * R * R -> bool -> bool -> GLM unit).

Definition draw_complete_model_view_body (i : gl_import) (settings : view_settings Cutter)
  : GLM unit :=
  lookup_GL i ;;
  glMatrixMode GL_MODELVIEW ;;
  glLoadIdentity ;;
  (if show_drill settings then
     match cutter settings with
     | Some c =>
         let '(r, g, b, a) := color_cutter settings in
         glColor4f r g b a ;; glFinish ;; to_OpenGL c
     | None => ret tt
     end
   else ret tt) ;;
  (if show_drill_progress settings then
     match toolpath_in_progress settings with
     | Some ((_ :: _) as toolpath) =>
         let moves := flat_map (fun path => map (fun p => (p, false)) path) toolpath in
         draw_toolpath moves (color_toolpath_cut settings) (color_toolpath_return settings)
           (show_directions settings) (view_light settings)
     | _ => ret tt
     end
   else ret tt).

Definition draw_complete_model_view (i : gl_import) (settings : view_settings Cutter) : GLM unit :=
  keep_gl_mode i (keep_matrix i (draw_complete_model_view_body i settings)).

End ModelView.

(** ** Well-formed OpenGL states and frame-preserving code *)

(** Every stack holds the current matrix and stays within its depth. *)
Definition gl_wf (s : gl_state) : Prop :=
  forall m, stack_of m s <> [] /\ length (stack_of m s) <= max_depth m.

(** Code that returns without an OpenGL error and without pushing or
    popping: below the current matrices, every stack is left as it was.
    Matrix-mode switches, current-matrix updates, colours and drawing are
    allowed. *)
Definition frame_preserving {A} (f : GLM A) : Prop :=
  forall s, gl_wf s -> error s = None ->
    exists v s', run f s = (inr v, s') /\ gl_wf s' /\ error s' = None /\
      forall m, tl (stack_of m s') = tl (stack_of m s).


(** The state [keep_matrix] returns in, from the state [func] left. *)
Definition restored (m0 : matrix_mode) (st0 : list matrix) (sf : gl_state) : gl_state :=
  with_mode (mode sf) (with_stack m0 st0 (with_mode m0 sf)).

(** ** Evaluation lemmas *)

Lemma run_bind {A B} (c : GLM A) (f : A -> GLM B) s :
  run (bind c f) s =
    match run c s with (inl e, s') => (inl e, s') | (inr x, s') => run (f x) s' end.
Proof. unfold run. cbn. destruct (runState (unEitherT c) s) as [[e|x] s']; reflexivity. Qed.

Lemma run_ret {A} (x : A) s : run (ret x) s = (inr x, s).
Proof. reflexivity. Qed.


(** A bound module name is looked up without effect. *)
Lemma run_after_lookup_GL {A} i (k : GLM A) s :
  gl_bound i = true -> run (lookup_GL i ;; k) s = run k s.
Proof. destruct i; [reflexivity | reflexivity | discriminate]. Qed.




Lemma stack_of_with_stack m m' st s :
  stack_of m (with_stack m' st s) = if matrix_mode_eq_dec m m' then st else stack_of m s.
Proof. destruct m, m'; reflexivity. Qed.

Lemma stack_of_with_mode m m' s : stack_of m (with_mode m' s) = stack_of m s.
Proof. destruct m; reflexivity. Qed.


Lemma gl_wf_nonempty s : gl_wf s -> stack_of (mode s) s <> [].
Proof. intros H. apply (H (mode s)). Qed.

Lemma stack_of_with_stack_same m st s : stack_of m (with_stack m st s) = st.
Proof. rewrite stack_of_with_stack. now destruct (matrix_mode_eq_dec m m). Qed.

Lemma stack_of_with_stack_other m m' st s : m <> m' -> stack_of m (with_stack m' st s) = stack_of m s.
Proof. intros Hne. rewrite stack_of_with_stack. now destruct (matrix_mode_eq_dec m m'). Qed.

Lemma run_update_top f s top rest :
  stack_of (mode s) s = top :: rest ->
  run (update_top f) s = (inr tt, with_stack (mode s) (f top :: rest) s).
Proof. intros E. unfold update_top, run. cbn. now rewrite E. Qed.

Lemma run_glPushMatrix s top rest :
  stack_of (mode s) s = top :: rest -> length (top :: rest) < max_depth (mode s) ->
  run glPushMatrix s = (inr tt, with_stack (mode s) (top :: top :: rest) s).
Proof.
  intros E Hlt. unfold glPushMatrix, run. cbn. rewrite E.
  apply Nat.ltb_lt in Hlt. cbn in Hlt. now rewrite Hlt.
Qed.

Lemma run_glPopMatrix s t rest :
  stack_of (mode s) s = t :: rest -> rest <> [] ->
  run glPopMatrix s = (inr tt, with_stack (mode s) rest s).
Proof.
  intros E Hne. unfold glPopMatrix, run. cbn. rewrite E.
  destruct rest; [contradiction | reflexivity].
Qed.

Lemma gl_wf_with_stack m st s :
  gl_wf s -> st <> [] -> length st <= max_depth m -> gl_wf (with_stack m st s).
Proof.
  intros Hwf Hne Hle m'. rewrite stack_of_with_stack.
  destruct (matrix_mode_eq_dec m' m) as [->|]; auto.
Qed.

Lemma gl_wf_with_mode m s : gl_wf s <-> gl_wf (with_mode m s).
Proof. split; intros H m'; specialize (H m'); destruct m'; exact H. Qed.

Lemma gl_wf_with_drawn p s : gl_wf s <-> gl_wf (with_drawn p s).
Proof. split; intros H m'; specialize (H m'); destruct m'; exact H. Qed.

Lemma gl_wf_with_color c s : gl_wf s <-> gl_wf (with_color c s).
Proof. split; intros H m'; specialize (H m'); destruct m'; exact H. Qed.


(** [keep_matrix] computed from what its push did: run [func], pop the
    entry mode's stack and return to the mode [func] left. *)
Lemma keep_matrix_run_after_push {A} i (f : GLM A) s s1 v sf t r :
  gl_bound i = true -> run glPushMatrix s = (inr tt, s1) -> run f s1 = (inr v, sf) ->
  stack_of (mode s) sf = t :: r -> r <> [] ->
  run (keep_matrix i f) s = (inr v, with_mode (mode sf) (with_stack (mode s) r (with_mode (mode s) sf))).
Proof.
  intros Hi Hpush Hf Esf Hr. unfold keep_matrix. rewrite (run_after_lookup_GL i _ s Hi).
  rewrite run_bind. change (run glGetMatrixMode s) with (inr (mode s) : py_exc + matrix_mode, s).
  cbv beta iota. rewrite run_bind, Hpush. cbv beta iota.
  rewrite run_bind, Hf. cbv beta iota. rewrite run_bind.
  change (run glGetMatrixMode sf) with (inr (mode sf) : py_exc + matrix_mode, sf).
  cbv beta iota. rewrite run_bind.
  change (run (glMatrixMode (mode s)) sf) with (inr tt : py_exc + unit, with_mode (mode s) sf).
  cbv beta iota.
  rewrite run_bind, (run_glPopMatrix (with_mode (mode s) sf) t r)
    by (first [rewrite stack_of_with_mode; exact Esf | exact Hr]).
  reflexivity.
Qed.

(** [keep_matrix] computed when the push has room. *)
Lemma keep_matrix_run {A} i (f : GLM A) s top rest v sf :
  gl_bound i = true -> stack_of (mode s) s = top :: rest -> length (top :: rest) < max_depth (mode s) ->
  run f (with_stack (mode s) (top :: top :: rest) s) = (inr v, sf) ->
  tl (stack_of (mode s) sf) = top :: rest ->
  run (keep_matrix i f) s =
    (inr v, with_mode (mode sf) (with_stack (mode s) (top :: rest) (with_mode (mode s) sf))).
Proof.
  intros Hi E Hlt Hf Htl.
  destruct (stack_of (mode s) sf) as [|t r] eqn:Esf; [discriminate|]. cbn in Htl. subst r.
  exact (keep_matrix_run_after_push i f s _ v sf t _ Hi (run_glPushMatrix s top rest E Hlt) Hf Esf
           ltac:(discriminate)).
Qed.

Lemma run_glMatrixMode m s : run (glMatrixMode m) s = (inr tt, with_mode m s).
Proof. reflexivity. Qed.

Lemma keep_gl_mode_run {A} i (f : GLM A) s r sf :
  gl_bound i = true -> run f s = (r, sf) ->
  run (keep_gl_mode i f) s =
    match r with inl e => (inl e, sf) | inr v => (inr v, with_mode (mode s) sf) end.
Proof.
  intros Hi Hf. unfold keep_gl_mode. rewrite (run_after_lookup_GL i _ s Hi), run_bind. cbv beta iota.
  change (run glGetMatrixMode s) with (inr (mode s) : py_exc + matrix_mode, s).
  cbv beta iota. rewrite run_bind, Hf. destruct r; reflexivity.
Qed.

Lemma frame_preserving_ret {A} (x : A) : frame_preserving (ret x).
Proof. intros s Hwf Herr. exists x, s. split; [reflexivity|]. split; [exact Hwf|]. now split. Qed.

Lemma frame_preserving_bind {A B} (c : GLM A) (f : A -> GLM B) :
  frame_preserving c -> (forall x, frame_preserving (f x)) -> frame_preserving (bind c f).
Proof.
  intros Hc Hf s Hwf Herr.
  destruct (Hc s Hwf Herr) as (x & s1 & Hr1 & Hwf1 & Herr1 & Htl1).
  destruct (Hf x s1 Hwf1 Herr1) as (y & s2 & Hr2 & Hwf2 & Herr2 & Htl2).
  exists y, s2. rewrite run_bind, Hr1. split; [exact Hr2|]. split; [exact Hwf2|].
  split; [exact Herr2|]. intros m. now rewrite Htl2, Htl1.
Qed.

Lemma frame_preserving_glMatrixMode m : frame_preserving (glMatrixMode m).
Proof.
  intros s Hwf Herr. exists tt, (with_mode m s). rewrite run_glMatrixMode.
  split; [reflexivity|]. split; [now apply gl_wf_with_mode|]. split; [exact Herr|].
  intros m'. now rewrite stack_of_with_mode.
Qed.

Lemma frame_preserving_update_top f : frame_preserving (update_top f).
Proof.
  intros s Hwf Herr.
  destruct (stack_of (mode s) s) as [|top rest] eqn:E; [now destruct (gl_wf_nonempty s Hwf)|].
  exists tt. eexists. rewrite (run_update_top f s top rest E). split; [reflexivity|].
  split; [|split; [exact Herr|]].
  - apply gl_wf_with_stack; [exact Hwf | discriminate |].
    pose proof (proj2 (Hwf (mode s))) as H. rewrite E in H. exact H.
  - intros m. rewrite stack_of_with_stack.
    destruct (matrix_mode_eq_dec m (mode s)) as [->|]; [now rewrite E | reflexivity].
Qed.

Lemma frame_preserving_glColor4f r g b a : frame_preserving (glColor4f r g b a).
Proof.
  intros s Hwf Herr. exists tt, (with_color (r, g, b, a) s).
  split; [reflexivity|]. split; [now apply gl_wf_with_color|]. split; [exact Herr|].
  intros m. now destruct m.
Qed.

#[export] Hint Resolve frame_preserving_ret frame_preserving_glMatrixMode
  frame_preserving_update_top frame_preserving_glColor4f : gl.

(** An exception of [func] leaves the matrix pushed and skips the
    restoring calls: there is no [try]/[finally]. *)
Lemma keep_matrix_raise {A} i (f : GLM A) s top rest e sf :
  gl_bound i = true -> stack_of (mode s) s = top :: rest -> length (top :: rest) < max_depth (mode s) ->
  run f (with_stack (mode s) (top :: top :: rest) s) = (inl e, sf) ->
  run (keep_matrix i f) s = (inl e, sf).
Proof.
  intros Hi E Hlt Hf. unfold keep_matrix. rewrite (run_after_lookup_GL i _ s Hi).
  rewrite run_bind. change (run glGetMatrixMode s) with (inr (mode s) : py_exc + matrix_mode, s).
  cbv beta iota. rewrite run_bind, (run_glPushMatrix s top rest E Hlt). cbv beta iota.
  now rewrite run_bind, Hf.
Qed.

(** ** Geometry of the direction cone *)









Lemma stack_of_restored m m0 st0 sf :
  stack_of m (restored m0 st0 sf) = if matrix_mode_eq_dec m m0 then st0 else stack_of m sf.
Proof. unfold restored. now rewrite stack_of_with_mode, stack_of_with_stack, stack_of_with_mode. Qed.

Lemma gl_wf_restored m0 st0 sf :
  gl_wf sf -> st0 <> [] -> length st0 <= max_depth m0 -> gl_wf (restored m0 st0 sf).
Proof.
  intros Hwf Hne Hle. apply gl_wf_with_mode, gl_wf_with_stack; [|exact Hne | exact Hle].
  now apply gl_wf_with_mode.
Qed.

(** ** The decorators *)

(** C36: [keep_matrix] runs [func] between a push and a pop of the
    matrix stack of the mode current at entry, and returns in the mode
    [func] left: when the stack has room for the push and [func] returns
    without pushing or popping, the entry mode's stack comes back exactly
    as it was, every other stack, the mode, the colour and the drawing are
    those [func] produced after the push, and the state stays well
    formed (with the [GL] module imported). *)
Theorem keep_matrix_restores {A} i (func : GLM A) s :
  gl_bound i = true ->
  gl_wf s -> error s = None -> length (stack_of (mode s) s) < max_depth (mode s) ->
  frame_preserving func ->
  exists v sf s',
    run (glPushMatrix ;; func) s = (inr v, sf) /\
    run (keep_matrix i func) s = (inr v, s') /\
    stack_of (mode s) s' = stack_of (mode s) s /\
    mode s' = mode sf /\ drawn s' = drawn sf /\ color s' = color sf /\
    error s' = None /\ gl_wf s' /\
    (forall m, m <> mode s -> stack_of m s' = stack_of m sf).
Proof.
  intros Hi Hwf Herr Hlt Hfp.
  destruct (stack_of (mode s) s) as [|top rest] eqn:E; [now destruct (gl_wf_nonempty s Hwf)|].
  assert (Hwf1 : gl_wf (with_stack (mode s) (top :: top :: rest) s))
    by (apply gl_wf_with_stack; [exact Hwf | discriminate | exact Hlt]).
  destruct (Hfp _ Hwf1 Herr) as (v & sf & Hf & Hwff & Herrf & Htl).
  assert (Htl0 : tl (stack_of (mode s) sf) = top :: rest)
    by (now rewrite Htl, stack_of_with_stack_same).
  exists v, sf. eexists. split; [|split].
  - rewrite run_bind, (run_glPushMatrix s top rest E Hlt). exact Hf.
  - exact (keep_matrix_run i func s top rest v sf Hi E Hlt Hf Htl0).
  - rewrite stack_of_with_mode, stack_of_with_stack_same.
    split; [reflexivity|]. do 4 (split; [first [reflexivity | assumption]|]). split.
    + apply gl_wf_with_mode, gl_wf_with_stack; [apply gl_wf_with_mode; exact Hwff | discriminate |].
      simpl in Hlt |- *. lia.
    + intros m Hm. now rewrite stack_of_with_mode, stack_of_with_stack_other, stack_of_with_mode.
Qed.









(** ** draw_complete_model_view *)

Section ModelViewProofs.
Context {Cutter : Type}.
Context (to_OpenGL : Cutter -> GLM unit).
Context (draw_toolpath : list (point * bool) -> R * R * R * R -> R * R * R * R -> bool -> bool -> GLM unit).
(** The [GL] module is imported ([GLUT] is not used here). *)
Context (i : gl_import) (Hi : gl_bound i = true).

Lemma draw_complete_model_view_body_fp settings :
  (forall c, frame_preserving (to_OpenGL c)) ->
  (forall moves c1 c2 d l, frame_preserving (draw_toolpath moves c1 c2 d l)) ->
  frame_preserving (draw_complete_model_view_body to_OpenGL draw_toolpath i settings).
Proof.
  intros Hc Ht. unfold draw_complete_model_view_body, glLoadIdentity, glFinish.
  apply frame_preserving_bind; [unfold lookup_GL; rewrite Hi; auto with gl | intros _].
  apply frame_preserving_bind; [auto with gl | intros _].
  apply frame_preserving_bind; [auto with gl | intros _].
  apply frame_preserving_bind; [| intros _].
  - destruct (show_drill settings); [|auto with gl].
    destruct (cutter settings) as [c|]; [|auto with gl].
    destruct (color_cutter settings) as [[[r g] b] a].
    apply frame_preserving_bind; [auto with gl | intros _].
    apply frame_preserving_bind; [auto with gl | intros _]. apply Hc.
  - destruct (show_drill_progress settings); [|auto with gl].
    destruct (toolpath_in_progress settings) as [[|p tp]|]; auto with gl.
Qed.

(** The body up to the drawing calls: model-view mode, identity matrix. *)
Lemma model_view_identity_prefix s mt mr (k : GLM unit) :
  mv_stack s = mt :: mr ->
  run (glMatrixMode GL_MODELVIEW ;; glLoadIdentity ;; k) s =
    run k (with_stack GL_MODELVIEW ([] :: mr) (with_mode GL_MODELVIEW s)).
Proof.
  intros Hmv. rewrite run_bind, run_glMatrixMode. cbv beta iota.
  unfold glLoadIdentity. rewrite run_bind. now rewrite (run_update_top _ (with_mode GL_MODELVIEW s) mt mr Hmv).
Qed.

(** C38: entered with the model-view matrix current (and room on its
    stack), [draw_complete_model_view] returns in model-view mode with
    the caller's model-view stack exactly as it was, no OpenGL error, and
    no other stack pushed or popped, provided the cutter's drawing and
    [draw_toolpath] neither push nor pop. *)
Theorem draw_complete_model_view_restores settings s :
  (forall c, frame_preserving (to_OpenGL c)) ->
  (forall moves c1 c2 d l, frame_preserving (draw_toolpath moves c1 c2 d l)) ->
  gl_wf s -> error s = None -> mode s = GL_MODELVIEW ->
  length (mv_stack s) < max_depth GL_MODELVIEW ->
  exists s', run (draw_complete_model_view to_OpenGL draw_toolpath i settings) s = (inr tt, s') /\
    mode s' = GL_MODELVIEW /\ mv_stack s' = mv_stack s /\ error s' = None /\ gl_wf s' /\
    (forall m, tl (stack_of m s') = tl (stack_of m s)).
Proof.
  intros Hc Ht Hwf Herr Hm Hlt.
  destruct (stack_of (mode s) s) as [|top rest] eqn:E; [now destruct (gl_wf_nonempty s Hwf)|].
  assert (Hlt' : length (top :: rest) < max_depth (mode s))
    by (rewrite <- E, Hm; exact Hlt).
  assert (Hwf1 : gl_wf (with_stack (mode s) (top :: top :: rest) s))
    by (apply gl_wf_with_stack; [exact Hwf | discriminate | exact Hlt']).
  destruct (draw_complete_model_view_body_fp settings Hc Ht _ Hwf1 Herr)
    as ([] & sf & Hf & Hwff & Herrf & Htl).
  assert (Htl0 : tl (stack_of (mode s) sf) = top :: rest)
    by (now rewrite Htl, stack_of_with_stack_same).
  unfold draw_complete_model_view.
  rewrite (keep_gl_mode_run i _ s _ _ Hi (keep_matrix_run i _ s top rest tt sf Hi E Hlt' Hf Htl0)).
  eexists. split; [reflexivity|].
  change (with_mode ?m (with_stack ?m0 ?st (with_mode ?m0 ?sf))) with (restored m0 st sf).
  split; [exact Hm|]. split.
  { change (mv_stack ?x) with (stack_of GL_MODELVIEW x).
    rewrite stack_of_with_mode, stack_of_restored, <- Hm, E.
    now destruct (matrix_mode_eq_dec (mode s) (mode s)). }
  split; [exact Herrf|]. split.
  - apply gl_wf_with_mode, gl_wf_restored; [exact Hwff | discriminate | cbn in *; lia].
  - intros m. rewrite stack_of_with_mode, stack_of_restored.
    destruct (matrix_mode_eq_dec m (mode s)) as [->|Hne]; [now rewrite E|].
    now rewrite Htl, stack_of_with_stack_other.
Qed.

(** C39: entered in another matrix mode (projection, say, as a caller
    that sets up its projection does), [draw_complete_model_view] keeps
    that mode's matrix and the mode, but [keep_matrix] saved the wrong
    stack: the caller's model-view matrix is replaced by the identity the
    body loaded, and stays so after the call. *)
Theorem draw_complete_model_view_clobbers_modelview settings s :
  show_drill settings = false -> show_drill_progress settings = false ->
  gl_wf s -> mode s <> GL_MODELVIEW -> length (stack_of (mode s) s) < max_depth (mode s) ->
  exists s', run (draw_complete_model_view to_OpenGL draw_toolpath i settings) s = (inr tt, s') /\
    mode s' = mode s /\ stack_of (mode s) s' = stack_of (mode s) s /\
    mv_stack s' = [] :: tl (mv_stack s).
Proof.
  intros Hd Hp Hwf Hm Hlt.
  destruct (stack_of (mode s) s) as [|top rest] eqn:E; [now destruct (gl_wf_nonempty s Hwf)|].
  assert (Hmv1 : stack_of GL_MODELVIEW (with_stack (mode s) (top :: top :: rest) s) = mv_stack s)
    by (apply stack_of_with_stack_other; congruence).
  destruct (mv_stack s) as [|mt mr] eqn:Emv; [now destruct (proj1 (Hwf GL_MODELVIEW))|].
  assert (Hf : run (draw_complete_model_view_body to_OpenGL draw_toolpath i settings)
                 (with_stack (mode s) (top :: top :: rest) s) =
               (inr tt, with_stack GL_MODELVIEW ([] :: mr)
                          (with_mode GL_MODELVIEW (with_stack (mode s) (top :: top :: rest) s)))).
  { unfold draw_complete_model_view_body.
    rewrite (run_after_lookup_GL i _ _ Hi), (model_view_identity_prefix _ mt mr _ Hmv1), Hd, Hp.
    reflexivity. }
  assert (Htl0 : tl (stack_of (mode s)
             (with_stack GL_MODELVIEW ([] :: mr)
                (with_mode GL_MODELVIEW (with_stack (mode s) (top :: top :: rest) s)))) = top :: rest)
    by (now rewrite stack_of_with_stack_other, stack_of_with_mode, stack_of_with_stack_same).
  unfold draw_complete_model_view.
  rewrite (keep_gl_mode_run i _ s _ _ Hi (keep_matrix_run i _ s top rest tt _ Hi E Hlt Hf Htl0)).
  eexists. split; [reflexivity|].
  change (with_mode ?m (with_stack ?m0 ?st (with_mode ?m0 ?sf))) with (restored m0 st sf).
  split; [reflexivity|]. split.
  - rewrite stack_of_with_mode, stack_of_restored.
    now destruct (matrix_mode_eq_dec (mode s) (mode s)).
  - change (mv_stack ?x) with (stack_of GL_MODELVIEW x).
    rewrite stack_of_with_mode, stack_of_restored.
    destruct (matrix_mode_eq_dec GL_MODELVIEW (mode s)) as [Heq|]; [congruence|].
    now rewrite stack_of_with_stack_same.
Qed.

(** C40: an exception from a drawing call (here [draw_toolpath], which
    this module neither defines nor imports, so the call raises
    [NameError]) escapes both decorators before they restore anything:
    the matrix stack of the entry mode is left one matrix deeper, the
    model-view matrix is the identity and the mode stays model-view. *)
Theorem draw_complete_model_view_raise_unbalanced settings s e path paths :
  show_drill settings = false -> show_drill_progress settings = true ->
  toolpath_in_progress settings = Some (path :: paths) ->
  (forall moves c1 c2 d l s0, run (draw_toolpath moves c1 c2 d l) s0 = (inl e, s0)) ->
  gl_wf s -> length (stack_of (mode s) s) < max_depth (mode s) ->
  exists s', run (draw_complete_model_view to_OpenGL draw_toolpath i settings) s = (inl e, s') /\
    mode s' = GL_MODELVIEW /\ hd [] (mv_stack s') = [] /\
    length (stack_of (mode s) s') = S (length (stack_of (mode s) s)).
Proof.
  intros Hd Hp Htp Hraise Hwf Hlt.
  destruct (stack_of (mode s) s) as [|top rest] eqn:E; [now destruct (gl_wf_nonempty s Hwf)|].
  assert (Hwf1 : gl_wf (with_stack (mode s) (top :: top :: rest) s))
    by (apply gl_wf_with_stack; [exact Hwf | discriminate | exact Hlt]).
  destruct (stack_of GL_MODELVIEW (with_stack (mode s) (top :: top :: rest) s)) as [|mt mr] eqn:Emv1;
    [now destruct (proj1 (Hwf1 GL_MODELVIEW))|].
  assert (Hf : run (draw_complete_model_view_body to_OpenGL draw_toolpath i settings)
                 (with_stack (mode s) (top :: top :: rest) s) =
               (inl e, with_stack GL_MODELVIEW ([] :: mr)
                          (with_mode GL_MODELVIEW (with_stack (mode s) (top :: top :: rest) s)))).
  { unfold draw_complete_model_view_body.
    rewrite (run_after_lookup_GL i _ _ Hi), (model_view_identity_prefix _ mt mr _ Emv1), Hd, Hp, Htp.
    rewrite run_bind, run_ret. cbv beta iota zeta. apply Hraise. }
  unfold draw_complete_model_view.
  rewrite (keep_gl_mode_run i _ s _ _ Hi (keep_matrix_raise i _ s top rest e _ Hi E Hlt Hf)).
  eexists. split; [reflexivity|]. split; [reflexivity|]. split.
  - change (mv_stack ?x) with (stack_of GL_MODELVIEW x). now rewrite stack_of_with_stack_same.
  - rewrite stack_of_with_stack, stack_of_with_mode.
    destruct (matrix_mode_eq_dec (mode s) GL_MODELVIEW) as [Hm|Hm].
    + rewrite <- Hm, stack_of_with_stack_same in Emv1. injection Emv1 as <- <-. reflexivity.
    + now rewrite stack_of_with_stack_same.
Qed.

End ModelViewProofs.

(** ** A failed import *)


Module GLScenarios.

Definition s_modelview : gl_state :=
  {| mode := GL_MODELVIEW; mv_stack := [[XTranslate 1 0 0]]; proj_stack := [[]]; tex_stack := [[]];
     error := None; color := (1, 1, 1, 1)%R; drawn := [] |}.

(** A caller that is setting up its projection matrix. *)
Definition s_projection : gl_state :=
  {| mode := GL_PROJECTION; mv_stack := [[XTranslate 1 0 0]]; proj_stack := [[XRotate 90 0 0 1]];
     tex_stack := [[]]; error := None; color := (1, 1, 1, 1)%R; drawn := [] |}.

Definition settings_of (drill progress : bool) (toolpath : option (list (list point))) : view_settings unit :=
  {| show_drill := drill; cutter := Some tt; color_cutter := (1, 0, 0, 1)%R;
     show_drill_progress := progress; toolpath_in_progress := toolpath;
     color_toolpath_cut := (0, 1, 0, 1)%R; color_toolpath_return := (0, 0, 1, 1)%R;
     show_directions := false; view_light := false |}.

Definition cutter_to_OpenGL (_ : unit) : GLM unit := glColor4f 0 0 0 1 ;; glTranslatef 0 0 1.
Definition quiet_toolpath (_ : list (point * bool)) (_ _ : R * R * R * R) (_ _ : bool) : GLM unit := ret tt.
Definition missing_toolpath (_ : list (point * bool)) (_ _ : R * R * R * R) (_ _ : bool) : GLM unit :=
  raise NameError.



Lemma gl_wf_s_modelview : gl_wf s_modelview.
Proof. intros []; cbn; split; first [discriminate | lia]. Qed.

Lemma gl_wf_s_projection : gl_wf s_projection.
Proof. intros []; cbn; split; first [discriminate | lia]. Qed.

Lemma cutter_to_OpenGL_fp c : frame_preserving (cutter_to_OpenGL c).
Proof.
  apply frame_preserving_bind; [apply frame_preserving_glColor4f | intros _].
  apply frame_preserving_update_top.
Qed.

Lemma quiet_toolpath_fp moves c1 c2 d l : frame_preserving (quiet_toolpath moves c1 c2 d l).
Proof. apply frame_preserving_ret. Qed.

Lemma keep_matrix_restores_witness :
  frame_preserving (glRotatef 45 0 0 1) /\
  exists v sf s', run (keep_matrix GL_and_GLUT (glRotatef 45 0 0 1)) s_modelview = (inr v, s') /\
    run (glPushMatrix ;; glRotatef 45 0 0 1) s_modelview = (inr v, sf) /\
    stack_of GL_MODELVIEW s' = [[XTranslate 1 0 0]].
Proof.
  split; [apply frame_preserving_update_top|].
  destruct (keep_matrix_restores GL_and_GLUT (glRotatef 45 0 0 1) s_modelview eq_refl gl_wf_s_modelview eq_refl
              ltac:(cbn; lia) (frame_preserving_update_top _))
    as (v & sf & s' & Hpush & Hrun & Hst & _).
  exists v, sf, s'. split; [exact Hrun|]. split; [exact Hpush | exact Hst].
Defined.

Lemma draw_complete_model_view_restores_witness :
  gl_wf s_modelview /\
  exists s', run (draw_complete_model_view cutter_to_OpenGL quiet_toolpath GL_and_GLUT
                    (settings_of true true (Some [[(0, 0, 0)%R]]))) s_modelview = (inr tt, s') /\
    mode s' = GL_MODELVIEW /\ mv_stack s' = [[XTranslate 1 0 0]].
Proof.
  split; [exact gl_wf_s_modelview|].
  destruct (draw_complete_model_view_restores cutter_to_OpenGL quiet_toolpath GL_and_GLUT eq_refl
              (settings_of true true (Some [[(0, 0, 0)%R]])) s_modelview
              cutter_to_OpenGL_fp quiet_toolpath_fp gl_wf_s_modelview eq_refl eq_refl ltac:(cbn; lia))
    as (s' & Hrun & Hm & Hmv & _).
  exists s'. now split; [|split].
Defined.

Lemma draw_complete_model_view_clobbers_modelview_witness :
  gl_wf s_projection /\
  exists s', run (draw_complete_model_view cutter_to_OpenGL quiet_toolpath GL_and_GLUT
                    (settings_of false false None)) s_projection = (inr tt, s') /\
    mode s' = GL_PROJECTION /\ proj_stack s' = [[XRotate 90 0 0 1]] /\ mv_stack s' = [[]].
Proof.
  split; [exact gl_wf_s_projection|].
  destruct (draw_complete_model_view_clobbers_modelview cutter_to_OpenGL quiet_toolpath GL_and_GLUT eq_refl
              (settings_of false false None) s_projection eq_refl eq_refl gl_wf_s_projection
              ltac:(discriminate) ltac:(cbn; lia))
    as (s' & Hrun & Hm & Hst & Hmv).
  exists s'. split; [exact Hrun|]. split; [exact Hm|]. split; [exact Hst | exact Hmv].
Defined.

Lemma draw_complete_model_view_raise_unbalanced_witness :
  gl_wf s_modelview /\
  exists s', run (draw_complete_model_view cutter_to_OpenGL missing_toolpath GL_and_GLUT
                    (settings_of false true (Some [[(0, 0, 0)%R]]))) s_modelview = (inl NameError, s') /\
    mode s' = GL_MODELVIEW /\ length (mv_stack s') = 2.
Proof.
  split; [exact gl_wf_s_modelview|].
  destruct (draw_complete_model_view_raise_unbalanced cutter_to_OpenGL missing_toolpath GL_and_GLUT eq_refl
              (settings_of false true (Some [[(0, 0, 0)%R]])) s_modelview NameError [(0, 0, 0)%R] []
              eq_refl eq_refl eq_refl (fun _ _ _ _ _ _ => eq_refl) gl_wf_s_modelview ltac:(cbn; lia))
    as (s' & Hrun & Hm & _ & Hlen).
  exists s'. split; [exact Hrun|]. split; [exact Hm | exact Hlen].
Defined.



End GLScenarios.

End GL.
